(** * The pytket example notebooks as programs over opaque libraries

    The repository holds three Jupyter notebooks: the Qiskit Aqua /
    t|ket> excited-state chemistry example (QSE), the pyQuil
    retargetability example and the Cirq routing example.  A notebook
    is a document: an ordered list of code cells, each a list of Python
    statements.  The development keeps that shape.  The statements are
    written down as data ([Stmt], [Expr]), cell by cell and line by
    line, and a definitional interpreter gives them their meaning in a
    state-and-exception monad whose only access to qiskit, pytket, cirq,
    pyquil, grove and numpy is an uninterpreted oracle.  Python's own
    data (ints, floats, strings, lists, tuples, dicts) and the handful
    of builtins the notebooks use are modelled concretely. *)

From Stdlib Require Import ZArith List String Ascii Bool Lia.
From Stdlib Require Import Floats.SpecFloat DecimalString.
Import ListNotations.
Open Scope string_scope.
Open Scope Z_scope.

Set Warnings "-register-all".

(** ** Python floats: IEEE 754 binary64 *)

Module PyFloat.

Definition prec : Z := 53.
Definition emax : Z := 1024.

Definition t := spec_float.

Definition of_Z (z : Z) : t := binary_normalize prec emax z 0 false.
Definition add : t -> t -> t := SFadd prec emax.
Definition sub : t -> t -> t := SFsub prec emax.
Definition mul : t -> t -> t := SFmul prec emax.
Definition div : t -> t -> t := SFdiv prec emax.
Definition opp : t -> t := SFopp.

(** A decimal literal [m / 10^d], as the Python parser reads it: the
    double nearest to the quotient.  The division of two doubles is
    correctly rounded, so this is that double whenever [m] and [10^d]
    are themselves doubles (|m| < 2^53, d <= 22), which holds for
    every literal of the notebooks. *)
Definition of_decimal (m : Z) (d : nat) : t :=
  div (of_Z m) (of_Z (10 ^ Z.of_nat d)).

Definition eqb (x y : t) : bool :=
  match x, y with
  | S754_zero a, S754_zero b => Bool.eqb a b
  | S754_infinity a, S754_infinity b => Bool.eqb a b
  | S754_nan, S754_nan => true
  | S754_finite a m e, S754_finite b n f =>
      Bool.eqb a b && Pos.eqb m n && Z.eqb e f
  | _, _ => false
  end.

End PyFloat.

(** ** [repr] of a float

    Python prints a float as the shortest decimal string that reads back
    as the same double (the nearest to it when several are that short),
    in positional notation when the decimal point falls within sixteen
    places and in exponent notation otherwise. *)

Module PyRepr.

Definition Z_to_string (z : Z) : string :=
  NilZero.string_of_int (Z.to_int z).

(** Non-negative rationals [c * 2^e2 * 10^e10] as fractions. *)
Definition rat (c e2 e10 : Z) : Z * Z :=
  (c * 2 ^ Z.max e2 0 * 10 ^ Z.max e10 0,
   2 ^ Z.max (- e2) 0 * 10 ^ Z.max (- e10) 0).

Definition rle (a b : Z * Z) : bool := fst a * snd b <=? fst b * snd a.
Definition rlt (a b : Z * Z) : bool := fst a * snd b <? fst b * snd a.

(** [floor (m * 2^e / 10^k)] *)
Definition scaled_floor (m e k : Z) : Z :=
  let q := rat m e (- k) in fst q / snd q.

Fixpoint adjust_down (fuel : nat) (m e k : Z) : Z :=
  match fuel with
  | O => k
  | S n => if scaled_floor m e k <? 1 then adjust_down n m e (k - 1) else k
  end.

Fixpoint adjust_up (fuel : nat) (m e k : Z) : Z :=
  match fuel with
  | O => k
  | S n => if 10 <=? scaled_floor m e k then adjust_up n m e (k + 1) else k
  end.

(** [floor (log10 (m * 2^e))], from the bit length and two corrections. *)
Definition decimal_exponent (m e : Z) : Z :=
  let est := (Z.log2 m + e) * 30103 / 100000 in
  adjust_up 4 m e (adjust_down 4 m e est).

(** Does the decimal [d * 10^k] read back as the double [m * 2^e]?  It
    does when it lies between the midpoints to the two neighbouring
    doubles, the midpoints included when [m] is even. *)
Definition reads_back (m e d k : Z) : bool :=
  let at_binade := (m =? 2 ^ 52) && (- 1074 <? e) in
  let low := rat (if at_binade then 4 * m - 1 else 4 * m - 2) (e - 2) 0 in
  let high := rat (4 * m + 2) (e - 2) 0 in
  let q := rat d 0 k in
  if Z.even m then rle low q && rle q high else rlt low q && rlt q high.

(** The [p]-digit decimal for [m * 2^e], if one reads back. *)
Definition candidate (m e dexp : Z) (p : nat) : option (Z * Z) :=
  let k := dexp - Z.of_nat p + 1 in
  let lo := scaled_floor m e k in
  let hi := lo + 1 in
  let x2 := rat (2 * m) e 0 in
  let mid := rat (lo + hi) 0 k in
  let lo_closer := rlt x2 mid || (rle x2 mid && Z.even lo) in
  match reads_back m e lo k, reads_back m e hi k with
  | true, true => Some (if lo_closer then lo else hi, k)
  | true, false => Some (lo, k)
  | false, true => Some (hi, k)
  | false, false => None
  end.

Fixpoint shortest (m e dexp : Z) (ps : list nat) : Z * Z :=
  match ps with
  | [] => (m * 2 ^ Z.max e 0, 0)
  | p :: ps' =>
      match candidate m e dexp p with
      | Some dk => dk
      | None => shortest m e dexp ps'
      end
  end.

Fixpoint strip_zeros (fuel : nat) (d k : Z) : Z * Z :=
  match fuel with
  | O => (d, k)
  | S n => if (d mod 10 =? 0) && negb (d =? 0)
           then strip_zeros n (d / 10) (k + 1) else (d, k)
  end.

Fixpoint zeros (n : nat) : string :=
  match n with O => "" | S n' => String "0" (zeros n') end.

Definition exponent_part (x : Z) : string :=
  let a := Z_to_string (Z.abs x) in
  (if x <? 0 then "e-" else "e+") ++ (if Z.abs x <? 10 then "0" ++ a else a).

(** Layout of the digit string [ds] with the decimal point [decpt]
    places after its first digit's position. *)
Definition layout (ds : string) (decpt : Z) : string :=
  let n := Z.of_nat (String.length ds) in
  if (decpt <=? - 4) || (16 <? decpt) then
    String.substring 0 1 ds
      ++ (if 1 <? n then "." ++ String.substring 1 (String.length ds - 1) ds else "")
      ++ exponent_part (decpt - 1)
  else if decpt <=? 0 then
    "0." ++ zeros (Z.to_nat (- decpt)) ++ ds
  else if decpt <? n then
    String.substring 0 (Z.to_nat decpt) ds ++ "."
      ++ String.substring (Z.to_nat decpt) (String.length ds - Z.to_nat decpt) ds
  else
    ds ++ zeros (Z.to_nat (decpt - n)) ++ ".0".

Definition float_repr (x : PyFloat.t) : string :=
  match x with
  | S754_nan => "nan"
  | S754_infinity s => if s then "-inf" else "inf"
  | S754_zero s => if s then "-0.0" else "0.0"
  | S754_finite s m e =>
      let dexp := decimal_exponent (Zpos m) e in
      let '(d, k) := shortest (Zpos m) e dexp (seq 1 17) in
      let '(d, k) := strip_zeros 400 d k in
      let ds := Z_to_string d in
      (if s then "-" else "")
        ++ layout ds (Z.of_nat (String.length ds) + k)
  end.

End PyRepr.


(** ** Python values

    [VRef] is an imported module, class or function, named by its
    qualified path; [VObj] is an object that a library created and owns
    (a circuit, an operator, a driver, a result); [VArray] is a numpy
    array, nested for more than one axis.  Everything else is Python's
    own data. *)

Inductive Val : Type :=
| VNone
| VBool (b : bool)
| VInt (z : Z)
| VFloat (x : PyFloat.t)
| VComplex (re im : PyFloat.t)
| VStr (s : string)
| VList (l : list Val)
| VTuple (l : list Val)
| VDict (d : list (string * Val))
| VRange (n : Z)
| VArray (l : list Val)
| VRef (path : string)
| VObj (h : N).

Inductive Exn : Type :=
| NameError (x : string)
| TypeError
| KeyError (k : string)
| IndexError
| AttributeError (a : string)
| ValueError
| ZeroDivisionError
| LibError (code : N)
| Unmodelled.

(** What a step produces: a value, or the exception it raised. *)
Inductive Result (A : Type) : Type :=
| Ok (a : A)
| Raise (e : Exn).

Arguments Ok {A} a.
Arguments Raise {A} e.

Module Py.

Fixpoint eqb (a b : Val) {struct a} : bool :=
  let fix eqb_list (l1 l2 : list Val) {struct l1} : bool :=
    match l1, l2 with
    | [], [] => true
    | x :: l1', y :: l2' => eqb x y && eqb_list l1' l2'
    | _, _ => false
    end in
  let fix eqb_dict (d1 d2 : list (string * Val)) {struct d1} : bool :=
    match d1, d2 with
    | [], [] => true
    | (k1, x) :: d1', (k2, y) :: d2' =>
        String.eqb k1 k2 && eqb x y && eqb_dict d1' d2'
    | _, _ => false
    end in
  match a, b with
  | VNone, VNone => true
  | VBool x, VBool y => Bool.eqb x y
  | VInt x, VInt y => Z.eqb x y
  | VFloat x, VFloat y => PyFloat.eqb x y
  | VComplex r i, VComplex r' i' => PyFloat.eqb r r' && PyFloat.eqb i i'
  | VStr x, VStr y => String.eqb x y
  | VList x, VList y => eqb_list x y
  | VTuple x, VTuple y => eqb_list x y
  | VDict x, VDict y => eqb_dict x y
  | VRange x, VRange y => Z.eqb x y
  | VArray x, VArray y => eqb_list x y
  | VRef x, VRef y => String.eqb x y
  | VObj x, VObj y => N.eqb x y
  | _, _ => false
  end.

(** *** Numbers *)

Inductive Num : Type :=
| NInt (z : Z)
| NFloat (x : PyFloat.t)
| NComplex (re im : PyFloat.t).

Definition as_num (v : Val) : option Num :=
  match v with
  | VBool b => Some (NInt (if b then 1 else 0))
  | VInt z => Some (NInt z)
  | VFloat x => Some (NFloat x)
  | VComplex r i => Some (NComplex r i)
  | _ => None
  end.

Definition of_num (n : Num) : Val :=
  match n with
  | NInt z => VInt z
  | NFloat x => VFloat x
  | NComplex r i => VComplex r i
  end.

Definition to_float (n : Num) : PyFloat.t :=
  match n with
  | NInt z => PyFloat.of_Z z
  | NFloat x => x
  | NComplex r _ => r
  end.

Definition to_complex (n : Num) : PyFloat.t * PyFloat.t :=
  match n with
  | NComplex r i => (r, i)
  | _ => (to_float n, S754_zero false)
  end.

Definition is_complex (n : Num) : bool :=
  match n with NComplex _ _ => true | _ => false end.

Definition is_int (n : Num) : bool :=
  match n with NInt _ => true | _ => false end.

Inductive BinOp : Type := Add | Sub | Mul | Pow.

(** Arithmetic on two numbers, with Python's coercions: int with float
    gives float, anything with complex gives complex.  A power with a
    negative integer exponent is computed in floats; [**] on floats and
    complex numbers is the C library's and is left out. *)
Definition num_binop (op : BinOp) (a b : Num) : Result Val :=
  match op, a, b with
  | Add, NInt x, NInt y => Ok (VInt (x + y))
  | Sub, NInt x, NInt y => Ok (VInt (x - y))
  | Mul, NInt x, NInt y => Ok (VInt (x * y))
  | Pow, NInt x, NInt y =>
      if 0 <=? y then Ok (VInt (x ^ y))
      else if x =? 0 then Raise ZeroDivisionError
      else Ok (VFloat (PyFloat.div (PyFloat.of_Z 1) (PyFloat.of_Z (x ^ (- y)))))
  | Pow, _, _ => Raise Unmodelled
  | _, _, _ =>
      if is_complex a || is_complex b then
        let '(r1, i1) := to_complex a in
        let '(r2, i2) := to_complex b in
        match op with
        | Add => Ok (VComplex (PyFloat.add r1 r2) (PyFloat.add i1 i2))
        | Sub => Ok (VComplex (PyFloat.sub r1 r2) (PyFloat.sub i1 i2))
        | _ => Ok (VComplex
                     (PyFloat.sub (PyFloat.mul r1 r2) (PyFloat.mul i1 i2))
                     (PyFloat.add (PyFloat.mul r1 i2) (PyFloat.mul i1 r2)))
        end
      else
        let x := to_float a in
        let y := to_float b in
        match op with
        | Add => Ok (VFloat (PyFloat.add x y))
        | Sub => Ok (VFloat (PyFloat.sub x y))
        | _ => Ok (VFloat (PyFloat.mul x y))
        end
  end.

(** *** Operators on values

    Sequences concatenate and repeat; a numpy array combines with a
    number or with an array of the same length element by element. *)

Definition seq_binop (op : BinOp) (a b : Val) : Result Val :=
  match op, a, b with
  | Add, VStr x, VStr y => Ok (VStr (x ++ y))
  | Add, VList x, VList y => Ok (VList (x ++ y))
  | Add, VTuple x, VTuple y => Ok (VTuple (x ++ y))
  | Mul, VList x, VInt n => Ok (VList (List.concat (repeat x (Z.to_nat n))))
  | Mul, VInt n, VList x => Ok (VList (List.concat (repeat x (Z.to_nat n))))
  | Mul, VTuple x, VInt n => Ok (VTuple (List.concat (repeat x (Z.to_nat n))))
  | Mul, VInt n, VTuple x => Ok (VTuple (List.concat (repeat x (Z.to_nat n))))
  | Mul, VStr x, VInt n => Ok (VStr (String.concat "" (repeat x (Z.to_nat n))))
  | Mul, VInt n, VStr x => Ok (VStr (String.concat "" (repeat x (Z.to_nat n))))
  | _, _, _ => Raise TypeError
  end.

Definition scalar_binop (op : BinOp) (a b : Val) : Result Val :=
  match as_num a, as_num b with
  | Some x, Some y => num_binop op x y
  | _, _ => seq_binop op a b
  end.

(** All results of a list, or the first exception. *)
Fixpoint collect {A : Type} (rs : list (Result A)) : Result (list A) :=
  match rs with
  | [] => Ok []
  | Ok a :: rs' =>
      match collect rs' with
      | Ok l => Ok (a :: l)
      | Raise e => Raise e
      end
  | Raise e :: _ => Raise e
  end.

Definition is_array (v : Val) : bool :=
  match v with VArray _ => true | _ => false end.

(** [a op b] where [a] is an array's element and [b] a number: the
    element may itself be a row of the array. *)
Fixpoint elem_scalar (op : BinOp) (swap : bool) (a s : Val) {struct a} : Result Val :=
  match a with
  | VArray l =>
      match collect (map (fun x => elem_scalar op swap x s) l) with
      | Ok l' => Ok (VArray l')
      | Raise e => Raise e
      end
  | _ => if swap then scalar_binop op s a else scalar_binop op a s
  end.

Fixpoint elem_elem (op : BinOp) (a b : Val) {struct a} : Result Val :=
  let fix zip (l1 l2 : list Val) {struct l1} : Result (list Val) :=
    match l1, l2 with
    | [], [] => Ok []
    | x :: l1', y :: l2' =>
        match elem_elem op x y, zip l1' l2' with
        | Ok v, Ok l => Ok (v :: l)
        | Raise e, _ => Raise e
        | _, Raise e => Raise e
        end
    | _, _ => Raise ValueError
    end in
  match a, b with
  | VArray l1, VArray l2 =>
      match zip l1 l2 with
      | Ok l => Ok (VArray l)
      | Raise e => Raise e
      end
  | VArray _, _ => elem_scalar op false a b
  | _, VArray _ => elem_scalar op true b a
  | _, _ => scalar_binop op a b
  end.

(** The binary operators on Python's data and numpy arrays. *)
Definition binop (op : BinOp) (a b : Val) : Result Val :=
  if is_array a || is_array b then elem_elem op a b else scalar_binop op a b.

Definition neg (a : Val) : Result Val :=
  match a with
  | VBool b => Ok (VInt (if b then -1 else 0))
  | VInt z => Ok (VInt (- z))
  | VFloat x => Ok (VFloat (PyFloat.opp x))
  | VComplex r i => Ok (VComplex (PyFloat.opp r) (PyFloat.opp i))
  | VArray _ => elem_scalar Mul false a (VInt (-1))
  | _ => Raise TypeError
  end.

(** *** Sequences *)

Definition range_list (n : Z) : list Val :=
  map (fun i => VInt (Z.of_nat i)) (seq 0 (Z.to_nat n)).

Definition chars (s : string) : list Val :=
  map (fun c => VStr (String c "")) (list_ascii_of_string s).

(** The elements a [for] loop or a comprehension runs over. *)
Definition iterate (v : Val) : Result (list Val) :=
  match v with
  | VList l | VTuple l | VArray l => Ok l
  | VRange n => Ok (range_list n)
  | VStr s => Ok (chars s)
  | VDict d => Ok (map (fun kv => VStr (fst kv)) d)
  | _ => Raise TypeError
  end.

Definition len (v : Val) : Result Val :=
  match v with
  | VList l | VTuple l | VArray l => Ok (VInt (Z.of_nat (List.length l)))
  | VRange n => Ok (VInt (Z.max n 0))
  | VStr s => Ok (VInt (Z.of_nat (String.length s)))
  | VDict d => Ok (VInt (Z.of_nat (List.length d)))
  | _ => Raise TypeError
  end.

Definition enumerate (v : Val) : Result Val :=
  match iterate v with
  | Ok l => Ok (VList (map (fun ix => VTuple [VInt (Z.of_nat (fst ix)); snd ix])
                           (combine (seq 0 (List.length l)) l)))
  | Raise e => Raise e
  end.

(** [l[i]]: a negative index counts from the end. *)
Definition index (l : list Val) (i : Z) : Result Val :=
  let n := Z.of_nat (List.length l) in
  let j := if i <? 0 then i + n else i in
  if (0 <=? j) && (j <? n)
  then match nth_error l (Z.to_nat j) with
       | Some v => Ok v
       | None => Raise IndexError
       end
  else Raise IndexError.

Fixpoint lookup {A : Type} (k : string) (d : list (string * A)) : option A :=
  match d with
  | [] => None
  | (k', v) :: d' => if String.eqb k k' then Some v else lookup k d'
  end.

Definition subscript (v i : Val) : Result Val :=
  match v, i with
  | VList l, VInt z | VTuple l, VInt z | VArray l, VInt z => index l z
  | VList l, VBool b | VTuple l, VBool b | VArray l, VBool b =>
      index l (if b then 1 else 0)
  | VRange n, VInt z => index (range_list n) z
  | VStr s, VInt z => index (chars s) z
  | VDict d, VStr k =>
      match lookup k d with
      | Some x => Ok x
      | None => Raise (KeyError k)
      end
  | VDict _, _ => Raise Unmodelled
  | _, _ => Raise TypeError
  end.

(** The shape of a numpy array: its length, then the shape of a row. *)
Fixpoint shape (v : Val) : list Val :=
  match v with
  | VArray l =>
      VInt (Z.of_nat (List.length l))
        :: match l with
           | x :: _ => shape x
           | [] => []
           end
  | _ => []
  end.

(** Attributes of Python's data. *)
Definition data_attr (v : Val) (a : string) : Result Val :=
  match v with
  | VBool _ | VInt _ | VFloat _ =>
      if String.eqb a "real" then Ok (match v with VBool b => VInt (if b then 1 else 0) | _ => v end)
      else if String.eqb a "imag"
           then Ok (match v with VFloat _ => VFloat (S754_zero false) | _ => VInt 0 end)
           else Raise (AttributeError a)
  | VComplex r i =>
      if String.eqb a "real" then Ok (VFloat r)
      else if String.eqb a "imag" then Ok (VFloat i)
      else Raise (AttributeError a)
  | VArray _ =>
      if String.eqb a "shape" then Ok (VTuple (shape v))
      else Raise Unmodelled
  | _ => Raise (AttributeError a)
  end.

(** *** [str], [repr] and [str.format]

    The text of Python's own data.  [None] stands for a value whose
    text is produced by code outside the interpreter (a library
    object's or a numpy array's [__str__]) or is not modelled. *)

Definition plain_char (c : ascii) : bool :=
  let n := nat_of_ascii c in
  (32 <=? n)%nat && (n <=? 126)%nat && negb (n =? 39)%nat && negb (n =? 92)%nat.

Definition quote (s : string) : option string :=
  if forallb plain_char (list_ascii_of_string s)
  then Some ("'" ++ s ++ "'") else None.

Fixpoint join (sep : string) (l : list string) : string :=
  match l with
  | [] => ""
  | [x] => x
  | x :: l' => x ++ sep ++ join sep l'
  end.

Fixpoint all_some {A : Type} (l : list (option A)) : option (list A) :=
  match l with
  | [] => Some []
  | Some a :: l' => option_map (cons a) (all_some l')
  | None :: _ => None
  end.

Fixpoint repr (v : Val) : option string :=
  let fix items (d : list (string * Val)) : list (option string) :=
    match d with
    | [] => []
    | (k, x) :: d' =>
        match quote k, repr x with
        | Some qk, Some rx => Some (qk ++ ": " ++ rx)
        | _, _ => None
        end :: items d'
    end in
  match v with
  | VNone => Some "None"
  | VBool b => Some (if b then "True" else "False")
  | VInt z => Some (PyRepr.Z_to_string z)
  | VFloat x => Some (PyRepr.float_repr x)
  | VStr s => quote s
  | VList l =>
      option_map (fun rs => "[" ++ join ", " rs ++ "]") (all_some (map repr l))
  | VTuple l =>
      option_map
        (fun rs => match rs with
                   | [r] => "(" ++ r ++ ",)"
                   | _ => "(" ++ join ", " rs ++ ")"
                   end)
        (all_some (map repr l))
  | VDict d =>
      option_map (fun rs => "{" ++ join ", " rs ++ "}") (all_some (items d))
  | VRange n => Some ("range(0, " ++ PyRepr.Z_to_string n ++ ")")
  | VComplex _ _ | VArray _ | VRef _ | VObj _ => None
  end.

Definition str (v : Val) : option string :=
  match v with
  | VStr s => Some s
  | _ => repr v
  end.

(** [template.format(args)] for templates whose only fields are [{}]:
    each field takes the next argument's text. *)
Fixpoint fill (template : string) (args : list string) : Result string :=
  match template with
  | EmptyString => Ok ""
  | String "{" (String "}" rest) =>
      match args with
      | a :: args' =>
          match fill rest args' with
          | Ok s => Ok (a ++ s)
          | Raise e => Raise e
          end
      | [] => Raise IndexError
      end
  | String "{" _ => Raise Unmodelled
  | String "}" _ => Raise Unmodelled
  | String c rest =>
      match fill rest args with
      | Ok s => Ok (String c s)
      | Raise e => Raise e
      end
  end.

(** The package a plain [import a.b.c] binds: [a]. *)
Fixpoint top_package (m : string) : string :=
  match m with
  | EmptyString => ""
  | String "." _ => ""
  | String c rest => String c (top_package rest)
  end.

End Py.

(** ** The world outside the notebook

    Every step that leaves the interpreter is one of: importing a
    module, calling a library function or class, calling a method or
    reading an attribute of a library object, and calling one of the
    runtime's own effectful builtins ([open] and the like).  The log
    records each such step with its arguments and its outcome, and each
    line printed and each value handed to the front end for display. *)

Inductive Callee : Type :=
| Import (module : string) (names : list string)
| Fn (path : string)
| Method (m : string)
| GetAttr (a : string)
| Runtime (f : string).

Inductive Event : Type :=
| EvCall (c : Callee) (args : list Val) (kwargs : list (string * Val)) (r : Result Val)
| EvPrint (line : string)
| EvDisplay (v : Val).

(** The libraries, uninterpreted: a transition function on a state of
    their own. *)
Definition Library (LibState : Type) : Type :=
  LibState -> Callee -> list Val -> list (string * Val) -> Result Val * LibState.

Record World (LibState : Type) : Type := mkWorld {
  libst : LibState;
  log : list Event
}.

Arguments mkWorld {LibState} libst log.
Arguments libst {LibState} w.
Arguments log {LibState} w.

(** The interpreter's state: the kernel's global namespace and the
    world. *)
Record State (LibState : Type) : Type := mkState {
  globals : list (string * Val);
  world : World LibState
}.

Arguments mkState {LibState} globals world.
Arguments globals {LibState} s.
Arguments world {LibState} s.

Definition M (LibState A : Type) : Type :=
  State LibState -> Result A * State LibState.

Definition ret {L A : Type} (a : A) : M L A := fun s => (Ok a, s).

Definition raise {L A : Type} (e : Exn) : M L A := fun s => (Raise e, s).

Definition bind {L A B : Type} (m : M L A) (k : A -> M L B) : M L B :=
  fun s =>
    match m s with
    | (Ok a, s') => k a s'
    | (Raise e, s') => (Raise e, s')
    end.

(** [try: m except: h] *)
Definition catch {L A : Type} (m h : M L A) : M L A :=
  fun s =>
    match m s with
    | (Ok a, s') => (Ok a, s')
    | (Raise _, s') => h s'
    end.

Definition lift {L A : Type} (r : Result A) : M L A := fun s => (r, s).

Declare Scope py_scope.
Delimit Scope py_scope with py.
Notation "x <- m ;; k" := (bind m (fun x => k))
  (at level 100, m at next level, right associativity) : py_scope.
Notation "m ;; k" := (bind m (fun _ => k))
  (at level 100, right associativity) : py_scope.
Open Scope py_scope.

Definition emit {L : Type} (ev : Event) : M L unit :=
  fun s =>
    (Ok tt,
     mkState (globals s) (mkWorld (libst (world s)) (log (world s) ++ [ev]))).

Definition lookup_name {L : Type} (x : string) : M L (option Val) :=
  fun s => (Ok (Py.lookup x (globals s)), s).

Fixpoint update (x : string) (v : Val) (g : list (string * Val)) : list (string * Val) :=
  match g with
  | [] => [(x, v)]
  | (y, w) :: g' => if String.eqb x y then (x, v) :: g' else (y, w) :: update x v g'
  end.

Fixpoint remove (x : string) (g : list (string * Val)) : list (string * Val) :=
  match g with
  | [] => []
  | (y, w) :: g' => if String.eqb x y then g' else (y, w) :: remove x g'
  end.

Definition assign {L : Type} (x : string) (v : Val) : M L unit :=
  fun s => (Ok tt, mkState (update x v (globals s)) (world s)).

(** Put a name back to what it was bound to in [old], if anything. *)
Definition restore {L : Type} (old : list (string * Val)) (x : string) : M L unit :=
  fun s =>
    (Ok tt,
     mkState (match Py.lookup x old with
              | Some v => update x v (globals s)
              | None => remove x (globals s)
              end) (world s)).

Definition get_globals {L : Type} : M L (list (string * Val)) :=
  fun s => (Ok (globals s), s).

Section Effects.

Context {L : Type}.
Variable lib : Library L.

(** One step of the libraries, logged with its outcome. *)
Definition lib_call (c : Callee) (args : list Val) (kwargs : list (string * Val))
  : M L Val :=
  fun s =>
    let '(r, st) := lib (libst (world s)) c args kwargs in
    (r, mkState (globals s) (mkWorld st (log (world s) ++ [EvCall c args kwargs r]))).

Definition is_obj (v : Val) : bool :=
  match v with VObj _ => true | _ => false end.

Definition getattr (v : Val) (a : string) : M L Val :=
  match v with
  | VObj _ => lib_call (GetAttr a) [v] []
  | VRef p => ret (VRef (p ++ "." ++ a))
  | _ => lift (Py.data_attr v a)
  end.

Definition subscript (v i : Val) : M L Val :=
  if is_obj v then lib_call (Method "__getitem__") [v; i] []
  else lift (Py.subscript v i).

Definition dunder (op : Py.BinOp) (reflected : bool) : string :=
  match op, reflected with
  | Py.Add, false => "__add__" | Py.Add, true => "__radd__"
  | Py.Sub, false => "__sub__" | Py.Sub, true => "__rsub__"
  | Py.Mul, false => "__mul__" | Py.Mul, true => "__rmul__"
  | Py.Pow, false => "__pow__" | Py.Pow, true => "__rpow__"
  end.

Definition binop (op : Py.BinOp) (a b : Val) : M L Val :=
  if is_obj a then lib_call (Method (dunder op false)) [a; b] []
  else if is_obj b then lib_call (Method (dunder op true)) [b; a] []
  else lift (Py.binop op a b).

Definition neg (a : Val) : M L Val :=
  if is_obj a then lib_call (Method "__neg__") [a] [] else lift (Py.neg a).

Definition iterate (v : Val) : M L (list Val) :=
  if is_obj v
  then r <- lib_call (Method "__iter__") [v] [] ;; lift (Py.iterate r)
  else lift (Py.iterate v).

Definition len (v : Val) : M L Val :=
  if is_obj v then lib_call (Method "__len__") [v] [] else lift (Py.len v).

(** The text of a value: Python's own for its data, the owner's
    [__str__] otherwise. *)
Definition to_str (v : Val) : M L string :=
  match Py.str v with
  | Some s => ret s
  | None =>
      r <- lib_call (Method "__str__") [v] [] ;;
      match r with
      | VStr s => ret s
      | _ => raise TypeError
      end
  end.

Fixpoint map_m {A B : Type} (f : A -> M L B) (l : list A) : M L (list B) :=
  match l with
  | [] => ret []
  | a :: l' => b <- f a ;; bs <- map_m f l' ;; ret (b :: bs)
  end.

Definition print (args : list Val) : M L Val :=
  strs <- map_m to_str args ;;
  emit (EvPrint (Py.join " " strs)) ;;
  ret VNone.

Definition format (template : string) (args : list Val) : M L Val :=
  strs <- map_m to_str args ;;
  s <- lift (Py.fill template strs) ;;
  ret (VStr s).

(** Binding a target list: one name takes the value, several names
    take its elements. *)
Fixpoint assign_each (xs : list string) (vs : list Val) : M L unit :=
  match xs, vs with
  | [], [] => ret tt
  | x :: xs', v :: vs' => assign x v ;; assign_each xs' vs'
  | _, _ => raise ValueError
  end.

Definition bind_targets (xs : list string) (v : Val) : M L unit :=
  match xs with
  | [x] => assign x v
  | _ =>
      vs <- iterate v ;;
      if (List.length xs =? List.length vs)%nat
      then assign_each xs vs else raise ValueError
  end.

End Effects.

(** ** The notebooks' Python

    The statements and expressions that occur in the code cells, and
    [STry], which does not occur: Python's means of handling an
    exception. *)

Inductive Expr : Type :=
| ENone
| EBool (b : bool)
| EInt (z : Z)
| EFloat (m : Z) (d : nat)              (* the decimal literal m / 10^d *)
| EImag (m : Z) (d : nat)               (* the imaginary literal (m / 10^d)j *)
| EStr (s : string)
| EName (x : string)
| EAttr (e : Expr) (a : string)
| ESubscript (e i : Expr)
| ECall (f : Expr) (args : list Expr) (kwargs : list (string * Expr))
| EBinOp (op : Py.BinOp) (l r : Expr)
| ENeg (e : Expr)
| EList (es : list Expr)
| EDict (items : list (Expr * Expr))
| EListComp (elt : Expr) (targets : list string) (iter : Expr).

Inductive Stmt : Type :=
| SImport (module : string) (asname : option string)
| SFromImport (module : string) (names : list string)
| SAssign (targets : list string) (e : Expr)
| SExpr (e : Expr)
| SFor (targets : list string) (iter : Expr) (body : list Stmt)
| STry (body handler : list Stmt).

Definition Cell : Type := list Stmt.
Definition Notebook : Type := list Cell.

Definition pure_builtins : list string := ["print"; "len"; "range"; "enumerate"].

Definition runtime_builtins : list string :=
  ["open"; "input"; "exec"; "eval"; "compile"; "__import__"].

Definition mem (x : string) (l : list string) : bool :=
  existsb (String.eqb x) l.

Section Interpreter.

Context {L : Type}.
Variable lib : Library L.

Definition call_builtin (f : string) (args : list Val) (kwargs : list (string * Val))
  : M L Val :=
  if mem f runtime_builtins then lib_call lib (Runtime f) args kwargs
  else match kwargs with
       | _ :: _ => raise Unmodelled
       | [] =>
           if String.eqb f "print" then print lib args
           else match args with
                | [v] =>
                    if String.eqb f "len" then len lib v
                    else if String.eqb f "range" then
                           match v with
                           | VInt n => ret (VRange n)
                           | VBool b => ret (VRange (if b then 1 else 0))
                           | _ => raise TypeError
                           end
                    else if String.eqb f "enumerate" then
                           l <- iterate lib v ;; lift (Py.enumerate (VList l))
                    else raise (NameError f)
                | _ => if String.eqb f "range" then raise Unmodelled
                       else raise TypeError
                end
       end.

(** Methods of Python's own strings and lists.  [append] changes the
    list in place; the list is reached through the variable that names
    it, whose binding takes the longer list. *)
Definition call_data_method (r : Val) (m : string) (var : option string)
           (args : list Val) (kwargs : list (string * Val)) : M L Val :=
  match r, kwargs with
  | VStr t, [] =>
      if String.eqb m "format" then format lib t args
      else raise Unmodelled
  | VList l, [] =>
      if String.eqb m "append" then
        match var, args with
        | Some x, [v] => assign x (VList (l ++ [v])) ;; ret VNone
        | Some _, _ => raise TypeError
        | None, _ => raise Unmodelled
        end
      else raise Unmodelled
  | _, _ =>
      match Py.data_attr r m with
      | Ok _ => raise TypeError
      | Raise e => raise e
      end
  end.

(** [r.m(args)]: a method of a library object, a function of an
    imported module, or a method of Python's own data. *)
Definition call_method (r : Val) (m : string) (var : option string)
           (args : list Val) (kwargs : list (string * Val)) : M L Val :=
  match r with
  | VObj h => lib_call lib (Method m) (VObj h :: args) kwargs
  | VRef p => lib_call lib (Fn (p ++ "." ++ m)) args kwargs
  | _ => call_data_method r m var args kwargs
  end.

(** [v(args)] for a value [v]. *)
Definition call_value (v : Val) (args : list Val) (kwargs : list (string * Val))
  : M L Val :=
  match v with
  | VRef p => lib_call lib (Fn p) args kwargs
  | VObj h => lib_call lib (Method "__call__") (VObj h :: args) kwargs
  | _ => raise TypeError
  end.

Definition var_of (e : Expr) : option string :=
  match e with EName x => Some x | _ => None end.

Definition key_of (v : Val) : M L string :=
  match v with
  | VStr k => ret k
  | _ => raise Unmodelled
  end.

(** A dict display inserts its items from left to right. *)
Definition make_dict (kvs : list (string * Val)) : list (string * Val) :=
  fold_left (fun d kv => update (fst kv) (snd kv) d) kvs [].

Fixpoint eval (e : Expr) {struct e} : M L Val :=
  let fix eval_list (es : list Expr) {struct es} : M L (list Val) :=
    match es with
    | [] => ret []
    | e' :: es' => v <- eval e' ;; vs <- eval_list es' ;; ret (v :: vs)
    end in
  let fix eval_kwargs (kws : list (string * Expr)) {struct kws}
    : M L (list (string * Val)) :=
    match kws with
    | [] => ret []
    | (k, e') :: kws' => v <- eval e' ;; vs <- eval_kwargs kws' ;; ret ((k, v) :: vs)
    end in
  let fix eval_items (items : list (Expr * Expr)) {struct items}
    : M L (list (string * Val)) :=
    match items with
    | [] => ret []
    | (ke, ve) :: items' =>
        kv <- eval ke ;; k <- key_of kv ;; v <- eval ve ;;
        d <- eval_items items' ;; ret ((k, v) :: d)
    end in
  match e with
  | ENone => ret VNone
  | EBool b => ret (VBool b)
  | EInt z => ret (VInt z)
  | EFloat m d => ret (VFloat (PyFloat.of_decimal m d))
  | EImag m d => ret (VComplex (S754_zero false) (PyFloat.of_decimal m d))
  | EStr s => ret (VStr s)
  | EName x =>
      o <- lookup_name x ;;
      match o with
      | Some v => ret v
      | None => raise (NameError x)
      end
  | EAttr e' a => v <- eval e' ;; getattr lib v a
  | ESubscript e' i => v <- eval e' ;; iv <- eval i ;; subscript lib v iv
  | ECall f args kwargs =>
      match f with
      | EAttr r m =>
          rv <- eval r ;;
          avs <- eval_list args ;;
          kvs <- eval_kwargs kwargs ;;
          call_method rv m (var_of r) avs kvs
      | EName x =>
          o <- lookup_name x ;;
          match o with
          | Some v =>
              avs <- eval_list args ;;
              kvs <- eval_kwargs kwargs ;;
              call_value v avs kvs
          | None =>
              if mem x pure_builtins || mem x runtime_builtins then
                avs <- eval_list args ;;
                kvs <- eval_kwargs kwargs ;;
                call_builtin x avs kvs
              else raise (NameError x)
          end
      | _ =>
          fv <- eval f ;;
          avs <- eval_list args ;;
          kvs <- eval_kwargs kwargs ;;
          call_value fv avs kvs
      end
  | EBinOp op l r => a <- eval l ;; b <- eval r ;; binop lib op a b
  | ENeg e' => v <- eval e' ;; neg lib v
  | EList es => vs <- eval_list es ;; ret (VList vs)
  | EDict items => kvs <- eval_items items ;; ret (VDict (make_dict kvs))
  | EListComp elt targets iter =>
      it <- eval iter ;;
      vs <- iterate lib it ;;
      old <- get_globals ;;
      rs <- map_m (fun v => bind_targets lib targets v ;; eval elt) vs ;;
      map_m (restore old) targets ;;
      ret (VList rs)
  end.

End Interpreter.

Section Execution.

Context {L : Type}.
Variable lib : Library L.

Definition import_binding (module : string) (asname : option string) : string * Val :=
  match asname with
  | Some n => (n, VRef module)
  | None => (Py.top_package module, VRef (Py.top_package module))
  end.

Fixpoint exec (st : Stmt) {struct st} : M L unit :=
  let fix exec_block (b : list Stmt) {struct b} : M L unit :=
    match b with
    | [] => ret tt
    | s :: b' => exec s ;; exec_block b'
    end in
  match st with
  | SImport module asname =>
      lib_call lib (Import module []) [] [] ;;
      assign (fst (import_binding module asname)) (snd (import_binding module asname))
  | SFromImport module names =>
      lib_call lib (Import module names) [] [] ;;
      map_m (fun n => assign n (VRef (module ++ "." ++ n))) names ;;
      ret tt
  | SAssign targets e => v <- eval lib e ;; bind_targets lib targets v
  | SExpr e => eval lib e ;; ret tt
  | SFor targets iter body =>
      it <- eval lib iter ;;
      vs <- iterate lib it ;;
      map_m (fun v => bind_targets lib targets v ;; exec_block body) vs ;;
      ret tt
  | STry body handler => catch (exec_block body) (exec_block handler)
  end.

Fixpoint exec_block (b : list Stmt) : M L unit :=
  match b with
  | [] => ret tt
  | s :: b' => exec s ;; exec_block b'
  end.

(** A cell runs its statements in order; when the last one is an
    expression, its value is displayed unless it is [None]. *)
Fixpoint exec_cell (c : Cell) : M L unit :=
  match c with
  | [] => ret tt
  | [SExpr e] =>
      v <- eval lib e ;;
      match v with
      | VNone => ret tt
      | _ => emit (EvDisplay v)
      end
  | s :: c' => exec s ;; exec_cell c'
  end.

(** The cells run from the first to the last against one namespace; an
    exception ends the run. *)
Fixpoint run_cells (nb : Notebook) : M L unit :=
  match nb with
  | [] => ret tt
  | c :: nb' => exec_cell c ;; run_cells nb'
  end.

Definition fresh (st : L) : State L := mkState [] (mkWorld st []).

Definition run (nb : Notebook) (st : L) : Result unit * State L :=
  run_cells nb (fresh st).

End Execution.

(** ** The Qiskit Aqua / t|ket> excited-states notebook *)

Module QSE.

Definition cell1 : Cell :=
  [ SImport "qiskit" None;
    SImport "pytket" None ].

Definition cell2 : Cell :=
  [ SAssign ["bond_length"] (EFloat 7 1);
    SAssign ["base_molecule_str"] (EStr "H .0 .0 .0; H .0 .0 {}");
    SAssign ["charge"] (EInt 0);
    SAssign ["spin"] (EInt 0);
    SAssign ["basis"] (EStr "sto3g") ].

Definition cell3 : Cell :=
  [ SAssign ["backend_name"] (EStr "statevector_simulator");
    SAssign ["backend"]
      (ECall (EAttr (EAttr (EName "qiskit") "Aer") "get_backend")
             [EName "backend_name"] []) ].

Definition cell4 : Cell :=
  [ SFromImport "qiskit_aqua" ["QuantumInstance"];
    SFromImport "qiskit.transpiler" ["PassManager"];
    SFromImport "pytket.qiskit" ["TketPass"];
    SAssign ["pass_manager"] (ECall (EName "PassManager") [] []);
    SAssign ["tk_pass"] (ECall (EName "TketPass") [EName "backend"] []);
    SExpr (ECall (EAttr (EName "pass_manager") "append") [EName "tk_pass"] []);
    SAssign ["quantum_instance"]
      (ECall (EName "QuantumInstance") [EName "backend"]
             [("pass_manager", EName "pass_manager")]) ].

Definition pyscf_cfg : Expr :=
  EDict [ (EStr "atom",
           ECall (EAttr (EName "base_molecule_str") "format") [EName "bond_length"] []);
          (EStr "unit", EStr "Angstrom");
          (EStr "charge", EName "charge");
          (EStr "spin", EName "spin");
          (EStr "basis", EName "basis") ].

Definition cell5 : Cell :=
  [ SFromImport "qiskit_aqua_chemistry.drivers" ["ConfigurationManager"];
    SAssign ["cfg_mgr"] (ECall (EName "ConfigurationManager") [] []);
    SAssign ["driver"]
      (ECall (EAttr (EName "cfg_mgr") "get_driver_instance") [EStr "PYSCF"] []);
    SAssign ["pyscf_cfg"] pyscf_cfg;
    SAssign ["molecule"]
      (ECall (EAttr (EName "driver") "run")
             [EDict [(EStr "properties", EName "pyscf_cfg")]] []);
    SExpr (ECall (EName "print")
             [EStr "Molecular repulsion energy: ";
              EAttr (EName "molecule") "nuclear_repulsion_energy"] []) ].

Definition n_electrons : Expr :=
  EBinOp Py.Sub
    (EBinOp Py.Add (EAttr (EName "molecule") "num_alpha")
                   (EAttr (EName "molecule") "num_beta"))
    (EAttr (EName "molecule") "molecular_charge").

Definition cell6 : Cell :=
  [ SFromImport "qiskit_aqua_chemistry" ["FermionicOperator"];
    SFromImport "qiskit_aqua_chemistry.aqua_extensions.components.initial_states"
      ["HartreeFock"];
    SFromImport "qiskit_aqua_chemistry.aqua_extensions.components.variational_forms"
      ["UCCSD"];
    SAssign ["n_qubits"]
      (ESubscript (EAttr (EAttr (EName "molecule") "one_body_integrals") "shape")
                  (EInt 0));
    SAssign ["n_electrons"] n_electrons;
    SAssign ["ferOp"]
      (ECall (EName "FermionicOperator") []
             [("h1", EAttr (EName "molecule") "one_body_integrals");
              ("h2", EAttr (EName "molecule") "two_body_integrals")]);
    SAssign ["qubitOp"]
      (ECall (EAttr (EName "ferOp") "mapping") []
             [("map_type", EStr "JORDAN_WIGNER"); ("threshold", EFloat 1 8)]);
    SExpr (ECall (EAttr (EName "qubitOp") "chop")
             [EBinOp Py.Pow (EInt 10) (ENeg (EInt 10))] []);
    SAssign ["initial_hf"]
      (ECall (EName "HartreeFock") []
             [("num_qubits", EName "n_qubits");
              ("num_orbitals", EName "n_qubits");
              ("qubit_mapping", EStr "jordan_wigner");
              ("two_qubit_reduction", EBool false);
              ("num_particles", EName "n_electrons")]);
    SAssign ["var_form"]
      (ECall (EName "UCCSD") []
             [("num_qubits", EName "n_qubits");
              ("num_orbitals", EName "n_qubits");
              ("num_particles", EName "n_electrons");
              ("depth", EInt 1);
              ("initial_state", EName "initial_hf");
              ("qubit_mapping", EStr "jordan_wigner")]) ].

Definition number_amplitudes : Expr :=
  EBinOp Py.Add
    (ECall (EName "len") [EAttr (EName "var_form") "_single_excitations"] [])
    (ECall (EName "len") [EAttr (EName "var_form") "_double_excitations"] []).

(** [amplitudes_0 = []] and the loop that fills it. *)
Definition amplitudes_0 : list Stmt :=
  [ SAssign ["amplitudes_0"] (EList []);
    SFor ["i"] (ECall (EName "range") [EName "number_amplitudes"] [])
      [ SExpr (ECall (EAttr (EName "amplitudes_0") "append") [EFloat 1 5] []) ] ].

Definition gs_energy : Expr :=
  EBinOp Py.Add (EAttr (EName "eigval") "real")
                (EAttr (EName "molecule") "nuclear_repulsion_energy").

Definition cell7 : Cell :=
  ([ SFromImport "qiskit_aqua.components.optimizers" ["L_BFGS_B"];
    SFromImport "qiskit_aqua.algorithms" ["VQE"];
    SAssign ["number_amplitudes"] number_amplitudes ]
  ++ amplitudes_0 ++
  [ SAssign ["optimizer"] (ECall (EName "L_BFGS_B") [] []);
    SExpr (ECall (EAttr (EName "optimizer") "set_options") []
             [("maxfun", EInt 1000); ("factr", EInt 10); ("iprint", EInt 10)]);
    SAssign ["vqe_algorithm"]
      (ECall (EName "VQE") []
             [("operator", EName "qubitOp");
              ("operator_mode", EStr "matrix");
              ("var_form", EName "var_form");
              ("optimizer", EName "optimizer");
              ("initial_point", EName "amplitudes_0")]);
    SAssign ["results"]
      (ECall (EAttr (EName "vqe_algorithm") "run") [EName "quantum_instance"] []);
    SAssign ["eigval"]
      (ESubscript (ESubscript (EName "results") (EStr "eigvals")) (EInt 0));
    SAssign ["gs_energy"] gs_energy;
    SExpr (ECall (EName "print")
             [ECall (EAttr (EStr "GS Minimum value: {}") "format")
                    [EName "gs_energy"] []] []);
    SExpr (ECall (EName "print")
             [ECall (EAttr (EStr "GS Parameters: {}") "format")
                    [ESubscript (EName "results") (EStr "opt_params")] []] []);
    SAssign ["opti_amplitudes"] (ESubscript (EName "results") (EStr "opt_params")) ])%list.

Definition cell8 : Cell :=
  [ SFromImport "pytket.chemistry" ["QseMatrices"; "QSE"];
    SAssign ["qubitOp"]
      (ECall (EAttr (EName "ferOp") "mapping") []
             [("map_type", EStr "JORDAN_WIGNER"); ("threshold", EFloat 1 8)]);
    SAssign ["n_qubits"] (EAttr (EName "qubitOp") "num_qubits");
    SExpr (ECall (EAttr (EName "qubitOp") "chop")
             [EBinOp Py.Pow (EInt 10) (ENeg (EInt 10))] []);
    SAssign ["matrix_terms"]
      (ECall (EName "QseMatrices") [EName "qubitOp"; EName "n_qubits"] []);
    SAssign ["qse_algorithm"]
      (ECall (EName "QSE")
             [EName "matrix_terms"; EStr "matrix"; EName "var_form"]
             [("opt_init_point", EName "opti_amplitudes")]);
    SAssign ["energies"]
      (ESubscript
         (ECall (EAttr (EName "qse_algorithm") "run") [EName "quantum_instance"] [])
         (EStr "eigvals"));
    SExpr (ECall (EName "print")
             [EStr "Excited State Energies: ";
              EBinOp Py.Add (EName "energies")
                (EAttr (EName "molecule") "nuclear_repulsion_energy")] []) ].

Definition notebook : Notebook :=
  [cell1; cell2; cell3; cell4; cell5; cell6; cell7; cell8].

End QSE.

(** ** The pyQuil retargetability notebook *)

Module PyQuil.

Definition target_state : Expr :=
  ECall (EAttr (EName "np") "array")
    [EList [ EFloat 5 1;
             EBinOp Py.Mul (EImag 1 0) (EFloat 5 1);
             EBinOp Py.Mul (ENeg (EImag 1 0)) (EFloat 5 1);
             EBinOp Py.Mul (EImag 1 0) (EFloat 5 1) ]] [].

Definition cell1 : Cell :=
  [ SFromImport "grove.alpha.arbitrary_state.arbitrary_state" ["create_arbitrary_state"];
    SImport "numpy" (Some "np");
    SAssign ["target_state"] target_state;
    SAssign ["quil_circ"] (ECall (EName "create_arbitrary_state") [EName "target_state"] []);
    SExpr (ECall (EName "print") [EName "quil_circ"] []) ].

Definition cell2 : Cell :=
  [ SFromImport "pytket.pyquil" ["pyquil_to_tk"];
    SAssign ["tk_circ"] (ECall (EName "pyquil_to_tk") [EName "quil_circ"] []) ].

Definition cell3 : Cell :=
  [ SFromImport "pytket._circuit" ["optimise_pre_routing"];
    SExpr (ECall (EName "optimise_pre_routing") [EName "tk_circ"] []);
    SExpr (ECall (EAttr (EName "tk_circ") "apply_boundary_map")
             [EList [EInt 1; EInt 0]] []) ].

Definition cell4 : Cell :=
  [ SFromImport "pytket.qiskit" ["tk_to_dagcircuit"];
    SAssign ["dag_circ"] (ECall (EName "tk_to_dagcircuit") [EName "tk_circ"] []);
    SFromImport "qiskit.converters" ["dag_to_circuit"];
    SAssign ["qis_circ"] (ECall (EName "dag_to_circuit") [EName "dag_circ"] []);
    SFromImport "qiskit" ["BasicAer"; "execute"];
    SAssign ["backend"]
      (ECall (EAttr (EName "BasicAer") "get_backend") [EStr "unitary_simulator"] []);
    SAssign ["job"] (ECall (EName "execute") [EName "qis_circ"; EName "backend"] []);
    SAssign ["matrix"]
      (ECall (EAttr (ECall (EAttr (EName "job") "result") [] []) "get_unitary")
             [EName "qis_circ"] []);
    SExpr (ECall (EName "print") [EName "matrix"] []) ].

Definition notebook : Notebook := [cell1; cell2; cell3; cell4].

End PyQuil.

(** ** The Cirq routing notebook *)

Module Cirq.

Definition cell1 : Cell :=
  [ SImport "cirq" None;
    SFromImport "pytket._routing" ["SquareGrid"; "route"];
    SFromImport "pytket.cirq" ["get_grid_qubits"; "cirq_to_tk"; "tk_to_cirq"] ].

Definition cell2 : Cell :=
  [ SAssign ["arc"] (ECall (EName "SquareGrid") [EInt 3; EInt 3] []);
    SAssign ["qubits"]
      (ECall (EName "get_grid_qubits")
             [EName "arc"; ECall (EName "range") [EInt 9] []] []) ].

Definition gate (g : string) (qs : list Z) : Expr :=
  ECall (EAttr (EName "cirq") g)
        (map (fun q => ESubscript (EName "qubits") (EInt q)) qs) [].

Definition circuit : Expr :=
  ECall (EAttr (EAttr (EName "cirq") "Circuit") "from_ops")
    [ gate "H" [0];
      gate "X" [1];
      gate "CNOT" [0; 4];
      gate "Y" [2];
      gate "CNOT" [2; 4];
      gate "CNOT" [3; 4];
      gate "Y" [3];
      gate "CNOT" [3; 5];
      gate "Z" [4] ] [].

Definition cell3 : Cell :=
  [ SAssign ["circuit"] circuit;
    SExpr (EName "circuit") ].

Definition final_qubits : Expr :=
  EListComp (ESubscript (EName "qubits") (EName "j")) ["i"; "j"]
    (ECall (EName "enumerate") [ESubscript (EName "qmap") (EInt 0)] []).

Definition cell4 : Cell :=
  [ SAssign ["tk_circ"] (ECall (EName "cirq_to_tk") [EName "circuit"] []);
    SAssign ["tk_routed"; "qmap"]
      (ECall (EName "route") [EName "tk_circ"; EName "arc"] []);
    SExpr (ECall (EName "print") [EName "qmap"] []);
    SAssign ["final_qubits"] final_qubits;
    SExpr (ECall (EName "tk_to_cirq") [EName "tk_routed"; EName "final_qubits"] []) ].

Definition cell5 : Cell := [].

Definition notebook : Notebook := [cell1; cell2; cell3; cell4; cell5].

End Cirq.

(** ** A stand-in for the libraries

    A small deterministic library that answers the notebooks' calls with
    values of the right shape for H2 in the STO-3G basis and for the 3x3
    grid.  It creates a fresh object for every constructor and function
    it has no special answer for, and remembers which call created which
    object.  It is used to run the notebooks on a concrete input. *)

Module Demo.

Record St : Type := mkSt {
  next : N;
  made : list (N * string)
}.

Definition init : St := mkSt 0 [].

Definition new (kind : string) (st : St) : Result Val * St :=
  (Ok (VObj (next st)), mkSt (next st + 1) ((next st, kind) :: made st)).

Fixpoint kind_of (h : N) (l : list (N * string)) : string :=
  match l with
  | [] => ""
  | (h', k) :: l' => if N.eqb h h' then k else kind_of h l'
  end.

Definition receiver_kind (st : St) (args : list Val) : string :=
  match args with
  | VObj h :: _ => kind_of h (made st)
  | _ => ""
  end.

Definition f (m : Z) (d : nat) : Val := VFloat (PyFloat.of_decimal m d).

Definition ints (l : list Z) : Val := VList (map VInt l).

Definition square (n : nat) (x : Val) : Val := VArray (repeat (VArray (repeat x n)) n).

Definition vqe_result : Val :=
  VDict [ ("eigvals", VArray [VComplex (PyFloat.of_decimal (-18921568982) 10)
                                       (S754_zero false)]);
          ("opt_params", VArray [f 0 0; f 0 0; f (-1050) 4]) ].

Definition qse_result : Val :=
  VDict [ ("eigvals", VArray [f (-18921) 4; f (-12561) 4; f (-8824) 4]) ].

Definition qmap : Val :=
  VTuple [ ints [8; 3; 4; 6; 5; 7; 2; 1; 0]; ints [8; 3; 5; 7; 4; 6; 2; 1; 0] ].

Fixpoint new_list (kind : string) (n : nat) (st : St) : list Val * St :=
  match n with
  | O => ([], st)
  | S n' =>
      let st' := mkSt (next st + 1) ((next st, kind) :: made st) in
      let '(l, st'') := new_list kind n' st' in
      (VObj (next st) :: l, st'')
  end.

Definition call_fn (path : string) (args : list Val) (st : St) : Result Val * St :=
  if String.eqb path "numpy.array" then
    match args with
    | [VList l] => (Ok (VArray l), st)
    | _ => (Raise TypeError, st)
    end
  else if String.eqb path "pytket._circuit.optimise_pre_routing" then (Ok VNone, st)
  else if String.eqb path "pytket.cirq.get_grid_qubits" then
    match args with
    | [_; VRange n] =>
        let '(l, st') := new_list "GridQubit" (Z.to_nat n) st in (Ok (VList l), st')
    | _ => (Raise TypeError, st)
    end
  else if String.eqb path "pytket._routing.route" then
    match new "Circuit" st with
    | (Ok c, st') => (Ok (VTuple [c; qmap]), st')
    | r => r
    end
  else new path st.

Definition call_method (m : string) (args : list Val) (st : St) : Result Val * St :=
  let k := receiver_kind st args in
  if mem m ["chop"; "append"; "set_options"; "apply_boundary_map"] then (Ok VNone, st)
  else if String.eqb m "__str__" then (Ok (VStr ("<" ++ k ++ ">")), st)
  else if String.eqb m "run" then
    if String.eqb k "qiskit_aqua.algorithms.VQE" then (Ok vqe_result, st)
    else if String.eqb k "pytket.chemistry.QSE" then (Ok qse_result, st)
    else new "molecule" st
  else if String.eqb m "get_unitary" then (Ok (square 4 (VComplex (PyFloat.of_decimal 5 1) (S754_zero false))), st)
  else new (k ++ "." ++ m) st.

Definition get_attr (a : string) (args : list Val) (st : St) : Result Val * St :=
  if String.eqb a "nuclear_repulsion_energy" then (Ok (f 7559674441714287 16), st)
  else if mem a ["num_alpha"; "num_beta"] then (Ok (VInt 1), st)
  else if String.eqb a "molecular_charge" then (Ok (VInt 0), st)
  else if String.eqb a "one_body_integrals" then (Ok (square 4 (f 0 0)), st)
  else if String.eqb a "two_body_integrals" then (Ok (square 4 (square 4 (f 0 0))), st)
  else if String.eqb a "_single_excitations" then (Ok (VList [ints [0; 1]; ints [2; 3]]), st)
  else if String.eqb a "_double_excitations" then (Ok (VList [ints [0; 1; 2; 3]]), st)
  else if String.eqb a "num_qubits" then (Ok (VInt 4), st)
  else (Raise (AttributeError a), st).

Definition lib : Library St :=
  fun st c args kwargs =>
    match c with
    | Import _ _ => (Ok VNone, st)
    | Fn path => call_fn path args st
    | Method m => call_method m args st
    | GetAttr a => get_attr a args st
    | Runtime _ => (Raise Unmodelled, st)
    end.

End Demo.

(** ** What the code of a notebook contains

    Facts about a notebook that can be read off its text: the names it
    rebinds, the effectful builtins it calls, whether it handles
    exceptions. *)

Module Syntax.

(** The names an expression may rebind while it is evaluated: the
    variable a list is appended to, and the variables of a
    comprehension. *)
Fixpoint writes (e : Expr) : list string :=
  match e with
  | EAttr e' _ | ENeg e' => writes e'
  | ESubscript a b | EBinOp _ a b => writes a ++ writes b
  | ECall f args kwargs =>
      match f with
      | EAttr (EName x) m => if String.eqb m "append" then [x] else []
      | _ => []
      end ++ writes f ++ flat_map writes args
        ++ flat_map (fun kv => writes (snd kv)) kwargs
  | EList es => flat_map writes es
  | EDict items => flat_map (fun kv => writes (fst kv) ++ writes (snd kv)) items
  | EListComp elt targets iter => targets ++ writes elt ++ writes iter
  | _ => []
  end%list.

(** The builtins an expression calls by name. *)
Fixpoint called (e : Expr) : list string :=
  match e with
  | EAttr e' _ | ENeg e' => called e'
  | ESubscript a b | EBinOp _ a b => called a ++ called b
  | ECall f args kwargs =>
      match f with
      | EName x => [x]
      | _ => called f
      end ++ flat_map called args ++ flat_map (fun kv => called (snd kv)) kwargs
  | EList es => flat_map called es
  | EDict items => flat_map (fun kv => called (fst kv) ++ called (snd kv)) items
  | EListComp elt _ iter => called elt ++ called iter
  | _ => []
  end%list.

Definition import_names (module : string) (asname : option string) : list string :=
  [fst (import_binding module asname)].

Fixpoint assigned (st : Stmt) : list string :=
  match st with
  | SImport module asname => import_names module asname
  | SFromImport _ names => names
  | SAssign targets e => targets ++ writes e
  | SExpr e => writes e
  | SFor targets iter body => targets ++ writes iter ++ flat_map assigned body
  | STry body handler => flat_map assigned body ++ flat_map assigned handler
  end%list.

Fixpoint calls (st : Stmt) : list string :=
  match st with
  | SImport _ _ | SFromImport _ _ => []
  | SAssign _ e | SExpr e => called e
  | SFor _ iter body => called iter ++ flat_map calls body
  | STry body handler => flat_map calls body ++ flat_map calls handler
  end%list.

(** No [try] statement anywhere. *)
Fixpoint handler_free (st : Stmt) : bool :=
  match st with
  | SFor _ _ body => forallb handler_free body
  | STry _ _ => false
  | _ => true
  end.

(** The modules a statement imports. *)
Fixpoint imports (st : Stmt) : list string :=
  match st with
  | SImport module _ | SFromImport module _ => [module]
  | SFor _ _ body => flat_map imports body
  | STry body handler => flat_map imports body ++ flat_map imports handler
  | _ => []
  end%list.

Definition statements (nb : Notebook) : list Stmt := List.concat nb.

(** A statement stays within what a side condition allows: it rebinds
    only names that satisfy [allowed], calls the runtime's effectful
    builtins only if [rt], handles exceptions only if [handlers]. *)
Definition expr_within (allowed : string -> bool) (rt : bool) (e : Expr) : bool :=
  forallb allowed (writes e)
  && (rt || negb (existsb (fun x => mem x runtime_builtins) (called e))).

Definition within (allowed : string -> bool) (rt handlers : bool) (st : Stmt) : bool :=
  forallb allowed (assigned st)
  && (rt || negb (existsb (fun x => mem x runtime_builtins) (calls st)))
  && (handlers || handler_free st).

End Syntax.

(** ** Argument lists, and properties that every run inherits *)

Section Lists.

Context {L : Type}.
Variable lib : Library L.

Fixpoint eval_list (es : list Expr) : M L (list Val) :=
  match es with
  | [] => ret []
  | e :: es' => v <- eval lib e ;; vs <- eval_list es' ;; ret (v :: vs)
  end.

Fixpoint eval_kwargs (kws : list (string * Expr)) : M L (list (string * Val)) :=
  match kws with
  | [] => ret []
  | (k, e) :: kws' => v <- eval lib e ;; vs <- eval_kwargs kws' ;; ret ((k, v) :: vs)
  end.

Fixpoint eval_items (items : list (Expr * Expr)) : M L (list (string * Val)) :=
  match items with
  | [] => ret []
  | (ke, ve) :: items' =>
      kv <- eval lib ke ;; k <- key_of kv ;; v <- eval lib ve ;;
      d <- eval_items items' ;; ret ((k, v) :: d)
  end.

Definition is_runtime (c : Callee) : bool :=
  match c with Runtime _ => true | _ => false end.

Definition is_output (ev : Event) : bool :=
  match ev with EvCall _ _ _ _ => false | _ => true end.

(** A property [P] of computations that is kept by everything the
    interpreter is built from, under side conditions: rebinding is
    limited to the names in [allowed], the runtime's effectful
    builtins are available only if [rt], and [catch] only if
    [handlers]. *)
Record Closed (allowed : string -> bool) (rt handlers : bool)
       (P : forall A : Type, M L A -> Prop) : Prop := {
  closed_ret : forall (A : Type) (a : A), P A (ret a);
  closed_raise : forall (A : Type) (e : Exn), P A (raise e);
  closed_bind : forall (A B : Type) (m : M L A) (k : A -> M L B),
      P A m -> (forall a, P B (k a)) -> P B (bind m k);
  closed_call : forall c args kwargs,
      (is_runtime c = true -> rt = true) -> P Val (lib_call lib c args kwargs);
  closed_emit : forall ev, is_output ev = true -> P unit (emit ev);
  closed_lookup : forall x, P (option Val) (lookup_name x);
  closed_globals : P (list (string * Val)) get_globals;
  closed_assign : forall x v, allowed x = true -> P unit (assign x v);
  closed_restore : forall old x, allowed x = true -> P unit (restore old x);
  closed_catch : handlers = true ->
      forall (A : Type) (m h : M L A), P A m -> P A h -> P A (catch m h)
}.

End Lists.

(** ** Reading a log *)

(** The exception a logged call ended with, if it did. *)
Definition failed (ev : Event) : option Exn :=
  match ev with
  | EvCall _ _ _ (Raise e) => Some e
  | _ => None
  end.

Definition clean (evs : list Event) : Prop :=
  Forall (fun ev => failed ev = None) evs.

(** The events of a computation that produced [r] are well ended when no
    call in them failed, or the last one did and [r] is its exception. *)
Definition well_ended {A : Type} (evs : list Event) (r : Result A) : Prop :=
  clean evs
  \/ exists pre ev e,
      evs = (pre ++ [ev])%list /\ clean pre /\ failed ev = Some e /\ r = Raise e.

Definition propagates {L : Type} (A : Type) (m : M L A) : Prop :=
  forall s, exists evs,
    log (world (snd (m s))) = (log (world s) ++ evs)%list
    /\ well_ended evs (fst (m s)).

(** What a notebook may do to the world: call into a library, print,
    display. *)
Definition library_or_output (ev : Event) : bool :=
  match ev with
  | EvCall (Runtime _) _ _ _ => false
  | _ => true
  end.

(** A computation only adds events to the log, each a library call or
    an output. *)
Definition confined {L : Type} (A : Type) (m : M L A) : Prop :=
  forall s, exists evs,
    log (world (snd (m s))) = (log (world s) ++ evs)%list
    /\ forallb library_or_output evs = true.

Definition notebooks : list Notebook :=
  [QSE.notebook; PyQuil.notebook; Cirq.notebook].

(** The modules a notebook imports, in the order of its text. *)
Definition imported (nb : Notebook) : list string :=
  flat_map Syntax.imports (Syntax.statements nb).

(** A library that fails: it behaves as [Demo.lib], except that the
    classical chemistry driver's [run] raises. *)
Definition failing_driver : Library Demo.St :=
  fun st c args kwargs =>
    match c with
    | Method "run" => (Raise (LibError 1), st)
    | _ => Demo.lib st c args kwargs
    end.

(** ** States of the stand-in run *)

(** The Cirq notebook, run on the stand-in library up to the statement
    that builds [final_qubits]. *)
Definition cirq_before_final_qubits : State Demo.St :=
  snd (exec_block Demo.lib (firstn 3 Cirq.cell4)
         (snd (run Demo.lib (firstn 3 Cirq.notebook) Demo.init))).

(** The QSE notebook, run on the stand-in library up to the end of its
    sixth cell: the molecule, the operators and the variational form
    exist. *)
Definition qse_before_cell7 : State Demo.St :=
  snd (run Demo.lib (firstn 6 QSE.notebook) Demo.init).

(** One turn of the loop that fills [amplitudes_0]. *)
Definition append_body {L : Type} (lib : Library L) : Val -> M L unit :=
  fun v =>
    bind_targets lib ["i"] v ;;
    exec_block lib
      [SExpr (ECall (EAttr (EName "amplitudes_0") "append") [EFloat 1 5] [])].

(** The three statements of the seventh cell that report the ground
    state: [eigval = results['eigvals'][0]], [gs_energy = ...] and the
    [print] of it. *)
Definition ground_state_report : list Stmt := firstn 3 (skipn 9 QSE.cell7).

(** The two statements of the eighth cell that report the excited
    states: [energies = qse_algorithm.run(quantum_instance)['eigvals']]
    and the [print] of the shifted energies. *)
Definition excited_states_report : list Stmt := skipn 6 QSE.cell8.

(** What [print] writes once numpy has rendered the array. *)
Definition excited_states_line (r : Result Val) : list Event :=
  match r with
  | Ok (VStr t) => [EvPrint ("Excited State Energies: " ++ " " ++ t)]
  | _ => []
  end.

(** The QSE notebook on the stand-in library, just before each report. *)
Definition qse_before_ground_state_report : State Demo.St :=
  snd (exec_block Demo.lib (firstn 9 QSE.cell7) qse_before_cell7).

Definition qse_before_excited_states_report : State Demo.St :=
  snd (exec_block Demo.lib (firstn 6 QSE.cell8)
         (snd (run Demo.lib (firstn 7 QSE.notebook) Demo.init))).

(** The configuration of the classical chemistry driver, as the
    specification words it: H2 at bond length 0.7 Angstrom, neutral,
    singlet, in the STO-3G basis. *)
Definition h2_config : Val :=
  VDict [ ("atom", VStr "H .0 .0 .0; H .0 .0 0.7");
          ("unit", VStr "Angstrom");
          ("charge", VInt 0);
          ("spin", VInt 0);
          ("basis", VStr "sto3g") ].

(** [molecule = driver.run({'properties': pyscf_cfg})], the fifth
    statement of the fifth cell. *)
Definition driver_run : Stmt := nth 4 QSE.cell5 (SExpr ENone).

(** ** Names: defined before they are used

    A static check of a notebook read from top to bottom: every name an
    expression reads is bound by an earlier import, assignment or loop
    target, or is one of the builtins. *)

Module Names.

(** [expr_ok D e]: every name [e] reads is in [D] (a called name may
also be a builtin); the variables of a comprehension count inside it. *)
Fixpoint expr_ok (D : list string) (e : Expr) : bool :=
  match e with
  | EName x => mem x D
  | EAttr e' _ | ENeg e' => expr_ok D e'
  | ESubscript a b | EBinOp _ a b => expr_ok D a && expr_ok D b
  | ECall f args kwargs =>
      match f with
      | EName x => mem x D || (mem x pure_builtins || mem x runtime_builtins)
      | _ => expr_ok D f
      end
      && forallb (expr_ok D) args
      && forallb (fun kv => expr_ok D (snd kv)) kwargs
  | EList es => forallb (expr_ok D) es
  | EDict items => forallb (fun kv => expr_ok D (fst kv) && expr_ok D (snd kv)) items
  | EListComp elt targets iter => expr_ok D iter && expr_ok (targets ++ D)%list elt
  | _ => true
  end.

(** The names a statement has bound once it has run to its end. *)
Definition defines (st : Stmt) : list string :=
  match st with
  | SImport module asname => [fst (import_binding module asname)]
  | SFromImport _ names => names
  | SAssign targets _ => targets
  | _ => []
  end.

Fixpoint stmt_ok (D : list string) (st : Stmt) {struct st} : bool :=
  let fix block (D : list string) (b : list Stmt) {struct b} : bool :=
    match b with
    | [] => true
    | st' :: b' => stmt_ok D st' && block (defines st' ++ D)%list b'
    end in
  match st with
  | SImport _ _ | SFromImport _ _ => true
  | SAssign _ e | SExpr e => expr_ok D e
  | SFor targets iter body => expr_ok D iter && block (targets ++ D)%list body
  | STry body handler => block D body && block D handler
  end.

Fixpoint block_ok (D : list string) (b : list Stmt) : bool :=
  match b with
  | [] => true
  | st :: b' => stmt_ok D st && block_ok (defines st ++ D)%list b'
  end.

Fixpoint block_defines (D : list string) (b : list Stmt) : list string :=
  match b with
  | [] => D
  | st :: b' => block_defines (defines st ++ D)%list b'
  end.

(** The cells of a notebook, checked in order. *)
Fixpoint notebook_ok (D : list string) (nb : Notebook) : bool :=
  match nb with
  | [] => true
  | c :: nb' => block_ok D c && notebook_ok (block_defines D c) nb'
  end.

End Names.

(** The names of [D] are bound in the state. *)
Definition covers {L : Type} (D : list string) (s : State L) : Prop :=
  forall x, mem x D = true -> Py.lookup x (globals s) <> None.

(** The log ends with a library call that raised [e]. *)
Definition raised_by_library (e : Exn) (evs : list Event) : Prop :=
  exists pre c args kwargs, evs = (pre ++ [EvCall c args kwargs (Raise e)])%list.

(** Every name bound in [s] is bound in [s']. *)
Definition keeps {L : Type} (s s' : State L) : Prop :=
  forall y, Py.lookup y (globals s) <> None -> Py.lookup y (globals s') <> None.

(** A step is name-safe from the states that bind [D]: if it ends in a
    [NameError], a library raised it; every name bound before is bound
    after; and when it returns, the names of [D'] are bound. *)
Definition name_safe {L : Type} (D D' : list string) (A : Type) (m : M L A) : Prop :=
  forall s, covers D s ->
    (forall x, fst (m s) = Raise (NameError x) ->
               raised_by_library (NameError x) (log (world (snd (m s)))))
    /\ keeps s (snd (m s))
    /\ (forall a, fst (m s) = Ok a -> covers D' (snd (m s))).

(** A pure result that is not a [NameError]. *)
Definition quiet {A : Type} (r : Result A) : Prop :=
  forall x, r <> Raise (NameError x).

(** A library that reports an unbound name of its own: it behaves as
    [Demo.lib], except that the classical chemistry driver's [run]
    raises a [NameError]. *)
Definition unbound_in_driver : Library Demo.St :=
  fun st c args kwargs =>
    match c with
    | Method "run" => (Raise (NameError "gto"), st)
    | _ => Demo.lib st c args kwargs
    end.

(** What the check promises of an expression, a statement, a block. *)
Definition eval_safe {L : Type} (lib : Library L) (e : Expr) : Prop :=
  forall D, Names.expr_ok D e = true -> name_safe D D Val (eval lib e).

Definition exec_safe {L : Type} (lib : Library L) (st : Stmt) : Prop :=
  forall D, Names.stmt_ok D st = true ->
            name_safe D (Names.defines st ++ D)%list unit (exec lib st).

(** ** Names a run leaves alone *)

(** The step leaves the bindings of the names in [X] as they were. *)
Definition preserves {L : Type} (X : list string) (A : Type) (m : M L A) : Prop :=
  forall s x, mem x X = true ->
              Py.lookup x (globals (snd (m s))) = Py.lookup x (globals s).

Definition outside (X : list string) (y : string) : bool := negb (mem y X).

(** The experiment's configuration, as the second cell of the QSE
    notebook binds it. *)
Definition qse_configuration : list (string * Val) :=
  [ ("bond_length", VFloat (PyFloat.of_decimal 7 1));
    ("base_molecule_str", VStr "H .0 .0 .0; H .0 .0 {}");
    ("charge", VInt 0);
    ("spin", VInt 0);
    ("basis", VStr "sto3g") ].

(** ** More states of the stand-in run *)

(** The QSE notebook on the stand-in library, up to the end of its
    second, fourth, fifth and seventh cell. *)
Definition qse_before_cell3 : State Demo.St :=
  snd (run Demo.lib (firstn 2 QSE.notebook) Demo.init).

Definition qse_before_cell5 : State Demo.St :=
  snd (run Demo.lib (firstn 4 QSE.notebook) Demo.init).

Definition qse_before_cell6 : State Demo.St :=
  snd (run Demo.lib (firstn 5 QSE.notebook) Demo.init).

Definition qse_before_cell8 : State Demo.St :=
  snd (run Demo.lib (firstn 7 QSE.notebook) Demo.init).

(** The Cirq notebook on the stand-in library, up to the end of its
    second and third cell. *)
Definition cirq_before_cell3 : State Demo.St :=
  snd (run Demo.lib (firstn 2 Cirq.notebook) Demo.init).

Definition cirq_before_cell4 : State Demo.St :=
  snd (run Demo.lib (firstn 3 Cirq.notebook) Demo.init).

(** Every value the library returns from [c] is one of its own
    objects. *)
Definition returns_objects {L : Type} (lib : Library L) (c : Callee) : Prop :=
  forall st args kwargs v, fst (lib st c args kwargs) = Ok v -> is_obj v = true.

(** The last statement of the fifth cell of the QSE notebook: the
    [print] of the nuclear repulsion energy. *)
Definition repulsion_report : Cell := skipn 5 QSE.cell5.

Definition qse_before_repulsion_report : State Demo.St :=
  snd (exec_block Demo.lib (firstn 5 QSE.cell5) qse_before_cell5).

(** What the front end shows for the value of a cell's last
    expression. *)
Definition displayed (v : Val) : list Event :=
  match v with
  | VNone => []
  | _ => [EvDisplay v]
  end.

(** The amplitudes [0.5, 0.5j, -0.5j, 0.5j]. *)
Definition target_amplitudes : Val :=
  VList [ VFloat (PyFloat.of_decimal 5 1);
          VComplex (S754_zero false) (PyFloat.of_decimal 5 1);
          VComplex (S754_zero false) (PyFloat.opp (PyFloat.of_decimal 5 1));
          VComplex (S754_zero false) (PyFloat.of_decimal 5 1) ].

(** A call of the library function [path]. *)
Definition is_call_to (path : string) (ev : Event) : bool :=
  match ev with
  | EvCall (Fn p) _ _ _ => String.eqb p path
  | _ => false
  end.

(** An event that is not a failed call. *)
Definition succeeded (ev : Event) : bool :=
  match failed ev with
  | None => true
  | Some _ => false
  end.

(** A grid with too few qubits for the sample circuit: the stand-in
    state before the third cell of the Cirq notebook, with [qubits]
    cut down to its first four elements. *)
Definition cirq_with_four_qubits : State Demo.St :=
  mkState (update "qubits" (VList (map VObj [1; 2; 3; 4]%N)) (globals cirq_before_cell3))
          (world cirq_before_cell3).

(** The routing maps as [route] returns them: two lists of integers. *)
Definition routing_maps (m m' : list Z) : Val :=
  VTuple [VList (map VInt m); VList (map VInt m')].

(** Whenever [route] returns, it returns a circuit and two maps [m]
    and [m']. *)
Definition routes_to {L : Type} (lib : Library L) (m m' : list Z) : Prop :=
  forall st args kwargs v,
    fst (lib st (Fn "pytket._routing.route") args kwargs) = Ok v ->
    exists routed, v = VTuple [routed; routing_maps m m'].

(** The text of a list of integers, and of the two routing maps. *)
Definition ints_text (m : list Z) : string :=
  "[" ++ Py.join ", " (map PyRepr.Z_to_string m) ++ "]".

Definition routing_maps_text (m m' : list Z) : string :=
  "(" ++ Py.join ", " [ints_text m; ints_text m'] ++ ")".

(** A [route] that returns the routed circuit alone: the stand-in
    library otherwise. *)
Definition route_without_maps : Library Demo.St :=
  fun st c args kwargs =>
    match c with
    | Fn "pytket._routing.route" => (Ok (VTuple [VNone]), st)
    | _ => Demo.lib st c args kwargs
    end.

(** What [results['eigvals'][0]] raises when the eigenvalues are
    missing or empty. *)
Definition eigvals_error (o : option Val) : option Exn :=
  match o with
  | None => Some (KeyError "eigvals")
  | Some (VList []) | Some (VTuple []) | Some (VArray []) => Some IndexError
  | _ => None
  end.

(** The stand-in state before the ground state is reported, with the
    eigenvalues taken out of [results]. *)
Definition qse_without_eigvals : State Demo.St :=
  mkState (update "results" (VDict [("opt_params", VArray [])])
             (globals qse_before_ground_state_report))
          (world qse_before_ground_state_report).

(** The last two statements of the seventh cell of the QSE notebook:
    the [print] of the optimal parameters and
    [opti_amplitudes = results['opt_params']]. *)
Definition parameters_report : list Stmt := skipn 12 QSE.cell7.

Definition qse_before_parameters_report : State Demo.St :=
  snd (exec_block Demo.lib (firstn 12 QSE.cell7) qse_before_cell7).

(** What rendering [v] as the text [t] asks of the library: nothing
    when [v] is Python's own data with a text of its own, its
    [__str__] otherwise. *)
Definition text_events (v : Val) (t : string) : list Event :=
  match Py.str v with
  | Some _ => []
  | None => [EvCall (Method "__str__") [v] [] (Ok (VStr t))]
  end.

(** Whenever [get_grid_qubits] returns for [range(n)], it returns a
    list of [n] qubits. *)
Definition returns_qubits {L : Type} (lib : Library L) (n : nat) : Prop :=
  forall st arc kwargs v,
    fst (lib st (Fn "pytket.cirq.get_grid_qubits") [arc; VRange (Z.of_nat n)] kwargs)
    = Ok v ->
    exists qs, v = VList qs /\ List.length qs = n.

(** ** The libraries a notebook calls into

    What a notebook does to the world outside the libraries it could
    only do through the runtime's effectful builtins or through a
    module of Python's own (os, io, pathlib, subprocess, threading,
    socket, sys and the like).  The three notebooks import seven
    packages, none of them one of these. *)

Definition packages : list string :=
  ["qiskit"; "pytket"; "qiskit_aqua"; "qiskit_aqua_chemistry"; "grove"; "numpy";
   "cirq"].

(** The dotted name [p] lies in one of the seven packages. *)
Definition in_packages (p : string) : bool := mem (Py.top_package p) packages.

(** Every reference to a module, or to a name in a module, that occurs
    in [v] lies in one of the seven packages. *)
Fixpoint within_packages (v : Val) : bool :=
  match v with
  | VRef p => in_packages p
  | VList l | VTuple l | VArray l => forallb within_packages l
  | VDict d => forallb (fun kv => within_packages (snd kv)) d
  | _ => true
  end.

(** A step into the seven packages: an import of one of them, a call
    of a function or class of one of them, a method call or an
    attribute read.  The runtime's effectful builtins are not. *)
Definition package_call (c : Callee) : bool :=
  match c with
  | Import m _ => in_packages m
  | Fn p => in_packages p
  | Method _ | GetAttr _ => true
  | Runtime _ => false
  end.

Definition package_event (ev : Event) : bool :=
  match ev with
  | EvCall c _ _ _ => package_call c
  | _ => true
  end.

Definition fine (v : Val) : Prop := within_packages v = true.

(** The libraries hand out data and objects of their own and what
    they were given, and no reference to a module outside the seven
    packages: called with arguments that hold no such reference, they
    return none. *)
Definition answers_within_packages {L : Type} (lib : Library L) : Prop :=
  forall st c args kwargs v,
    Forall fine args -> Forall (fun kv => fine (snd kv)) kwargs ->
    fst (lib st c args kwargs) = Ok v -> fine v.

(** The namespace holds no reference outside the seven packages, and
    every event so far is a step into them or an output. *)
Definition tidy_state {L : Type} (s : State L) : Prop :=
  Forall (fun kv => fine (snd kv)) (globals s)
  /\ forallb package_event (log (world s)) = true.

(** A step keeps a tidy state tidy, and what it returns satisfies [R]. *)
Definition tidy {L : Type} (A : Type) (R : A -> Prop) (m : M L A) : Prop :=
  forall s, tidy_state s ->
    tidy_state (snd (m s)) /\ (forall a, fst (m s) = Ok a -> R a).

(** The names an expression or a statement calls are none of the
    runtime's effectful builtins, and what a statement imports lies in
    the seven packages. *)
Definition calls_no_runtime (e : Expr) : Prop :=
  forall x, In x (Syntax.called e) -> mem x runtime_builtins = false.

Definition stays_in_packages (st : Stmt) : Prop :=
  (forall m, In m (Syntax.imports st) -> in_packages m = true)
  /\ (forall x, In x (Syntax.calls st) -> mem x runtime_builtins = false).

(** The same, decided on the text of a notebook. *)
Definition notebook_in_packages (nb : Notebook) : bool :=
  forallb in_packages (imported nb)
  && forallb (fun x => negb (mem x runtime_builtins))
             (flat_map Syntax.calls (Syntax.statements nb)).

(** What the induction over the syntax proves of an expression and of
    a statement. *)
Definition eval_tidy {L : Type} (lib : Library L) (e : Expr) : Prop :=
  calls_no_runtime e -> tidy Val fine (eval lib e).

Definition exec_tidy {L : Type} (lib : Library L) (st : Stmt) : Prop :=
  stays_in_packages st -> tidy unit (fun _ => True) (exec lib st).

(** * Properties *)

Lemma PyFloat_eqb_eq (x y : PyFloat.t) : PyFloat.eqb x y = true <-> x = y.
Proof.
  destruct x, y; simpl; split; intro H; try discriminate; try reflexivity.
  - apply Bool.eqb_prop in H. now subst.
  - injection H as ->. apply Bool.eqb_reflx.
  - apply Bool.eqb_prop in H. now subst.
  - injection H as ->. apply Bool.eqb_reflx.
  - apply andb_prop in H as [H He]. apply andb_prop in H as [Hs Hm].
    apply Bool.eqb_prop in Hs. apply Pos.eqb_eq in Hm. apply Z.eqb_eq in He.
    now subst.
  - injection H as -> -> ->.
    now rewrite Bool.eqb_reflx, Pos.eqb_refl, Z.eqb_refl.
Qed.

(** ** Induction over expressions and statements *)

Section ExprInduction.

Variable P : Expr -> Prop.

Hypothesis HNone : P ENone.
Hypothesis HBool : forall b, P (EBool b).
Hypothesis HInt : forall z, P (EInt z).
Hypothesis HFloat : forall m d, P (EFloat m d).
Hypothesis HImag : forall m d, P (EImag m d).
Hypothesis HStr : forall s, P (EStr s).
Hypothesis HName : forall x, P (EName x).
Hypothesis HAttr : forall e a, P e -> P (EAttr e a).
Hypothesis HSubscript : forall e i, P e -> P i -> P (ESubscript e i).
Hypothesis HCall : forall f args kwargs,
    P f -> Forall P args -> Forall (fun kv => P (snd kv)) kwargs ->
    P (ECall f args kwargs).
Hypothesis HBinOp : forall op l r, P l -> P r -> P (EBinOp op l r).
Hypothesis HNeg : forall e, P e -> P (ENeg e).
Hypothesis HList : forall es, Forall P es -> P (EList es).
Hypothesis HDict : forall items,
    Forall (fun kv => P (fst kv) /\ P (snd kv)) items -> P (EDict items).
Hypothesis HListComp : forall elt targets iter,
    P elt -> P iter -> P (EListComp elt targets iter).

Fixpoint Expr_nested_ind (e : Expr) : P e :=
  match e with
  | ENone => HNone
  | EBool b => HBool b
  | EInt z => HInt z
  | EFloat m d => HFloat m d
  | EImag m d => HImag m d
  | EStr s => HStr s
  | EName x => HName x
  | EAttr e' a => HAttr e' a (Expr_nested_ind e')
  | ESubscript e' i => HSubscript e' i (Expr_nested_ind e') (Expr_nested_ind i)
  | ECall f args kwargs =>
      HCall f args kwargs (Expr_nested_ind f)
        ((fix go (l : list Expr) : Forall P l :=
            match l with
            | [] => Forall_nil _
            | x :: l' => Forall_cons _ (Expr_nested_ind x) (go l')
            end) args)
        ((fix go (l : list (string * Expr)) : Forall (fun kv => P (snd kv)) l :=
            match l with
            | [] => Forall_nil _
            | kv :: l' =>
                Forall_cons (P := fun kv => P (snd kv)) kv
                  (Expr_nested_ind (snd kv)) (go l')
            end) kwargs)
  | EBinOp op l r => HBinOp op l r (Expr_nested_ind l) (Expr_nested_ind r)
  | ENeg e' => HNeg e' (Expr_nested_ind e')
  | EList es =>
      HList es
        ((fix go (l : list Expr) : Forall P l :=
            match l with
            | [] => Forall_nil _
            | x :: l' => Forall_cons _ (Expr_nested_ind x) (go l')
            end) es)
  | EDict items =>
      HDict items
        ((fix go (l : list (Expr * Expr))
           : Forall (fun kv => P (fst kv) /\ P (snd kv)) l :=
            match l with
            | [] => Forall_nil _
            | kv :: l' =>
                Forall_cons (P := fun kv => P (fst kv) /\ P (snd kv)) kv
                  (conj (Expr_nested_ind (fst kv)) (Expr_nested_ind (snd kv)))
                  (go l')
            end) items)
  | EListComp elt targets iter =>
      HListComp elt targets iter (Expr_nested_ind elt) (Expr_nested_ind iter)
  end.

End ExprInduction.

Section StmtInduction.

Variable P : Stmt -> Prop.

Hypothesis HImport : forall m a, P (SImport m a).
Hypothesis HFromImport : forall m ns, P (SFromImport m ns).
Hypothesis HAssign : forall ts e, P (SAssign ts e).
Hypothesis HExpr : forall e, P (SExpr e).
Hypothesis HFor : forall ts iter body, Forall P body -> P (SFor ts iter body).
Hypothesis HTry : forall body handler,
    Forall P body -> Forall P handler -> P (STry body handler).

Fixpoint Stmt_nested_ind (st : Stmt) : P st :=
  let go := fix go (l : list Stmt) : Forall P l :=
              match l with
              | [] => Forall_nil _
              | x :: l' => Forall_cons _ (Stmt_nested_ind x) (go l')
              end in
  match st with
  | SImport m a => HImport m a
  | SFromImport m ns => HFromImport m ns
  | SAssign ts e => HAssign ts e
  | SExpr e => HExpr e
  | SFor ts iter body => HFor ts iter body (go body)
  | STry body handler => HTry body handler (go body) (go handler)
  end.

End StmtInduction.

(** ** The interpreter's equations *)

Section Equations.

Context {L : Type}.
Variable lib : Library L.

Lemma eval_call (f : Expr) args kwargs :
  eval lib (ECall f args kwargs) =
  match f with
  | EAttr r m =>
      rv <- eval lib r ;;
      avs <- eval_list lib args ;;
      kvs <- eval_kwargs lib kwargs ;;
      call_method lib rv m (var_of r) avs kvs
  | EName x =>
      o <- lookup_name x ;;
      match o with
      | Some v =>
          avs <- eval_list lib args ;;
          kvs <- eval_kwargs lib kwargs ;;
          call_value lib v avs kvs
      | None =>
          if mem x pure_builtins || mem x runtime_builtins then
            avs <- eval_list lib args ;;
            kvs <- eval_kwargs lib kwargs ;;
            call_builtin lib x avs kvs
          else raise (NameError x)
      end
  | _ =>
      fv <- eval lib f ;;
      avs <- eval_list lib args ;;
      kvs <- eval_kwargs lib kwargs ;;
      call_value lib fv avs kvs
  end.
Proof. destruct f; reflexivity. Qed.

Lemma eval_list_display es :
  eval lib (EList es) = (vs <- eval_list lib es ;; ret (VList vs)).
Proof. reflexivity. Qed.

Lemma eval_dict items :
  eval lib (EDict items) = (kvs <- eval_items lib items ;; ret (VDict (make_dict kvs))).
Proof. reflexivity. Qed.

Lemma exec_for targets iter body :
  exec lib (SFor targets iter body) =
  (it <- eval lib iter ;;
   vs <- iterate lib it ;;
   map_m (fun v => bind_targets lib targets v ;; exec_block lib body) vs ;;
   ret tt).
Proof. reflexivity. Qed.

Lemma exec_try body handler :
  exec lib (STry body handler) = catch (exec_block lib body) (exec_block lib handler).
Proof. reflexivity. Qed.

End Equations.

(** ** A closed property holds of every run *)

Section Inherit.

Context {L : Type}.
Variable lib : Library L.
Variable allowed : string -> bool.
Variable rt handlers : bool.
Variable P : forall A : Type, M L A -> Prop.
Hypothesis HP : Closed lib allowed rt handlers P.

Local Ltac step :=
  first [ apply (closed_ret _ _ _ _ _ HP)
        | apply (closed_raise _ _ _ _ _ HP)
        | apply (closed_lookup _ _ _ _ _ HP)
        | apply (closed_globals _ _ _ _ _ HP)
        | apply (closed_emit _ _ _ _ _ HP); reflexivity
        | apply (closed_bind _ _ _ _ _ HP); [ | intro ] ].

Lemma inherit_lift (A : Type) (r : Result A) : P A (lift r).
Proof. destruct r; [apply (closed_ret _ _ _ _ _ HP) | apply (closed_raise _ _ _ _ _ HP)]. Qed.

Lemma inherit_call c args kwargs :
  is_runtime c = false -> P Val (lib_call lib c args kwargs).
Proof.
  intro H. apply (closed_call _ _ _ _ _ HP). rewrite H. discriminate.
Qed.

Lemma inherit_map_m (A B : Type) (f : A -> M L B) (l : list A) :
  (forall a, P B (f a)) -> P (list B) (map_m f l).
Proof.
  intro Hf. induction l as [|a l IH]; simpl.
  - step.
  - step; [apply Hf|]. step; [apply IH|]. step.
Qed.

Lemma inherit_getattr v a : P Val (getattr lib v a).
Proof.
  destruct v; simpl;
    first [ apply inherit_lift | step | now apply inherit_call ].
Qed.

Lemma inherit_subscript v i : P Val (subscript lib v i).
Proof.
  unfold subscript. destruct (is_obj v); [now apply inherit_call | apply inherit_lift].
Qed.

Lemma inherit_binop op a b : P Val (binop lib op a b).
Proof.
  unfold binop. destruct (is_obj a); [now apply inherit_call|].
  destruct (is_obj b); [now apply inherit_call | apply inherit_lift].
Qed.

Lemma inherit_neg a : P Val (neg lib a).
Proof.
  unfold neg. destruct (is_obj a); [now apply inherit_call | apply inherit_lift].
Qed.

Lemma inherit_iterate v : P (list Val) (iterate lib v).
Proof.
  unfold iterate. destruct (is_obj v); [|apply inherit_lift].
  step; [now apply inherit_call | apply inherit_lift].
Qed.

Lemma inherit_len v : P Val (len lib v).
Proof.
  unfold len. destruct (is_obj v); [now apply inherit_call | apply inherit_lift].
Qed.

Lemma inherit_to_str v : P string (to_str lib v).
Proof.
  unfold to_str. destruct (Py.str v); [step|].
  step; [now apply inherit_call|]. destruct a; step.
Qed.

Lemma inherit_print args : P Val (print lib args).
Proof.
  unfold print. step; [apply inherit_map_m, inherit_to_str|].
  step; step.
Qed.

Lemma inherit_format t args : P Val (format lib t args).
Proof.
  unfold format. step; [apply inherit_map_m, inherit_to_str|].
  step; [apply inherit_lift | step].
Qed.

Lemma inherit_assign_each xs vs :
  forallb allowed xs = true -> P unit (assign_each xs vs).
Proof.
  revert vs. induction xs as [|x xs IH]; intros [|v vs] H; simpl; try step.
  - simpl in H. apply andb_prop in H as [Hx _].
    now apply (closed_assign _ _ _ _ _ HP).
  - simpl in H. apply andb_prop in H as [_ Hxs]. now apply IH.
Qed.

Lemma inherit_bind_targets xs v :
  forallb allowed xs = true -> P unit (bind_targets lib xs v).
Proof.
  intro H. unfold bind_targets.
  assert (Hgen : P unit (vs <- iterate lib v ;;
                         if (List.length xs =? List.length vs)%nat
                         then assign_each xs vs else raise ValueError)).
  { step; [apply inherit_iterate|].
    destruct (_ =? _)%nat; [now apply inherit_assign_each | step]. }
  destruct xs as [|x [|y xs]]; try exact Hgen.
  simpl in H. apply andb_prop in H as [Hx _].
  now apply (closed_assign _ _ _ _ _ HP).
Qed.

Lemma inherit_call_value v args kwargs : P Val (call_value lib v args kwargs).
Proof. destruct v; simpl; try step; now apply inherit_call. Qed.

Lemma inherit_call_builtin f args kwargs :
  (mem f runtime_builtins = true -> rt = true) ->
  P Val (call_builtin lib f args kwargs).
Proof.
  intro H. unfold call_builtin.
  destruct (mem f runtime_builtins).
  - apply (closed_call _ _ _ _ _ HP). intros _. now apply H.
  - destruct kwargs; [|step].
    destruct (String.eqb f "print"); [apply inherit_print|].
    destruct args as [|v [|w args]];
      try (destruct (String.eqb f "range"); step).
    destruct (String.eqb f "len"); [apply inherit_len|].
    destruct (String.eqb f "range"); [destruct v; step|].
    destruct (String.eqb f "enumerate"); [|step].
    step; [apply inherit_iterate | apply inherit_lift].
Qed.

Lemma inherit_call_data_method r m var args kwargs :
  (forall x, var = Some x -> String.eqb m "append" = true -> allowed x = true) ->
  P Val (call_data_method lib r m var args kwargs).
Proof.
  intro H. unfold call_data_method.
  destruct r; try (destruct (Py.data_attr _ m); step).
  - destruct kwargs; [|destruct (Py.data_attr _ m); step].
    destruct (String.eqb m "format"); [apply inherit_format | step].
  - destruct kwargs; [|destruct (Py.data_attr _ m); step].
    destruct (String.eqb m "append") eqn:Hm; [|step].
    destruct var as [x|]; [|step].
    destruct args as [|v [|w args]]; [step | | step].
    step; [|step]. apply (closed_assign _ _ _ _ _ HP). now apply H.
Qed.

Lemma inherit_call_method r m var args kwargs :
  (forall x, var = Some x -> String.eqb m "append" = true -> allowed x = true) ->
  P Val (call_method lib r m var args kwargs).
Proof.
  intro H.
  destruct r; try (now apply inherit_call_data_method);
    simpl; now apply inherit_call.
Qed.

Definition writes_ok (e : Expr) : Prop :=
  forall x, In x (Syntax.writes e) -> allowed x = true.

Definition calls_ok (e : Expr) : Prop :=
  forall x, In x (Syntax.called e) -> mem x runtime_builtins = true -> rt = true.

Definition eval_ok (e : Expr) : Prop :=
  writes_ok e -> calls_ok e -> P Val (eval lib e).

Lemma inherit_eval_list es :
  Forall eval_ok es ->
  (forall x, In x (flat_map Syntax.writes es) -> allowed x = true) ->
  (forall x, In x (flat_map Syntax.called es) ->
             mem x runtime_builtins = true -> rt = true) ->
  P (list Val) (eval_list lib es).
Proof.
  induction 1 as [|e es He _ IH]; intros Hw Hc; simpl.
  - step.
  - step.
    + apply He; intros x Hx; [apply Hw | apply Hc]; simpl; apply in_or_app; now left.
    + step; [|step].
      apply IH; intros x Hx; [apply Hw | apply Hc]; simpl; apply in_or_app; now right.
Qed.

Lemma inherit_eval_kwargs kws :
  Forall (fun kv => eval_ok (snd kv)) kws ->
  (forall x, In x (flat_map (fun kv => Syntax.writes (snd kv)) kws) -> allowed x = true) ->
  (forall x, In x (flat_map (fun kv => Syntax.called (snd kv)) kws) ->
             mem x runtime_builtins = true -> rt = true) ->
  P (list (string * Val)) (eval_kwargs lib kws).
Proof.
  induction 1 as [|[k e] kws He _ IH]; intros Hw Hc; simpl.
  - step.
  - step.
    + apply He; intros x Hx; [apply Hw | apply Hc]; simpl; apply in_or_app; now left.
    + step; [|step].
      apply IH; intros x Hx; [apply Hw | apply Hc]; simpl; apply in_or_app; now right.
Qed.

Lemma inherit_eval_items items :
  Forall (fun kv => eval_ok (fst kv) /\ eval_ok (snd kv)) items ->
  (forall x, In x (flat_map (fun kv => Syntax.writes (fst kv) ++ Syntax.writes (snd kv))%list
                            items) -> allowed x = true) ->
  (forall x, In x (flat_map (fun kv => Syntax.called (fst kv) ++ Syntax.called (snd kv))%list
                            items) -> mem x runtime_builtins = true -> rt = true) ->
  P (list (string * Val)) (eval_items lib items).
Proof.
  induction 1 as [|[ke ve] items [Hk Hv] _ IH]; intros Hw Hc; simpl.
  - step.
  - simpl in Hk, Hv. step.
    + apply Hk; intros x Hx; [apply Hw | apply Hc]; simpl;
        apply in_or_app; left; apply in_or_app; now left.
    + step; [destruct a; step|]. step.
      * apply Hv; intros x Hx; [apply Hw | apply Hc]; simpl;
          apply in_or_app; left; apply in_or_app; now right.
      * step; [|step].
        apply IH; intros x Hx; [apply Hw | apply Hc]; simpl; apply in_or_app; now right.
Qed.

Local Ltac sub H :=
  apply H; intros ? ?; auto using in_or_app with datatypes.

Lemma inherit_eval_strong e :
  eval_ok e /\ (forall r m, e = EAttr r m -> eval_ok r).
Proof.
  induction e using Expr_nested_ind;
    (split; [intros Hw Hc | intros r0 m0 Heq; try discriminate]).
  - simpl; step.
  - simpl; step.
  - simpl; step.
  - simpl; step.
  - simpl; step.
  - simpl; step.
  - simpl. step; [step|]. destruct a; step.
  - simpl. step; [|apply inherit_getattr]. now apply IHe.
  - injection Heq as -> ->. apply IHe.
  - simpl. step; [|step; [|apply inherit_subscript]].
    + apply IHe1; intros x Hx; [apply Hw | apply Hc]; simpl; apply in_or_app; now left.
    + apply IHe2; intros x Hx; [apply Hw | apply Hc]; simpl; apply in_or_app; now right.
  - rewrite eval_call.
    assert (Hargs : P (list Val) (eval_list lib args)).
    { apply inherit_eval_list;
        [eapply Forall_impl; [|exact H]; now intros ? [? _] | |]; intros x Hx; [apply Hw | apply Hc]; simpl;
        apply in_or_app; right; [apply in_or_app; right|]; apply in_or_app; now left. }
    assert (Hkws : P (list (string * Val)) (eval_kwargs lib kwargs)).
    { apply inherit_eval_kwargs;
        [eapply Forall_impl; [|exact H0]; now intros ? [? _] | |]; intros x Hx; [apply Hw | apply Hc]; simpl;
        apply in_or_app; right; [apply in_or_app; right|]; apply in_or_app; now right. }
    assert (Hf : forall f', f' = e -> (forall x, f' <> EName x) ->
                            (forall r m, f' <> EAttr r m) ->
                            P Val (fv <- eval lib e ;;
                                   avs <- eval_list lib args ;;
                                   kvs <- eval_kwargs lib kwargs ;;
                                   call_value lib fv avs kvs)).
    { intros f' -> Hn Ha. step.
      - apply IHe; intros x Hx; [apply Hw | apply Hc]; simpl.
        + apply in_or_app; right; apply in_or_app; now left.
        + apply in_or_app; left. destruct e; try exact Hx. now elim (Hn x0).
      - step; [exact Hargs|]. step; [exact Hkws|]. apply inherit_call_value. }
    destruct e; try (apply (Hf _ eq_refl); intros; discriminate).
    + step; [step|]. destruct a as [v|].
      * step; [exact Hargs|]. step; [exact Hkws|]. apply inherit_call_value.
      * destruct (mem x pure_builtins || mem x runtime_builtins); [|step].
        step; [exact Hargs|]. step; [exact Hkws|].
        apply inherit_call_builtin. intro Hm. apply (Hc x); [|exact Hm].
        simpl. now left.
    + step.
      * destruct IHe as [_ IHr]. apply (IHr e a eq_refl).
        -- intros x Hx. apply Hw. simpl. apply in_or_app; right.
           apply in_or_app; now left.
        -- intros x Hx. apply Hc. simpl. apply in_or_app; now left.
      * step; [exact Hargs|]. step; [exact Hkws|].
        apply inherit_call_method.
        intros x Hv Hm. apply Hw. simpl.
        destruct e; try discriminate. injection Hv as ->. rewrite Hm. now left.
  - simpl. step; [|step; [|apply inherit_binop]].
    + apply IHe1; intros x Hx; [apply Hw | apply Hc]; simpl; apply in_or_app; now left.
    + apply IHe2; intros x Hx; [apply Hw | apply Hc]; simpl; apply in_or_app; now right.
  - simpl. step; [|apply inherit_neg]. now apply IHe.
  - rewrite eval_list_display. step; [|step].
    apply inherit_eval_list; [|exact Hw|exact Hc].
    eapply Forall_impl; [|exact H]. now intros a [Ha _].
  - rewrite eval_dict. step; [|step].
    apply inherit_eval_items; [|exact Hw|exact Hc].
    eapply Forall_impl; [|exact H]. now intros a [[Ha _] [Hb _]].
  - simpl. step.
    { apply IHe2; intros x Hx; [apply Hw | apply Hc]; simpl;
        apply in_or_app; right; [apply in_or_app; right|]; exact Hx. }
    assert (Ht : forallb allowed targets = true).
    { apply forallb_forall. intros x Hx. apply Hw. simpl. apply in_or_app; now left. }
    step; [apply inherit_iterate|]. step; [step|].
    step.
    { apply inherit_map_m. intro v. step; [now apply inherit_bind_targets|].
      apply IHe1; intros x Hx; [apply Hw | apply Hc]; simpl.
      - apply in_or_app; right. apply in_or_app; now left.
      - apply in_or_app; now left. }
    step; [|step].
    clear - HP Ht. induction targets as [|t ts IH]; simpl; [step|].
    simpl in Ht. apply andb_prop in Ht as [Ht Hts].
    step; [now apply (closed_restore _ _ _ _ _ HP)|].
    step; [now apply IH | step].
Qed.

Lemma inherit_eval e :
  Syntax.expr_within allowed rt e = true -> P Val (eval lib e).
Proof.
  unfold Syntax.expr_within. intro H. apply andb_prop in H as [Hw Hc].
  apply inherit_eval_strong.
  - intros x Hx. now apply (proj1 (forallb_forall _ _) Hw).
  - intros x Hx Hm. apply orb_true_iff in Hc as [Hc|Hc]; [exact Hc|].
    apply negb_true_iff in Hc.
    assert (existsb (fun x => mem x runtime_builtins) (Syntax.called e) = true).
    { apply existsb_exists. now exists x. }
    congruence.
Qed.

Lemma inherit_eval_props e :
  writes_ok e -> calls_ok e -> P Val (eval lib e).
Proof. apply inherit_eval_strong. Qed.

Lemma inherit_map_m_in (A B : Type) (f : A -> M L B) (l : list A) :
  (forall a, In a l -> P B (f a)) -> P (list B) (map_m f l).
Proof.
  induction l as [|a l IH]; intro Hf; simpl.
  - step.
  - step; [apply Hf; now left|]. step; [|step].
    apply IH. intros b Hb. apply Hf. now right.
Qed.

Definition stmt_ok (st : Stmt) : Prop :=
  (forall x, In x (Syntax.assigned st) -> allowed x = true)
  /\ (forall x, In x (Syntax.calls st) -> mem x runtime_builtins = true -> rt = true)
  /\ (handlers = true \/ Syntax.handler_free st = true).

Lemma inherit_exec_block b :
  Forall (fun st => P unit (exec lib st)) b -> P unit (exec_block lib b).
Proof.
  induction 1 as [|st b Hst _ IH]; simpl; [step|].
  step; [exact Hst | exact IH].
Qed.

Lemma stmt_ok_body (b : list Stmt) (Q : Stmt -> Prop) :
  Forall (fun st => stmt_ok st -> Q st) b ->
  (forall x, In x (flat_map Syntax.assigned b) -> allowed x = true) ->
  (forall x, In x (flat_map Syntax.calls b) -> mem x runtime_builtins = true -> rt = true) ->
  (handlers = true \/ forallb Syntax.handler_free b = true) ->
  Forall Q b.
Proof.
  induction 1 as [|st b Hst _ IH]; intros Ha Hc Hh; constructor.
  - apply Hst. repeat split.
    + intros x Hx. apply Ha. simpl. apply in_or_app; now left.
    + intros x Hx. apply Hc. simpl. apply in_or_app; now left.
    + destruct Hh as [Hh|Hh]; [now left|]. simpl in Hh.
      apply andb_prop in Hh as [Hh _]. now right.
  - apply IH.
    + intros x Hx. apply Ha. simpl. apply in_or_app; now right.
    + intros x Hx. apply Hc. simpl. apply in_or_app; now right.
    + destruct Hh as [Hh|Hh]; [now left|]. simpl in Hh.
      apply andb_prop in Hh as [_ Hh]. now right.
Qed.

Lemma inherit_exec_props st : stmt_ok st -> P unit (exec lib st).
Proof.
  induction st using Stmt_nested_ind; intros (Ha & Hc & Hh).
  - simpl. step; [now apply inherit_call|].
    apply (closed_assign _ _ _ _ _ HP). apply Ha. simpl. now left.
  - simpl. step; [now apply inherit_call|]. step; [|step].
    apply inherit_map_m_in. intros n Hn.
    apply (closed_assign _ _ _ _ _ HP). now apply Ha.
  - simpl. step.
    + apply inherit_eval_props; intros x Hx; [apply Ha | now apply Hc].
      simpl. apply in_or_app; now right.
    + apply inherit_bind_targets. apply forallb_forall. intros x Hx.
      apply Ha. simpl. apply in_or_app; now left.
  - simpl. step; [|step].
    apply inherit_eval_props; intros x Hx; [now apply Ha | now apply Hc].
  - rewrite exec_for. step.
    { apply inherit_eval_props; intros x Hx; [apply Ha | apply Hc]; simpl.
      - apply in_or_app; right. apply in_or_app; now left.
      - apply in_or_app; now left. }
    step; [apply inherit_iterate|]. step; [|step].
    apply inherit_map_m. intro v. step.
    { apply inherit_bind_targets. apply forallb_forall. intros x Hx.
      apply Ha. simpl. apply in_or_app; now left. }
    apply inherit_exec_block.
    apply (stmt_ok_body body _ H).
    + intros x Hx. apply Ha. simpl. apply in_or_app; right. apply in_or_app; now right.
    + intros x Hx. apply Hc. simpl. apply in_or_app; now right.
    + destruct Hh as [Hh|Hh]; [now left | now right].
  - rewrite exec_try.
    destruct Hh as [Hh|Hh]; [|discriminate].
    apply (closed_catch _ _ _ _ _ HP Hh); apply inherit_exec_block.
    + apply (stmt_ok_body body _ H).
      * intros x Hx. apply Ha. simpl. apply in_or_app; now left.
      * intros x Hx. apply Hc. simpl. apply in_or_app; now left.
      * now left.
    + apply (stmt_ok_body handler _ H0).
      * intros x Hx. apply Ha. simpl. apply in_or_app; now right.
      * intros x Hx. apply Hc. simpl. apply in_or_app; now right.
      * now left.
Qed.

Lemma within_stmt_ok st :
  Syntax.within allowed rt handlers st = true -> stmt_ok st.
Proof.
  unfold Syntax.within. intro H.
  apply andb_prop in H as [H Hh]. apply andb_prop in H as [Ha Hc].
  repeat split.
  - intros x Hx. now apply (proj1 (forallb_forall _ _) Ha).
  - intros x Hx Hm. apply orb_true_iff in Hc as [Hc|Hc]; [exact Hc|].
    apply negb_true_iff in Hc.
    assert (existsb (fun x => mem x runtime_builtins) (Syntax.calls st) = true).
    { apply existsb_exists. now exists x. }
    congruence.
  - now apply orb_true_iff in Hh.
Qed.

Lemma inherit_exec st :
  Syntax.within allowed rt handlers st = true -> P unit (exec lib st).
Proof. intro H. now apply inherit_exec_props, within_stmt_ok. Qed.

Lemma inherit_exec_cell (c : Cell) :
  forallb (Syntax.within allowed rt handlers) c = true -> P unit (exec_cell lib c).
Proof.
  induction c as [|st c IH]; intro H; [simpl; step|].
  simpl in H. apply andb_prop in H as [Hst Hc].
  assert (Hgen : P unit (exec lib st ;; exec_cell lib c)).
  { step; [now apply inherit_exec | now apply IH]. }
  destruct st; try exact Hgen.
  destruct c; [|exact Hgen].
  simpl. step.
  - apply within_stmt_ok in Hst. destruct Hst as (Ha & Hc' & _).
    apply inherit_eval_props; intros x Hx; [now apply Ha | now apply Hc'].
  - destruct a; step.
Qed.

Lemma inherit_run_cells (nb : Notebook) :
  forallb (forallb (Syntax.within allowed rt handlers)) nb = true ->
  P unit (run_cells lib nb).
Proof.
  induction nb as [|c nb IH]; intro H; simpl; [step|].
  simpl in H. apply andb_prop in H as [Hc Hnb].
  step; [now apply inherit_exec_cell | now apply IH].
Qed.

End Inherit.

(** ** Exceptions of the libraries *)

Section Propagation.

Context {L : Type}.
Variable lib : Library L.

Lemma clean_app evs1 evs2 : clean evs1 -> clean evs2 -> clean (evs1 ++ evs2).
Proof. intros H1 H2. apply Forall_app. now split. Qed.

Lemma well_ended_ok {A : Type} evs (a : A) : well_ended evs (Ok a) -> clean evs.
Proof.
  intros [H|(pre & ev & e & _ & _ & _ & H)]; [exact H | discriminate].
Qed.

Lemma propagates_silent (A : Type) (m : M L A) :
  (forall s, world (snd (m s)) = world s) -> propagates A m.
Proof.
  intros H s. exists []. rewrite H, app_nil_r. split; [reflexivity|].
  left. constructor.
Qed.

Lemma propagates_bind (A B : Type) (m : M L A) (k : A -> M L B) :
  propagates A m -> (forall a, propagates B (k a)) -> propagates B (bind m k).
Proof.
  intros Hm Hk s. unfold bind.
  destruct (Hm s) as (evs1 & Hlog1 & Hend1).
  destruct (m s) as [[a|e] s1]; simpl in *.
  - destruct (Hk a s1) as (evs2 & Hlog2 & Hend2).
    exists (evs1 ++ evs2)%list. split.
    + now rewrite Hlog2, Hlog1, app_assoc.
    + apply well_ended_ok in Hend1.
      destruct Hend2 as [H2|(pre & ev & e & -> & Hpre & Hev & Hr)].
      * left. now apply clean_app.
      * right. exists (evs1 ++ pre)%list, ev, e.
        repeat split; auto using clean_app. now rewrite app_assoc.
  - exists evs1. split; [exact Hlog1|].
    destruct Hend1 as [H1|(pre & ev & e' & -> & Hpre & Hev & Hr)].
    + now left.
    + right. exists pre, ev, e'. repeat split; auto.
      injection Hr as ->. reflexivity.
Qed.

Lemma propagates_call c args kwargs : propagates Val (lib_call lib c args kwargs).
Proof.
  intro s. unfold lib_call.
  destruct (lib (libst (world s)) c args kwargs) as [r st] eqn:E. simpl.
  exists [EvCall c args kwargs r]. split; [reflexivity|].
  destruct r as [v|e].
  - left. repeat constructor.
  - right. exists [], (EvCall c args kwargs (Raise e)), e.
    repeat split. constructor.
Qed.

Lemma propagates_emit ev : is_output ev = true -> @propagates L unit (emit ev).
Proof.
  intros H s. exists [ev]. split; [reflexivity|].
  left. constructor; [|constructor]. now destruct ev.
Qed.

Lemma propagates_closed :
  Closed lib (fun _ => true) true false (@propagates L).
Proof.
  constructor.
  - intros. now apply propagates_silent.
  - intros. now apply propagates_silent.
  - apply propagates_bind.
  - intros. apply propagates_call.
  - apply propagates_emit.
  - intros. now apply propagates_silent.
  - now apply propagates_silent.
  - intros. now apply propagates_silent.
  - intros. now apply propagates_silent.
  - discriminate.
Qed.

(** In a well-ended list of events, a failed call is the last event. *)
Lemma well_ended_last {A : Type} evs (r : Result A) pre ev post e :
  well_ended evs r ->
  evs = (pre ++ ev :: post)%list -> failed ev = Some e ->
  post = [] /\ r = Raise e.
Proof.
  intros [Hc|(pre' & ev' & e' & -> & Hpre & Hev & Hr)] Heq Hf.
  - subst evs. apply Forall_app in Hc as [_ Hc].
    inversion Hc; subst. congruence.
  - destruct post as [|p post].
    + apply app_inj_tail in Heq as [_ ->].
      split; [reflexivity|]. congruence.
    + exfalso.
      assert (Hin : In ev pre').
      { replace (pre ++ ev :: p :: post)%list
          with ((pre ++ ev :: removelast (p :: post)) ++ [last (p :: post) ev])%list
          in Heq.
        - apply app_inj_tail in Heq as [-> _]. apply in_or_app. right. now left.
        - rewrite <- app_assoc. simpl. f_equal. f_equal.
          symmetry. apply (app_removelast_last (l := p :: post)). discriminate. }
      unfold clean in Hpre. rewrite Forall_forall in Hpre.
      specialize (Hpre _ Hin). congruence.
Qed.

Lemma run_propagates (nb : Notebook) :
  forallb (forallb Syntax.handler_free) nb = true ->
  propagates unit (run_cells lib nb).
Proof.
  intro H.
  apply (inherit_run_cells lib _ _ _ _ propagates_closed).
  rewrite forallb_forall in H. apply forallb_forall. intros c Hc.
  specialize (H c Hc). rewrite forallb_forall in H.
  apply forallb_forall. intros st Hst. unfold Syntax.within.
  rewrite (H st Hst). simpl.
  rewrite !andb_true_r. apply forallb_forall. reflexivity.
Qed.

End Propagation.

(** C3. The three notebooks contain no exception handler, and whenever
    a call into a library raises an exception during a run of a
    notebook, that call is the last step of the run and the run ends
    with that same exception: nothing catches, transforms or recovers
    from it. *)
Theorem library_exceptions_propagate :
  forall (L : Type) (lib : Library L) (nb : Notebook),
    In nb notebooks ->
    forallb (forallb Syntax.handler_free) nb = true
    /\ forall (st : L) (pre post : list Event) (ev : Event) (e : Exn),
        log (world (snd (run lib nb st))) = (pre ++ ev :: post)%list ->
        failed ev = Some e ->
        post = [] /\ fst (run lib nb st) = Raise e.
Proof.
  intros L lib nb Hnb.
  assert (Hfree : forallb (forallb Syntax.handler_free) nb = true).
  { destruct Hnb as [<-|[<-|[<-|[]]]]; reflexivity. }
  split; [exact Hfree|].
  intros st pre post ev e Hlog Hf.
  destruct (run_propagates lib nb Hfree (fresh st)) as (evs & Hevs & Hend).
  simpl in Hevs. unfold run in *.
  apply (well_ended_last evs _ pre ev post e Hend); [|exact Hf].
  now rewrite <- Hevs.
Qed.

(** The QSE notebook against a library whose chemistry driver fails:
    the run ends with the driver's exception. *)
Lemma library_exceptions_propagate_witness :
  In QSE.notebook notebooks
  /\ failed (last (log (world (snd (run failing_driver QSE.notebook Demo.init))))
                  (EvPrint ""))
     = Some (LibError 1)
  /\ fst (run failing_driver QSE.notebook Demo.init) = Raise (LibError 1).
Proof.
  split; [now left|]. split; [vm_compute; reflexivity|].
  apply (proj2 (library_exceptions_propagate _ failing_driver QSE.notebook
                  (or_introl eq_refl))
           Demo.init
           (removelast (log (world (snd (run failing_driver QSE.notebook Demo.init)))))
           []
           (last (log (world (snd (run failing_driver QSE.notebook Demo.init))))
                 (EvPrint ""))
           (LibError 1)).
  - vm_compute. reflexivity.
  - vm_compute. reflexivity.
Defined.

(** ** Effects are confined to logged library calls and output *)

Section Confinement.

Context {L : Type}.
Variable lib : Library L.

Lemma confined_silent (A : Type) (m : M L A) :
  (forall s, world (snd (m s)) = world s) -> confined A m.
Proof.
  intros H s. exists []. rewrite H, app_nil_r. now split.
Qed.

Lemma confined_seq (s s1 s2 : State L) evs1 evs2 :
  log (world s1) = (log (world s) ++ evs1)%list ->
  forallb library_or_output evs1 = true ->
  log (world s2) = (log (world s1) ++ evs2)%list ->
  forallb library_or_output evs2 = true ->
  log (world s2) = (log (world s) ++ (evs1 ++ evs2))%list
  /\ forallb library_or_output (evs1 ++ evs2) = true.
Proof.
  intros Hl1 Ho1 Hl2 Ho2. split.
  - now rewrite Hl2, Hl1, app_assoc.
  - rewrite forallb_app, Ho1, Ho2. reflexivity.
Qed.

Lemma confined_bind (A B : Type) (m : M L A) (k : A -> M L B) :
  confined A m -> (forall a, confined B (k a)) -> confined B (bind m k).
Proof.
  intros Hm Hk s. unfold bind.
  destruct (Hm s) as (evs1 & Hl1 & Ho1).
  destruct (m s) as [[a|e] s1]; simpl in *.
  - destruct (Hk a s1) as (evs2 & Hl2 & Ho2).
    exists (evs1 ++ evs2)%list. now apply (confined_seq s s1).
  - now exists evs1.
Qed.

Lemma confined_catch (A : Type) (m h : M L A) :
  confined A m -> confined A h -> confined A (catch m h).
Proof.
  intros Hm Hh s. unfold catch.
  destruct (Hm s) as (evs1 & Hl1 & Ho1).
  destruct (m s) as [[a|e] s1]; simpl in *.
  - now exists evs1.
  - destruct (Hh s1) as (evs2 & Hl2 & Ho2).
    exists (evs1 ++ evs2)%list. now apply (confined_seq s s1).
Qed.

Lemma confined_call c args kwargs :
  is_runtime c = false -> confined Val (lib_call lib c args kwargs).
Proof.
  intros Hc s. unfold lib_call.
  destruct (lib (libst (world s)) c args kwargs) as [r st] eqn:E. simpl.
  exists [EvCall c args kwargs r]. split; simpl; [reflexivity|].
  destruct c; try reflexivity. discriminate.
Qed.

Lemma confined_emit ev : is_output ev = true -> confined (L := L) unit (emit ev).
Proof.
  intros H s. exists [ev]. split; simpl; [reflexivity|].
  destruct ev; try reflexivity. discriminate.
Qed.

Lemma confined_closed : Closed lib (fun _ => true) false true (@confined L).
Proof.
  constructor.
  - intros. now apply confined_silent.
  - intros. now apply confined_silent.
  - apply confined_bind.
  - intros c args kwargs H. apply confined_call.
    destruct (is_runtime c); [now discriminate (H eq_refl) | reflexivity].
  - apply confined_emit.
  - intros. now apply confined_silent.
  - now apply confined_silent.
  - intros. now apply confined_silent.
  - intros. now apply confined_silent.
  - intros _. apply confined_catch.
Qed.

End Confinement.

Lemma notebooks_call_no_runtime_builtin (nb : Notebook) :
  In nb notebooks ->
  forallb (forallb (Syntax.within (fun _ => true) false true)) nb = true.
Proof. intros [<-|[<-|[<-|[]]]]; vm_compute; reflexivity. Qed.

(** ** The namespace *)

Lemma lookup_update (x y : string) (v : Val) (g : list (string * Val)) :
  Py.lookup x (update y v g) = if String.eqb x y then Some v else Py.lookup x g.
Proof.
  induction g as [|[z w] g IH]; simpl.
  - reflexivity.
  - destruct (String.eqb y z) eqn:Eyz; simpl.
    + apply String.eqb_eq in Eyz. subst z.
      destruct (String.eqb x y); reflexivity.
    + rewrite IH. destruct (String.eqb x z) eqn:Exz; [|reflexivity].
      apply String.eqb_eq in Exz. subst z.
      rewrite String.eqb_sym in Eyz. now rewrite Eyz.
Qed.

Lemma lookup_update_eq (x : string) (v : Val) (g : list (string * Val)) :
  Py.lookup x (update x v g) = Some v.
Proof. now rewrite lookup_update, String.eqb_refl. Qed.

Lemma lookup_update_neq (x y : string) (v : Val) (g : list (string * Val)) :
  String.eqb x y = false -> Py.lookup x (update y v g) = Py.lookup x g.
Proof. intro H. now rewrite lookup_update, H. Qed.

Lemma lookup_remove_neq (x y : string) (g : list (string * Val)) :
  String.eqb x y = false -> Py.lookup x (remove y g) = Py.lookup x g.
Proof.
  intro H. induction g as [|[z w] g IH]; simpl; [reflexivity|].
  destruct (String.eqb y z) eqn:Eyz; simpl.
  - apply String.eqb_eq in Eyz. subst z. now rewrite H.
  - now rewrite IH.
Qed.

Section Loops.

Context {L : Type}.

(** A loop whose body succeeds in every state that satisfies an
    invariant, keeps the invariant and leaves the world alone. *)
Lemma map_m_invariant (A B : Type) (Inv : State L -> Prop)
      (f : A -> M L B) (g : A -> B) (l : list A) :
  (forall a s, In a l -> Inv s ->
     fst (f a s) = Ok (g a) /\ Inv (snd (f a s)) /\ world (snd (f a s)) = world s) ->
  forall s, Inv s ->
    fst (map_m f l s) = Ok (map g l)
    /\ Inv (snd (map_m f l s))
    /\ world (snd (map_m f l s)) = world s.
Proof.
  induction l as [|a l IH]; intros Hf s Hs; simpl.
  - auto.
  - unfold bind.
    destruct (Hf a s (or_introl eq_refl) Hs) as (Hr & Hi & Hw).
    destruct (f a s) as [r s1]; simpl in *. subst r.
    destruct (IH (fun b s' Hb => Hf b s' (or_intror Hb)) s1 Hi) as (Hr' & Hi' & Hw').
    destruct (map_m f l s1) as [r' s2]; simpl in *. subst r'.
    simpl. repeat split; auto. congruence.
Qed.

End Loops.

(** ** Symbolic execution *)

Ltac run :=
  cbv beta iota zeta delta
      [bind lookup_name ret raise assign get_globals lift restore emit].

Ltac look := repeat (rewrite lookup_update; simpl).

(** ** The Cirq notebook: [final_qubits] *)

Lemma map_pick_enumerate (qs : list Val) (m : list Z) (k : nat) :
  map (fun v => match v with
                | VTuple [_; VInt j] => nth (Z.to_nat j) qs VNone
                | _ => VNone
                end)
      (map (fun ix : nat * Val => VTuple [VInt (Z.of_nat (fst ix)); snd ix])
           (combine (seq k (List.length (map VInt m))) (map VInt m)))
  = map (fun j => nth (Z.to_nat j) qs VNone) m.
Proof.
  revert k. induction m as [|j m IH]; intro k; simpl; [reflexivity|].
  f_equal. apply IH.
Qed.

Lemma final_qubits_value (L : Type) (lib : Library L) (s : State L)
      (qs : list Val) (m : list Z) (rest : list Val) :
  Py.lookup "qubits" (globals s) = Some (VList qs) ->
  List.length qs = 9%nat ->
  Py.lookup "qmap" (globals s) = Some (VTuple (VList (map VInt m) :: rest)) ->
  Py.lookup "enumerate" (globals s) = None ->
  Forall (fun j => 0 <= j <= 8) m ->
  fst (eval lib Cirq.final_qubits s)
  = Ok (VList (map (fun j => nth (Z.to_nat j) qs VNone) m))
  /\ world (snd (eval lib Cirq.final_qubits s)) = world s.
Proof.
  intros Hq Hlen Hm He Hb.
  unfold Cirq.final_qubits. simpl eval. run. rewrite He. simpl. run. rewrite Hm.
  simpl. run. simpl.
  set (pick := fun v => match v with
                        | VTuple [_; VInt j] => nth (Z.to_nat j) qs VNone
                        | _ => VNone
                        end).
  match goal with
  | |- context [map_m ?f ?l ?s0] =>
      destruct (map_m_invariant _ _
                  (fun s' : State L => Py.lookup "qubits" (globals s') = Some (VList qs))
                  f pick l) with (s := s0) as (Hr & Hi & Hw)
  end.
  - intros a s1 Ha Hs1.
    apply in_map_iff in Ha as ([i v] & <- & Hin).
    apply in_combine_r in Hin. apply in_map_iff in Hin as (j & <- & Hj).
    rewrite Forall_forall in Hb. specialize (Hb j Hj).
    simpl. look. rewrite Hs1. simpl. look.
    unfold subscript, lift, Py.index. simpl. rewrite Hlen.
    assert (E1 : (j <? 0) = false) by (apply Z.ltb_ge; lia).
    assert (E2 : (0 <=? j) = true) by (apply Z.leb_le; lia).
    assert (E3 : (j <? 9) = true) by (apply Z.ltb_lt; lia).
    rewrite E1, E2. change (Z.of_nat 9) with 9. rewrite E3. simpl.
    destruct (nth_error qs (Z.to_nat j)) as [q|] eqn:Eq.
    + simpl. look. repeat split; auto.
      f_equal. symmetry. now apply nth_error_nth.
    + apply nth_error_None in Eq. lia.
  - exact Hq.
  - destruct (map_m _ _ _) as [r s2]. simpl in Hr, Hi, Hw. subst r.
    simpl. split; [|exact Hw].
    f_equal. f_equal. apply map_pick_enumerate.
Qed.

(** C10. In the Cirq routing example, let [qubits] be a list of nine
    elements and let every entry of the first routing map [qmap[0]] be
    an integer between 0 and 8.  Then the comprehension
    [[qubits[j] for i,j in enumerate(qmap[0])]] raises no exception
    (every index it uses is within the list), calls no library and
    prints nothing, and its value [final_qubits] is a list as long as
    [qmap[0]] whose element at each position [i] is
    [qubits[qmap[0][i]]]. *)
Theorem final_qubits_in_bounds :
  forall (L : Type) (lib : Library L) (s : State L)
         (qs : list Val) (m : list Z) (rest : list Val),
    Py.lookup "qubits" (globals s) = Some (VList qs) ->
    List.length qs = 9%nat ->
    Py.lookup "qmap" (globals s) = Some (VTuple (VList (map VInt m) :: rest)) ->
    Py.lookup "enumerate" (globals s) = None ->
    Forall (fun j => 0 <= j <= 8) m ->
    exists fq : list Val,
      fst (eval lib Cirq.final_qubits s) = Ok (VList fq)
      /\ world (snd (eval lib Cirq.final_qubits s)) = world s
      /\ List.length fq = List.length m
      /\ forall (i : nat) (j : Z),
          nth_error m i = Some j ->
          exists q : Val, Py.index qs j = Ok q /\ nth_error fq i = Some q.
Proof.
  intros L lib s qs m rest Hq Hlen Hm He Hb.
  destruct (final_qubits_value L lib s qs m rest Hq Hlen Hm He Hb) as [Hv Hw].
  exists (map (fun j => nth (Z.to_nat j) qs VNone) m).
  repeat split; auto.
  - apply length_map.
  - intros i j Hi.
    assert (Hj : 0 <= j <= 8).
    { rewrite Forall_forall in Hb. apply Hb. eapply nth_error_In; eauto. }
    exists (nth (Z.to_nat j) qs VNone). split.
    + unfold Py.index. rewrite Hlen.
      assert (E1 : (j <? 0) = false) by (apply Z.ltb_ge; lia).
      assert (E2 : (0 <=? j) = true) by (apply Z.leb_le; lia).
      assert (E3 : (j <? 9) = true) by (apply Z.ltb_lt; lia).
      rewrite E1, E2. change (Z.of_nat 9) with 9. rewrite E3. simpl.
      destruct (nth_error qs (Z.to_nat j)) as [q|] eqn:Eq.
      * f_equal. symmetry. now apply nth_error_nth.
      * apply nth_error_None in Eq. lia.
    + rewrite nth_error_map, Hi. reflexivity.
Qed.

(** The state the stand-in run reaches before [final_qubits] is built:
    nine grid qubits and the routing map [8, 3, 4, 6, 5, 7, 2, 1, 0]. *)
Lemma final_qubits_in_bounds_witness :
  exists fq : list Val,
    fst (eval Demo.lib Cirq.final_qubits cirq_before_final_qubits) = Ok (VList fq)
    /\ List.length fq = 9%nat.
Proof.
  destruct (final_qubits_in_bounds _ Demo.lib cirq_before_final_qubits
              (map VObj [1; 2; 3; 4; 5; 6; 7; 8; 9]%N)
              [8; 3; 4; 6; 5; 7; 2; 1; 0]
              [Demo.ints [8; 3; 5; 7; 4; 6; 2; 1; 0]])
    as (fq & Hv & _ & Hl & _).
  - vm_compute. reflexivity.
  - reflexivity.
  - vm_compute. reflexivity.
  - vm_compute. reflexivity.
  - repeat constructor; lia.
  - exists fq. split; [exact Hv | exact Hl].
Defined.

(** ** The QSE notebook: the initial point of VQE *)

Ltac dead := try (let X := fresh in intro X; discriminate X).

Ltac lookups :=
  first [ progress look
        | match goal with
          | H : Py.lookup ?x (globals ?s0) = _
            |- context [Py.lookup ?x (globals ?s0)] => rewrite H
          end ].

Ltac lib_case lib :=
  match goal with
  | |- context [lib ?st ?c ?a ?k] =>
      let E := fresh "E" in
      destruct (lib st c a k) as [[?|?] ?] eqn:E
  end.

Section Amplitudes.

Context {L : Type}.
Variable lib : Library L.

Lemma append_loop (vs : list Val) :
  forall (s : State L) (l : list Val),
    Py.lookup "amplitudes_0" (globals s) = Some (VList l) ->
    fst (map_m (append_body lib) vs s) = Ok (map (fun _ => tt) vs)
    /\ Py.lookup "amplitudes_0" (globals (snd (map_m (append_body lib) vs s)))
       = Some (VList (l ++ repeat (VFloat (PyFloat.of_decimal 1 5)) (List.length vs)))
    /\ world (snd (map_m (append_body lib) vs s)) = world s
    /\ forall y,
        String.eqb y "i" = false -> String.eqb y "amplitudes_0" = false ->
        Py.lookup y (globals (snd (map_m (append_body lib) vs s)))
        = Py.lookup y (globals s).
Proof.
  induction vs as [|v vs IH]; intros s l Hl.
  - simpl. rewrite app_nil_r. auto.
  - simpl map_m. unfold append_body at 1 3 5 7.
    simpl bind_targets. simpl exec_block. run. simpl. look. rewrite Hl. simpl.
    match goal with
    | |- context [map_m (append_body lib) vs ?s1] =>
        destruct (IH s1 (l ++ [VFloat (PyFloat.of_decimal 1 5)])%list)
          as (Hr & Ha & Hw & Hp); [simpl; now rewrite lookup_update_eq|];
        destruct (map_m (append_body lib) vs s1) as [r s2]
    end.
    simpl in Hr, Ha, Hw, Hp. subst r. simpl.
    repeat split; auto.
    + rewrite Ha, <- app_assoc. reflexivity.
    + intros y Hi Hy. rewrite (Hp y Hi Hy). now rewrite !lookup_update, Hy, Hi.
Qed.

Lemma range_list_length (n : nat) : List.length (Py.range_list (Z.of_nat n)) = n.
Proof. unfold Py.range_list. now rewrite length_map, length_seq, Nat2Z.id. Qed.

End Amplitudes.

(** C9. Start the seventh cell of the QSE notebook in a state where
    [var_form] is a library object whose [_single_excitations] and
    [_double_excitations] the library reports as the lists [v1] and
    [v2].  Whenever the cell gets as far as constructing [VQE], the
    call that constructs it is passed, as [initial_point], a list
    whose length is the number of single excitations plus the number of
    double excitations, every element of which is the float
    0.00001. *)
Theorem initial_point_of_vqe :
  forall (L : Type) (lib : Library L) (s s' : State L) (h : N) (v1 v2 : list Val),
    Py.lookup "var_form" (globals s) = Some (VObj h) ->
    Py.lookup "len" (globals s) = None ->
    Py.lookup "range" (globals s) = None ->
    (forall st, fst (lib st (GetAttr "_single_excitations") [VObj h] []) = Ok (VList v1)) ->
    (forall st, fst (lib st (GetAttr "_double_excitations") [VObj h] []) = Ok (VList v2)) ->
    exec_block lib (firstn 8 QSE.cell7) s = (Ok tt, s') ->
    exists (pre : list Event) (kwargs : list (string * Val)) (v : Val),
      log (world s')
      = (log (world s) ++ pre
           ++ [EvCall (Fn "qiskit_aqua.algorithms.VQE") [] kwargs (Ok v)])%list
      /\ Py.lookup "initial_point" kwargs
         = Some (VList (repeat (VFloat (PyFloat.of_decimal 1 5))
                               (List.length v1 + List.length v2))).
Proof.
  intros L lib s s' h v1 v2 Hvf Hlen Hrange H1 H2.
  simpl firstn. simpl exec_block. run.
  repeat first
    [ lookups
    | progress (unfold lib_call)
    | progress simpl
    | match goal with
      | |- context [lib ?st ?c ?a ?k] =>
          let E := fresh "E" in
          destruct (lib st c a k) as [[?|?] ?] eqn:E;
          try (let X := fresh in
               pose proof (H1 st) as X; rewrite E in X; simpl in X;
               first [discriminate X | injection X as ->]);
          try (let X := fresh in
               pose proof (H2 st) as X; rewrite E in X; simpl in X;
               first [discriminate X | injection X as ->]);
          dead
      end ].
  match goal with
  | |- context [map_m ?f ?l ?s0] =>
      change f with (append_body lib);
      destruct (append_loop lib l s0 []) as (Hr & Ha & Hw & Hp); [simpl; now look|];
      destruct (map_m (append_body lib) l s0) as [r s2]
  end.
  simpl in Hr, Ha, Hw, Hp. subst r.
  destruct s2 as [g2 w2]. simpl in Ha, Hw, Hp. subst w2.
  rewrite <- Nat2Z.inj_add, range_list_length in Ha.
  repeat first
    [ lookups
    | progress (unfold lib_call)
    | rewrite Ha
    | rewrite Hp by reflexivity
    | progress simpl
    | lib_case lib; dead
    | match goal with
      | |- context [call_method lib ?v _ _ _ _] => is_var v; destruct v; dead
      end
    | match goal with
      | |- context [Py.lookup ?x (globals s)] =>
          destruct (Py.lookup x (globals s)); dead
      end ].
  all: intro X; injection X as <-; simpl.
  all: rewrite <- !app_assoc; simpl.
  all: match goal with
       | |- context [(log (world ?s0) ++ ?l)%list] => exists (removelast l)
       end; simpl; do 2 eexists; split; reflexivity.
Qed.

(** The stand-in run at the start of the seventh cell: two single
    excitations and one double excitation, hence three amplitudes. *)
Lemma initial_point_of_vqe_witness :
  exists (pre : list Event) (kwargs : list (string * Val)) (v : Val),
    log (world (snd (exec_block Demo.lib (firstn 8 QSE.cell7) qse_before_cell7)))
    = (log (world qse_before_cell7) ++ pre
         ++ [EvCall (Fn "qiskit_aqua.algorithms.VQE") [] kwargs (Ok v)])%list
    /\ Py.lookup "initial_point" kwargs
       = Some (VList (repeat (VFloat (PyFloat.of_decimal 1 5)) 3)).
Proof.
  apply (initial_point_of_vqe _ Demo.lib qse_before_cell7
           (snd (exec_block Demo.lib (firstn 8 QSE.cell7) qse_before_cell7))
           10%N
           [Demo.ints [0; 1]; Demo.ints [2; 3]] [Demo.ints [0; 1; 2; 3]]).
  - vm_compute. reflexivity.
  - vm_compute. reflexivity.
  - vm_compute. reflexivity.
  - intro st. reflexivity.
  - intro st. reflexivity.
  - vm_compute. reflexivity.
Defined.

(** ** The QSE notebook: the reported energies *)

Lemma append_empty (s : string) : s ++ "" = s.
Proof. induction s as [|c s IH]; simpl; [reflexivity | now rewrite IH]. Qed.

Lemma shift_array (fs : list PyFloat.t) (x : PyFloat.t) :
  Py.binop Py.Add (VArray (map VFloat fs)) (VFloat x)
  = Ok (VArray (map (fun f => VFloat (PyFloat.add f x)) fs)).
Proof.
  unfold Py.binop. simpl.
  assert (H : Py.collect (map (fun v => Py.elem_scalar Py.Add false v (VFloat x))
                              (map VFloat fs))
              = Ok (map (fun f => VFloat (PyFloat.add f x)) fs)).
  { induction fs as [|f fs IH]; simpl; [reflexivity|].
    simpl in IH. now rewrite IH. }
  simpl in H. now rewrite H.
Qed.

Section Energies.

Context {L : Type}.
Variable lib : Library L.

Local Arguments PyRepr.float_repr : simpl never.
Local Arguments PyFloat.add : simpl never.

Lemma ground_state_reported (s : State L) (d : list (string * Val))
      (re im x : PyFloat.t) (rest : list Val) (h : N) :
  Py.lookup "results" (globals s) = Some (VDict d) ->
  Py.lookup "eigvals" d = Some (VArray (VComplex re im :: rest)) ->
  Py.lookup "molecule" (globals s) = Some (VObj h) ->
  Py.lookup "print" (globals s) = None ->
  (forall st, fst (lib st (GetAttr "nuclear_repulsion_energy") [VObj h] [])
              = Ok (VFloat x)) ->
  fst (exec_block lib ground_state_report s) = Ok tt
  /\ log (world (snd (exec_block lib ground_state_report s)))
     = (log (world s)
          ++ [EvCall (GetAttr "nuclear_repulsion_energy") [VObj h] [] (Ok (VFloat x));
              EvPrint ("GS Minimum value: " ++ PyRepr.float_repr (PyFloat.add re x))])%list.
Proof.
  intros Hres Heig Hmol Hprint Hnre.
  unfold ground_state_report. simpl firstn. simpl exec_block. run.
  repeat first
    [ lookups
    | progress (unfold lib_call)
    | rewrite Heig
    | progress simpl
    | match goal with
      | |- context [lib ?st ?c ?a ?k] =>
          let E := fresh "E" in
          destruct (lib st c a k) as [[?|?] ?] eqn:E;
          try (let X := fresh in
               pose proof (Hnre st) as X; rewrite E in X; simpl in X;
               first [discriminate X | injection X as ->])
      end ].
  split; [reflexivity|].
  rewrite <- app_assoc, append_empty. reflexivity.
Qed.

Lemma excited_states_reported (s : State L) (d : list (string * Val))
      (fs : list PyFloat.t) (x : PyFloat.t) (q h : N) (qi : Val) :
  Py.lookup "qse_algorithm" (globals s) = Some (VObj q) ->
  Py.lookup "quantum_instance" (globals s) = Some qi ->
  Py.lookup "molecule" (globals s) = Some (VObj h) ->
  Py.lookup "print" (globals s) = None ->
  fst (lib (libst (world s)) (Method "run") [VObj q; qi] []) = Ok (VDict d) ->
  Py.lookup "eigvals" d = Some (VArray (map VFloat fs)) ->
  (forall st, fst (lib st (GetAttr "nuclear_repulsion_energy") [VObj h] [])
              = Ok (VFloat x)) ->
  exists r : Result Val,
    log (world (snd (exec_block lib excited_states_report s)))
    = (log (world s)
         ++ [EvCall (Method "run") [VObj q; qi] [] (Ok (VDict d));
             EvCall (GetAttr "nuclear_repulsion_energy") [VObj h] [] (Ok (VFloat x));
             EvCall (Method "__str__")
                    [VArray (map (fun f => VFloat (PyFloat.add f x)) fs)] [] r]
         ++ excited_states_line r)%list.
Proof.
  intros Hqse Hqi Hmol Hprint Hrun Heig Hnre.
  unfold excited_states_report. simpl skipn. simpl exec_block. run.
  repeat first
    [ lookups
    | progress (unfold lib_call)
    | rewrite Heig
    | progress simpl
    | match goal with
      | |- context [lib ?st (Method "run") ?a ?k] =>
          let E := fresh "E" in
          destruct (lib st (Method "run") a k) as [[?|?] ?] eqn:E;
          simpl in Hrun; first [discriminate Hrun | injection Hrun as ->]
      | |- context [lib ?st (GetAttr ?n) ?a ?k] =>
          let E := fresh "E" in
          destruct (lib st (GetAttr n) a k) as [[?|?] ?] eqn:E;
          let X := fresh in
          pose proof (Hnre st) as X; rewrite E in X; simpl in X;
          first [discriminate X | injection X as ->]
      end ].
  unfold binop. simpl is_obj. cbv iota. unfold lift. rewrite shift_array.
  unfold call_builtin, print. simpl. run. simpl.
  repeat first
    [ progress (unfold lib_call, to_str)
    | progress run
    | progress simpl
    | match goal with
      | |- context [lib ?st ?c ?a ?k] =>
          let E := fresh "E" in
          destruct (lib st c a k) as [[[]|?] ?] eqn:E
      end ].
  all: match goal with
       | E : lib _ (Method "__str__") _ _ = (?r, _) |- _ => exists r
       end; rewrite <- !app_assoc; simpl; rewrite ?append_empty; reflexivity.
Qed.

End Energies.

(** C8. Both energies the QSE notebook reports are eigenvalues shifted
    by the molecule's nuclear repulsion energy.  When the first element
    of the VQE result's eigenvalue array is the complex number
    [re + im j] and the nuclear repulsion energy is [x], the seventh
    cell prints "GS Minimum value: " followed by the float [re + x]
    (the imaginary part plays no role).  When the QSE result's
    eigenvalue array holds the floats [fs], the eighth cell has numpy
    render the array of the [f + x], one for each [f] of [fs] in order,
    and prints that rendering after "Excited State Energies: ". *)
Theorem reported_energies_are_shifted :
  forall (L : Type) (lib : Library L) (s7 s8 : State L)
         (d7 d8 : list (string * Val)) (re im x : PyFloat.t) (rest : list Val)
         (fs : list PyFloat.t) (h q : N) (qi : Val),
    Py.lookup "results" (globals s7) = Some (VDict d7) ->
    Py.lookup "eigvals" d7 = Some (VArray (VComplex re im :: rest)) ->
    Py.lookup "molecule" (globals s7) = Some (VObj h) ->
    Py.lookup "print" (globals s7) = None ->
    Py.lookup "qse_algorithm" (globals s8) = Some (VObj q) ->
    Py.lookup "quantum_instance" (globals s8) = Some qi ->
    Py.lookup "molecule" (globals s8) = Some (VObj h) ->
    Py.lookup "print" (globals s8) = None ->
    fst (lib (libst (world s8)) (Method "run") [VObj q; qi] []) = Ok (VDict d8) ->
    Py.lookup "eigvals" d8 = Some (VArray (map VFloat fs)) ->
    (forall st, fst (lib st (GetAttr "nuclear_repulsion_energy") [VObj h] [])
                = Ok (VFloat x)) ->
    (fst (exec_block lib ground_state_report s7) = Ok tt
     /\ log (world (snd (exec_block lib ground_state_report s7)))
        = (log (world s7)
             ++ [EvCall (GetAttr "nuclear_repulsion_energy") [VObj h] [] (Ok (VFloat x));
                 EvPrint ("GS Minimum value: "
                            ++ PyRepr.float_repr (PyFloat.add re x))])%list)
    /\ exists r : Result Val,
        log (world (snd (exec_block lib excited_states_report s8)))
        = (log (world s8)
             ++ [EvCall (Method "run") [VObj q; qi] [] (Ok (VDict d8));
                 EvCall (GetAttr "nuclear_repulsion_energy") [VObj h] [] (Ok (VFloat x));
                 EvCall (Method "__str__")
                        [VArray (map (fun f => VFloat (PyFloat.add f x)) fs)] [] r]
             ++ excited_states_line r)%list.
Proof.
  intros L lib s7 s8 d7 d8 re im x rest fs h q qi
         Hres Heig7 Hmol7 Hprint7 Hqse Hqi Hmol8 Hprint8 Hrun Heig8 Hnre.
  split.
  - now apply (ground_state_reported lib s7 d7 re im x rest h).
  - now apply (excited_states_reported lib s8 d8 fs x q h qi).
Qed.

(** The stand-in run: the electronic ground-state energy
    -1.8921568982 and the nuclear repulsion energy 0.7559674441714287
    are printed as -1.1361894540285715. *)
Lemma reported_energies_are_shifted_witness :
  log (world (snd (exec_block Demo.lib ground_state_report
                     qse_before_ground_state_report)))
  = (log (world qse_before_ground_state_report)
       ++ [EvCall (GetAttr "nuclear_repulsion_energy") [VObj 6] []
                  (Ok (VFloat (PyFloat.of_decimal 7559674441714287 16)));
           EvPrint "GS Minimum value: -1.1361894540285715"])%list.
Proof.
  assert (E : "GS Minimum value: -1.1361894540285715"
              = "GS Minimum value: "
                  ++ PyRepr.float_repr
                       (PyFloat.add (PyFloat.of_decimal (-18921568982) 10)
                                    (PyFloat.of_decimal 7559674441714287 16))).
  { vm_compute. reflexivity. }
  rewrite E.
  apply (reported_energies_are_shifted _ Demo.lib
           qse_before_ground_state_report qse_before_excited_states_report
           [("eigvals", VArray [VComplex (PyFloat.of_decimal (-18921568982) 10)
                                         (S754_zero false)]);
            ("opt_params", VArray [Demo.f 0 0; Demo.f 0 0; Demo.f (-1050) 4])]
           [("eigvals", VArray [Demo.f (-18921) 4; Demo.f (-12561) 4; Demo.f (-8824) 4])]
           (PyFloat.of_decimal (-18921568982) 10) (S754_zero false)
           (PyFloat.of_decimal 7559674441714287 16) []
           [PyFloat.of_decimal (-18921) 4; PyFloat.of_decimal (-12561) 4;
            PyFloat.of_decimal (-8824) 4]
           6%N 15%N (VObj 3)).
  - vm_compute. reflexivity.
  - reflexivity.
  - vm_compute. reflexivity.
  - vm_compute. reflexivity.
  - vm_compute. reflexivity.
  - vm_compute. reflexivity.
  - vm_compute. reflexivity.
  - vm_compute. reflexivity.
  - vm_compute. reflexivity.
  - reflexivity.
  - intro st. reflexivity.
Defined.

(** ** The QSE notebook: the driver's configuration *)

Lemma bond_length_text : PyRepr.float_repr (PyFloat.of_decimal 7 1) = "0.7".
Proof. vm_compute. reflexivity. Qed.

Section Config.

Context {L : Type}.
Variable lib : Library L.

Local Arguments PyRepr.float_repr : simpl never.
Local Arguments PyFloat.of_decimal : simpl never.
Local Arguments Py.fill : simpl never.
Local Arguments format : simpl never.

Lemma geometry_from_template (s : State L) :
  format lib "H .0 .0 .0; H .0 .0 {}" [VFloat (PyFloat.of_decimal 7 1)] s
  = (Ok (VStr "H .0 .0 .0; H .0 .0 0.7"), s).
Proof. vm_compute. reflexivity. Qed.

Lemma config_after_cell4 (st : L) (s0 : State L) :
  run lib (firstn 4 QSE.notebook) st = (Ok tt, s0) ->
  Py.lookup "bond_length" (globals s0) = Some (VFloat (PyFloat.of_decimal 7 1))
  /\ Py.lookup "base_molecule_str" (globals s0) = Some (VStr "H .0 .0 .0; H .0 .0 {}")
  /\ Py.lookup "charge" (globals s0) = Some (VInt 0)
  /\ Py.lookup "spin" (globals s0) = Some (VInt 0)
  /\ Py.lookup "basis" (globals s0) = Some (VStr "sto3g").
Proof.
  unfold run, fresh. simpl firstn. simpl run_cells. run.
  repeat first
    [ lookups
    | progress (unfold lib_call)
    | progress simpl
    | lib_case lib; dead
    | match goal with
      | |- context [call_method lib ?v _ _ _ _] => is_var v; destruct v; dead
      end ].
  all: intro X; injection X as <-; simpl; repeat split; reflexivity.
Qed.

Lemma config_in_cell5 (s0 s1 : State L) :
  Py.lookup "bond_length" (globals s0) = Some (VFloat (PyFloat.of_decimal 7 1)) ->
  Py.lookup "base_molecule_str" (globals s0) = Some (VStr "H .0 .0 .0; H .0 .0 {}") ->
  Py.lookup "charge" (globals s0) = Some (VInt 0) ->
  Py.lookup "spin" (globals s0) = Some (VInt 0) ->
  Py.lookup "basis" (globals s0) = Some (VStr "sto3g") ->
  exec_block lib (firstn 4 QSE.cell5) s0 = (Ok tt, s1) ->
  Py.lookup "pyscf_cfg" (globals s1) = Some h2_config
  /\ Py.lookup "base_molecule_str" (globals s1) = Some (VStr "H .0 .0 .0; H .0 .0 {}")
  /\ Py.lookup "bond_length" (globals s1) = Some (VFloat (PyFloat.of_decimal 7 1))
  /\ exists d, Py.lookup "driver" (globals s1) = Some d.
Proof.
  intros Hb Ht Hc Hs Hbs.
  simpl firstn. simpl exec_block. run.
  repeat first
    [ lookups
    | progress (unfold lib_call)
    | rewrite geometry_from_template
    | progress simpl
    | lib_case lib; dead
    | match goal with
      | |- context [call_method lib ?v _ _ _ _] => is_var v; destruct v; dead
      end ].
  all: intro X; injection X as <-; simpl; look; rewrite ?Ht, ?Hb; repeat split; eauto.
Qed.

Lemma config_before_driver_run (st : L) (s0 s1 : State L) :
  run lib (firstn 4 QSE.notebook) st = (Ok tt, s0) ->
  exec_block lib (firstn 4 QSE.cell5) s0 = (Ok tt, s1) ->
  Py.lookup "pyscf_cfg" (globals s1) = Some h2_config
  /\ Py.lookup "base_molecule_str" (globals s1) = Some (VStr "H .0 .0 .0; H .0 .0 {}")
  /\ Py.lookup "bond_length" (globals s1) = Some (VFloat (PyFloat.of_decimal 7 1))
  /\ exists d, Py.lookup "driver" (globals s1) = Some d.
Proof.
  intros H0 H1.
  destruct (config_after_cell4 st s0 H0) as (Hb & Ht & Hc & Hs & Hbs).
  now apply (config_in_cell5 s0 s1).
Qed.

Lemma driver_run_call (s1 : State L) (d cfg : Val) :
  Py.lookup "driver" (globals s1) = Some d ->
  Py.lookup "pyscf_cfg" (globals s1) = Some cfg ->
  exec lib driver_run s1
  = (m <- call_method lib d "run" (Some "driver") [VDict [("properties", cfg)]] [] ;;
     assign "molecule" m) s1.
Proof.
  intros Hd Hc. unfold driver_run. simpl nth. simpl exec. run.
  rewrite Hd. simpl. rewrite Hc. reflexivity.
Qed.


End Config.

(** C6. Whenever a run of the QSE notebook reaches the call of the
    classical chemistry driver, the dictionary [pyscf_cfg] it has built
    consists exactly of the geometry 'H .0 .0 .0; H .0 .0 0.7', the
    unit 'Angstrom', charge 0, spin 0 and basis 'sto3g'; the geometry
    is the H2 template 'H .0 .0 .0; H .0 .0 {}' (the template bound to
    [base_molecule_str]) with the bond length 0.7 substituted; and the
    statement [molecule = driver.run({'properties': pyscf_cfg})] calls
    [run] of the driver with that dictionary under the key
    'properties' as its only argument. *)
Theorem driver_configuration :
  forall (L : Type) (lib : Library L) (st : L) (s0 s1 : State L),
    run lib (firstn 4 QSE.notebook) st = (Ok tt, s0) ->
    exec_block lib (firstn 4 QSE.cell5) s0 = (Ok tt, s1) ->
    Py.lookup "pyscf_cfg" (globals s1) = Some h2_config
    /\ Py.lookup "base_molecule_str" (globals s1)
       = Some (VStr "H .0 .0 .0; H .0 .0 {}")
    /\ Py.lookup "bond_length" (globals s1) = Some (VFloat (PyFloat.of_decimal 7 1))
    /\ format lib "H .0 .0 .0; H .0 .0 {}" [VFloat (PyFloat.of_decimal 7 1)] s1
       = (Ok (VStr "H .0 .0 .0; H .0 .0 0.7"), s1)
    /\ exists d : Val,
        Py.lookup "driver" (globals s1) = Some d
        /\ exec lib driver_run s1
           = (m <- call_method lib d "run" (Some "driver")
                     [VDict [("properties", h2_config)]] [] ;;
              assign "molecule" m) s1
        /\ forall h : N,
            d = VObj h ->
            log (world (snd (exec lib driver_run s1)))
            = (log (world s1)
                 ++ [EvCall (Method "run")
                            [VObj h; VDict [("properties", h2_config)]] []
                            (fst (lib (libst (world s1)) (Method "run")
                                      [VObj h; VDict [("properties", h2_config)]]
                                      []))])%list.
Proof.
  intros L lib st s0 s1 H0 H1.
  destruct (config_before_driver_run lib st s0 s1 H0 H1) as (Hc & Ht & Hb & d & Hd).
  split; [exact Hc|]. split; [exact Ht|]. split; [exact Hb|].
  split; [apply geometry_from_template|].
  exists d. split; [exact Hd|]. split; [now apply driver_run_call|].
  intros h ->. rewrite (driver_run_call lib s1 (VObj h) h2_config Hd Hc).
  simpl. run. unfold lib_call.
  destruct (lib _ _ _ _) as [[m|e] st']; reflexivity.
Qed.

(** The stand-in run up to the driver call. *)
Lemma driver_configuration_witness :
  Py.lookup "pyscf_cfg"
    (globals (snd (exec_block Demo.lib (firstn 4 QSE.cell5)
                     (snd (run Demo.lib (firstn 4 QSE.notebook) Demo.init)))))
  = Some h2_config.
Proof.
  apply (driver_configuration _ Demo.lib Demo.init
           (snd (run Demo.lib (firstn 4 QSE.notebook) Demo.init))
           (snd (exec_block Demo.lib (firstn 4 QSE.cell5)
                   (snd (run Demo.lib (firstn 4 QSE.notebook) Demo.init))))).
  - vm_compute. reflexivity.
  - vm_compute. reflexivity.
Defined.

(** ** Names are defined before they are used *)

Section ArrayInduction.

Variable P : Val -> Prop.
Hypothesis Hother : forall v, Py.is_array v = false -> P v.
Hypothesis Harray : forall l, Forall P l -> P (VArray l).

Fixpoint Val_array_ind (v : Val) : P v :=
  match v with
  | VArray l =>
      Harray l
        ((fix go (l : list Val) : Forall P l :=
            match l with
            | [] => Forall_nil _
            | x :: l' => Forall_cons _ (Val_array_ind x) (go l')
            end) l)
  | VNone => Hother VNone eq_refl
  | VBool b => Hother (VBool b) eq_refl
  | VInt z => Hother (VInt z) eq_refl
  | VFloat x => Hother (VFloat x) eq_refl
  | VComplex r i => Hother (VComplex r i) eq_refl
  | VStr s => Hother (VStr s) eq_refl
  | VList l => Hother (VList l) eq_refl
  | VTuple l => Hother (VTuple l) eq_refl
  | VDict d => Hother (VDict d) eq_refl
  | VRange n => Hother (VRange n) eq_refl
  | VRef p => Hother (VRef p) eq_refl
  | VObj h => Hother (VObj h) eq_refl
  end.

End ArrayInduction.

Lemma quiet_ok (A : Type) (a : A) : quiet (Ok a).
Proof. intros x H. discriminate H. Qed.

Lemma quiet_raise (A B : Type) (e : Exn) :
  quiet (@Raise A e) -> quiet (@Raise B e).
Proof. intros H x Hx. injection Hx as ->. now apply (H x). Qed.

Lemma quiet_num_binop op a b : quiet (Py.num_binop op a b).
Proof.
  intros x. destruct op, a, b; simpl; try discriminate;
    repeat match goal with
           | |- context [if ?c then _ else _] => destruct c
           end; discriminate.
Qed.

Lemma quiet_seq_binop op a b : quiet (Py.seq_binop op a b).
Proof. intros x. destruct op, a, b; simpl; discriminate. Qed.

Lemma quiet_scalar_binop op a b : quiet (Py.scalar_binop op a b).
Proof.
  unfold Py.scalar_binop.
  destruct (Py.as_num a); [destruct (Py.as_num b)|];
    auto using quiet_num_binop, quiet_seq_binop.
Qed.

Lemma quiet_collect (A : Type) (rs : list (Result A)) :
  Forall quiet rs -> quiet (Py.collect rs).
Proof.
  induction 1 as [|r rs Hr _ IH]; simpl; [apply quiet_ok|].
  destruct r as [a|e].
  - destruct (Py.collect rs) as [l|e]; [apply quiet_ok|].
    intros x H. apply (IH x). exact H.
  - intros x H. injection H as ->. now apply (Hr x).
Qed.

Lemma quiet_elem_scalar op swap a s : quiet (Py.elem_scalar op swap a s).
Proof.
  induction a using Val_array_ind.
  - destruct a; try discriminate; simpl;
      destruct swap; apply quiet_scalar_binop.
  - simpl.
    assert (Hq : quiet (Py.collect (map (fun x => Py.elem_scalar op swap x s) l))).
    { apply quiet_collect. apply Forall_map. exact H. }
    destruct (Py.collect _) as [l'|e]; [apply quiet_ok|].
    exact (quiet_raise _ _ _ Hq).
Qed.

Lemma quiet_elem_elem op a : forall b, quiet (Py.elem_elem op a b).
Proof.
  induction a using Val_array_ind; intro b.
  - destruct a; try discriminate; destruct b;
      solve [ exact (quiet_scalar_binop op _ _)
            | exact (quiet_elem_scalar op true _ _) ].
  - destruct b; try exact (quiet_elem_scalar op false _ _).
    simpl. revert l0.
    induction H as [|a l1 Ha _ IH]; intros [|b l2]; simpl;
      try (intros x Hx; discriminate Hx).
    specialize (Ha b). specialize (IH l2).
    destruct (Py.elem_elem op a b) as [v|e]; [|exact (quiet_raise _ _ _ Ha)].
    match goal with
    | |- context [match ?t with Ok l3 => Ok (_ :: l3) | Raise e => Raise e end] =>
        destruct t as [l3|e]
    end; [apply quiet_ok | exact IH].
Qed.

Lemma quiet_binop op a b : quiet (Py.binop op a b).
Proof.
  unfold Py.binop. destruct (_ || _)%bool;
    [apply quiet_elem_elem | apply quiet_scalar_binop].
Qed.

Lemma quiet_neg a : quiet (Py.neg a).
Proof.
  destruct a; try (intros y H; discriminate H).
  exact (quiet_elem_scalar Py.Mul false _ _).
Qed.

Lemma quiet_iterate v : quiet (Py.iterate v).
Proof. destruct v; intros y H; discriminate H. Qed.

Lemma quiet_len v : quiet (Py.len v).
Proof. destruct v; intros y H; discriminate H. Qed.

Lemma quiet_enumerate v : quiet (Py.enumerate v).
Proof.
  unfold Py.enumerate. pose proof (quiet_iterate v) as H.
  destruct (Py.iterate v); [apply quiet_ok | exact (quiet_raise _ _ _ H)].
Qed.

Lemma quiet_index l i : quiet (Py.index l i).
Proof.
  unfold Py.index. intros x.
  destruct (_ && _)%bool; [destruct (nth_error _ _)|]; discriminate.
Qed.

Lemma quiet_subscript v i : quiet (Py.subscript v i).
Proof.
  destruct v; try (intros y H; discriminate H);
    destruct i; simpl; try (intros y H; discriminate H); try apply quiet_index.
  intros y. destruct (Py.lookup s d); discriminate.
Qed.

Lemma quiet_data_attr v a : quiet (Py.data_attr v a).
Proof.
  intros x. destruct v; simpl;
    repeat match goal with
           | |- context [if ?c then _ else _] => destruct c
           end; discriminate.
Qed.

Lemma quiet_fill_bounded (n : nat) :
  forall t args, (String.length t <= n)%nat -> quiet (Py.fill t args).
Proof.
  induction n as [|n IH]; intros t args Hn.
  - destruct t; [apply quiet_ok | simpl in Hn; lia].
  - destruct t as [|c t]; [apply quiet_ok|].
    simpl in Hn.
    assert (Hrec : forall t' args', (String.length t' <= n)%nat ->
                                    forall x, match Py.fill t' args' with
                                              | Ok s => Ok (String c s)
                                              | Raise e => Raise e
                                              end <> Raise (NameError x)).
    { intros t' args' Ht x. specialize (IH t' args' Ht x).
      destruct (Py.fill t' args'); [discriminate | exact IH]. }
    intros x.
    destruct (Ascii.eqb c "{") eqn:Eo.
    + apply Ascii.eqb_eq in Eo. subst c.
      destruct t as [|c' t']; [discriminate|].
      destruct (Ascii.eqb c' "}") eqn:Ec.
      * apply Ascii.eqb_eq in Ec. subst c'. simpl.
        destruct args as [|a args]; [discriminate|].
        assert (Hq : quiet (Py.fill t' args)).
        { apply IH. simpl in Hn. lia. }
        specialize (Hq x). destruct (Py.fill t' args); [discriminate | exact Hq].
      * destruct c' as [[] [] [] [] [] [] [] []]; try discriminate Ec; discriminate.
    + destruct (Ascii.eqb c "}") eqn:Ec.
      * apply Ascii.eqb_eq in Ec. subst c. discriminate.
      * destruct c as [[] [] [] [] [] [] [] []];
          try discriminate Eo; try discriminate Ec;
          apply (Hrec t args); lia.
Qed.

Lemma quiet_fill t args : quiet (Py.fill t args).
Proof. apply (quiet_fill_bounded (String.length t)). lia. Qed.

(** ** Name safety of the interpreter's steps *)

Lemma mem_app (x : string) (l1 l2 : list string) :
  mem x (l1 ++ l2) = mem x l1 || mem x l2.
Proof. unfold mem. apply existsb_app. Qed.

Section NameSafety.

Context {L : Type}.
Variable lib : Library L.

Lemma keeps_refl (s : State L) : keeps s s.
Proof. intros y H. exact H. Qed.

Lemma keeps_globals (s s' : State L) : globals s' = globals s -> keeps s s'.
Proof. intros E y H. now rewrite E. Qed.

Lemma covers_globals (D : list string) (s s' : State L) :
  globals s' = globals s -> covers D s -> covers D s'.
Proof. intros E H x Hx. rewrite E. now apply H. Qed.

Lemma keeps_trans (s1 s2 s3 : State L) : keeps s1 s2 -> keeps s2 s3 -> keeps s1 s3.
Proof. intros H1 H2 y H. apply H2, H1, H. Qed.

Lemma covers_keeps (D : list string) (s s' : State L) :
  covers D s -> keeps s s' -> covers D s'.
Proof. intros H Hk x Hx. apply Hk, H, Hx. Qed.

Lemma covers_app (D1 D2 : list string) (s : State L) :
  covers D1 s -> covers D2 s -> covers (D1 ++ D2) s.
Proof.
  intros H1 H2 x Hx. rewrite mem_app in Hx.
  apply orb_true_iff in Hx as [Hx|Hx]; [now apply H1 | now apply H2].
Qed.

Lemma covers_nil (s : State L) : covers [] s.
Proof. intros x Hx. discriminate Hx. Qed.

Lemma bind_ok (A B : Type) (m : M L A) (k : A -> M L B) s a s1 :
  m s = (Ok a, s1) -> bind m k s = k a s1.
Proof. intro E. unfold bind. now rewrite E. Qed.

Lemma bind_raise (A B : Type) (m : M L A) (k : A -> M L B) s e s1 :
  m s = (Raise e, s1) -> bind m k s = (Raise e, s1).
Proof. intro E. unfold bind. now rewrite E. Qed.

Lemma name_safe_ret D (A : Type) (a : A) : name_safe (L := L) D D A (ret a).
Proof.
  intros s Hs. simpl. split; [discriminate|]. split; [apply keeps_refl|auto].
Qed.

Lemma name_safe_lift D (A : Type) (r : Result A) :
  quiet r -> name_safe (L := L) D D A (lift r).
Proof.
  intros Hr s Hs. simpl. split; [|split; [apply keeps_refl|auto]].
  intros x Hx. now destruct (Hr x).
Qed.

Lemma name_safe_raise D D' (A : Type) (e : Exn) :
  (forall x, e <> NameError x) -> name_safe (L := L) D D' A (raise e).
Proof.
  intros He s Hs. simpl. split; [|split; [apply keeps_refl|discriminate]].
  intros x Hx. injection Hx as ->. now destruct (He x).
Qed.

(** A step can be used where more names are bound, and promises any
    part of what it binds. *)
Lemma name_safe_sub D D' E E' (A : Type) (m : M L A) :
  (forall x, mem x D = true -> mem x E = true) ->
  (forall x, mem x E' = true -> mem x D' = true) ->
  name_safe D D' A m -> name_safe E E' A m.
Proof.
  intros Hpre Hpost Hm s Hs.
  destruct (Hm s) as (Hn & Hkeep & Hp).
  { intros x Hx. apply Hs, Hpre, Hx. }
  split; [exact Hn|]. split; [exact Hkeep|].
  intros a Ha x Hx. apply (Hp a Ha), Hpost, Hx.
Qed.

Lemma name_safe_bind D D1 D2 (A B : Type) (m : M L A) (k : A -> M L B) :
  name_safe D D1 A m -> (forall a, name_safe D1 D2 B (k a)) ->
  name_safe D D2 B (bind m k).
Proof.
  intros Hm Hk s Hs. destruct (Hm s Hs) as (Hn & Hkeep & Hpost).
  unfold bind. destruct (m s) as [[a|e] s1]; simpl in *.
  - destruct (Hk a s1 (Hpost a eq_refl)) as (Hn' & Hkeep' & Hpost').
    split; [exact Hn'|]. split; [|exact Hpost'].
    now apply keeps_trans with s1.
  - split; [|split; [exact Hkeep | discriminate]].
    intros x Hx. apply Hn. injection Hx as ->. reflexivity.
Qed.

(** What a step guarantees on return can be forgotten down to what was
    bound before it. *)
Lemma name_safe_forget D D' (A : Type) (m : M L A) :
  name_safe D D' A m -> name_safe D D A m.
Proof.
  intros Hm s Hs. destruct (Hm s Hs) as (Hn & Hkeep & _).
  split; [exact Hn|]. split; [exact Hkeep|].
  intros _ _. now apply covers_keeps with s.
Qed.

Lemma name_safe_both D D1 D2 (A : Type) (m : M L A) :
  name_safe D D1 A m -> name_safe D D2 A m -> name_safe D (D1 ++ D2) A m.
Proof.
  intros H1 H2 s Hs. destruct (H1 s Hs) as (Hn & Hkeep & Hp1).
  destruct (H2 s Hs) as (_ & _ & Hp2).
  split; [exact Hn|]. split; [exact Hkeep|].
  intros a Ha. apply covers_app; eauto.
Qed.

Lemma name_safe_catch D D1 D2 (A : Type) (m h : M L A) :
  name_safe D D1 A m -> name_safe D D2 A h -> name_safe D D A (catch m h).
Proof.
  intros Hm Hh s Hs. destruct (Hm s Hs) as (Hn & Hkeep & Hpost).
  unfold catch. destruct (m s) as [[a|e] s1]; simpl in *.
  - split; [discriminate|]. split; [exact Hkeep|].
    intros _ _. now apply covers_keeps with s.
  - assert (Hs1 : covers D s1) by now apply covers_keeps with s.
    destruct (Hh s1 Hs1) as (Hn' & Hkeep' & Hpost').
    split; [exact Hn'|]. split; [now apply keeps_trans with s1|].
    intros _ _. apply covers_keeps with s1; assumption.
Qed.

Lemma name_safe_call D c args kwargs :
  name_safe D D Val (lib_call lib c args kwargs).
Proof.
  intros s Hs. unfold lib_call.
  destruct (lib (libst (world s)) c args kwargs) as [r st]; simpl.
  split; [|split; [now apply keeps_globals | intros _ _; now apply covers_globals with s]].
  intros x ->. now exists (log (world s)), c, args, kwargs.
Qed.

Lemma name_safe_emit D ev : name_safe (L := L) D D unit (emit ev).
Proof.
  intros s Hs. simpl. split; [discriminate|].
  split; [now apply keeps_globals | intros _ _; now apply covers_globals with s].
Qed.

Lemma name_safe_lookup D x : name_safe (L := L) D D (option Val) (lookup_name x).
Proof.
  intros s Hs. simpl. split; [discriminate|]. split; [apply keeps_refl|auto].
Qed.

Lemma keeps_assign x v (s : State L) : keeps s (snd (assign x v s)).
Proof.
  intros y Hy. simpl. rewrite lookup_update.
  destruct (String.eqb y x); [discriminate | exact Hy].
Qed.

Lemma name_safe_assign D x v : name_safe (L := L) D ([x] ++ D) unit (assign x v).
Proof.
  intros s Hs. split; [discriminate|]. split; [apply keeps_assign|].
  intros _ _. apply covers_app.
  - intros y Hy. simpl in Hy. rewrite orb_false_r in Hy.
    apply String.eqb_eq in Hy. subst y. simpl. now rewrite lookup_update_eq.
  - apply covers_keeps with s; [exact Hs | apply keeps_assign].
Qed.

Lemma name_safe_map_m D (A B : Type) (f : A -> M L B) (l : list A) :
  (forall a, name_safe D D B (f a)) -> name_safe D D (list B) (map_m f l).
Proof.
  intro Hf. induction l as [|a l IH]; simpl.
  - apply name_safe_ret.
  - apply name_safe_bind with D; [apply Hf|]. intro b.
    apply name_safe_bind with D; [apply IH|]. intro bs. apply name_safe_ret.
Qed.

Local Ltac step :=
  first [ apply name_safe_ret
        | apply name_safe_call
        | apply name_safe_emit
        | apply name_safe_lookup
        | apply name_safe_raise; discriminate
        | apply name_safe_lift;
          first [ apply quiet_binop | apply quiet_neg | apply quiet_iterate
                | apply quiet_len | apply quiet_enumerate | apply quiet_subscript
                | apply quiet_data_attr | apply quiet_fill ]
        | eapply name_safe_bind; [ | intro ] ].

Lemma name_safe_getattr D v a : name_safe D D Val (getattr lib v a).
Proof. destruct v; unfold getattr; step. Qed.

Lemma name_safe_subscript D v i : name_safe D D Val (subscript lib v i).
Proof. unfold subscript. destruct (is_obj v); step. Qed.

Lemma name_safe_binop D op a b : name_safe D D Val (binop lib op a b).
Proof. unfold binop. destruct (is_obj a); [step|]. destruct (is_obj b); step. Qed.

Lemma name_safe_neg D a : name_safe D D Val (neg lib a).
Proof. unfold neg. destruct (is_obj a); step. Qed.

Lemma name_safe_iterate D v : name_safe D D (list Val) (iterate lib v).
Proof. unfold iterate. destruct (is_obj v); [|step]. step; step. Qed.

Lemma name_safe_len D v : name_safe D D Val (len lib v).
Proof. unfold len. destruct (is_obj v); step. Qed.

Lemma name_safe_to_str D v : name_safe D D string (to_str lib v).
Proof.
  unfold to_str. destruct (Py.str v); [step|].
  step; [step|]. destruct a; step.
Qed.

Lemma name_safe_print D args : name_safe D D Val (print lib args).
Proof.
  unfold print. step; [apply name_safe_map_m, name_safe_to_str|].
  step; step.
Qed.

Lemma name_safe_format D t args : name_safe D D Val (format lib t args).
Proof.
  unfold format. step; [apply name_safe_map_m, name_safe_to_str|].
  step; step.
Qed.

Lemma name_safe_call_value D v args kwargs :
  name_safe D D Val (call_value lib v args kwargs).
Proof. destruct v; simpl; step. Qed.

Lemma pure_builtin_cases f :
  mem f pure_builtins = true ->
  f = "print" \/ f = "len" \/ f = "range" \/ f = "enumerate".
Proof.
  unfold mem, pure_builtins. simpl. rewrite orb_false_r.
  intro H. repeat (apply orb_true_iff in H as [H|H]);
    apply String.eqb_eq in H; auto.
Qed.

Lemma name_safe_call_builtin D f args kwargs :
  mem f pure_builtins || mem f runtime_builtins = true ->
  name_safe D D Val (call_builtin lib f args kwargs).
Proof.
  intro H. unfold call_builtin.
  destruct (mem f runtime_builtins); [step|].
  rewrite orb_false_r in H.
  destruct kwargs; [|step].
  destruct (String.eqb f "print") eqn:Ep; [apply name_safe_print|].
  destruct args as [|v [|w args]];
    try (destruct (String.eqb f "range"); step).
  destruct (String.eqb f "len") eqn:El; [apply name_safe_len|].
  destruct (String.eqb f "range") eqn:Er; [destruct v; step|].
  destruct (String.eqb f "enumerate") eqn:Ee.
  - step; [apply name_safe_iterate | step].
  - exfalso. destruct (pure_builtin_cases f H) as [E|[E|[E|E]]]; subst f; discriminate.
Qed.

Lemma name_safe_call_data_method D r m var args kwargs :
  name_safe D D Val (call_data_method lib r m var args kwargs).
Proof.
  unfold call_data_method.
  assert (Hattr : forall v, name_safe (L := L) D D Val
                              match Py.data_attr v m with
                              | Ok _ => raise TypeError
                              | Raise e => raise e
                              end).
  { intro v. pose proof (quiet_data_attr v m) as Hq.
    destruct (Py.data_attr v m); [step|].
    apply name_safe_raise. intros x ->. now apply (Hq x). }
  destruct r; try apply Hattr.
  - destruct kwargs; [|apply Hattr].
    destruct (String.eqb m "format"); [apply name_safe_format | step].
  - destruct kwargs; [|apply Hattr].
    destruct (String.eqb m "append"); [|step].
    destruct var as [x|]; [|step].
    destruct args as [|v [|w args]]; [step | | step].
    eapply name_safe_bind; [apply name_safe_forget with ([x] ++ D)%list, name_safe_assign|].
    intro. step.
Qed.

Lemma name_safe_call_method D r m var args kwargs :
  name_safe D D Val (call_method lib r m var args kwargs).
Proof.
  destruct r; try apply name_safe_call_data_method; simpl; step.
Qed.

Lemma name_safe_assign_each xs : forall D vs,
  name_safe (L := L) D (xs ++ D) unit (assign_each xs vs).
Proof.
  induction xs as [|x xs IH]; intros D [|v vs]; simpl;
    try (apply name_safe_raise; discriminate).
  - apply name_safe_ret.
  - apply name_safe_bind with ([x] ++ D)%list; [apply name_safe_assign|].
    intro.
    apply name_safe_sub with (D := ([x] ++ D)%list) (D' := (xs ++ [x] ++ D)%list);
      [auto | | apply IH].
    intros y Hy. change (x :: xs ++ D)%list with ([x] ++ xs ++ D)%list in Hy.
    rewrite !mem_app in *.
    destruct (mem y [x]), (mem y xs), (mem y D); auto.
Qed.

Lemma name_safe_bind_targets D xs v :
  name_safe D (xs ++ D) unit (bind_targets lib xs v).
Proof.
  unfold bind_targets.
  assert (Hgen : name_safe D (xs ++ D) unit
                   (vs <- iterate lib v ;;
                    if (List.length xs =? List.length vs)%nat
                    then assign_each xs vs else raise ValueError)).
  { apply name_safe_bind with D; [apply name_safe_iterate|]. intro vs.
    destruct (_ =? _)%nat; [apply name_safe_assign_each|].
    apply name_safe_raise. discriminate. }
  destruct xs as [|x [|y xs]]; try exact Hgen.
  apply name_safe_assign.
Qed.

(** Putting the targets of a comprehension back keeps what was bound
    before it. *)
Lemma restore_all old targets : forall s1 : State L,
  (forall y, Py.lookup y old <> None -> Py.lookup y (globals s1) <> None) ->
  exists us s2,
    map_m (restore old) targets s1 = (Ok us, s2)
    /\ world s2 = world s1
    /\ forall y, Py.lookup y old <> None -> Py.lookup y (globals s2) <> None.
Proof.
  induction targets as [|x ts IH]; intros s1 H1; simpl.
  - now exists [], s1.
  - destruct (IH (snd (restore old x s1))) as (us & s2 & E & Hw & Hk).
    { simpl. intros y Hy. destruct (Py.lookup x old) eqn:Ex.
      - rewrite lookup_update. destruct (String.eqb y x); [discriminate|auto].
      - rewrite lookup_remove_neq; [auto|].
        destruct (String.eqb y x) eqn:Eyx; [|reflexivity].
        apply String.eqb_eq in Eyx. subst y. now elim Hy. }
    exists (tt :: us), s2. unfold bind.
    change (restore old x s1) with (Ok tt, snd (restore old x s1)).
    cbv iota beta. rewrite E. auto.
Qed.

Lemma name_safe_comprehension D targets (iter elt : M L Val) :
  name_safe D D Val iter ->
  name_safe (targets ++ D) (targets ++ D) Val elt ->
  name_safe D D Val
    (it <- iter ;;
     vs <- iterate lib it ;;
     old <- get_globals ;;
     rs <- map_m (fun v => bind_targets lib targets v ;; elt) vs ;;
     map_m (restore old) targets ;;
     ret (VList rs)).
Proof.
  intros Hiter Helt.
  apply name_safe_bind with D; [exact Hiter|]. intro it.
  apply name_safe_bind with D; [apply name_safe_iterate|]. intro vs.
  intros s Hs. rewrite (bind_ok _ _ get_globals _ s (globals s) s eq_refl).
  assert (Hloop : name_safe D D (list Val)
                    (map_m (fun v => bind_targets lib targets v ;; elt) vs)).
  { apply name_safe_map_m. intro v.
    apply name_safe_forget with (targets ++ D)%list.
    apply name_safe_bind with (targets ++ D)%list;
      [apply name_safe_bind_targets | intro; exact Helt]. }
  destruct (Hloop s Hs) as (Hn & Hkeep & _).
  destruct (map_m _ vs s) as [[rs|e] s1] eqn:Em; simpl in Hn, Hkeep.
  - rewrite (bind_ok _ _ _ _ _ _ _ Em).
    destruct (restore_all (globals s) targets s1 Hkeep) as (us & s2 & E & Hw & Hk).
    rewrite (bind_ok _ _ _ _ _ _ _ E). simpl.
    split; [discriminate|]. split; [exact Hk|].
    intros _ _. now apply covers_keeps with s.
  - rewrite (bind_raise _ _ _ _ _ _ _ Em). simpl.
    split; [|split; [exact Hkeep | discriminate]].
    intros x Hx. apply Hn. injection Hx as ->. reflexivity.
Qed.

Lemma name_safe_eval_list D es :
  Forall (eval_safe lib) es -> forallb (Names.expr_ok D) es = true ->
  name_safe D D (list Val) (eval_list lib es).
Proof.
  induction 1 as [|e es He _ IH]; simpl; intro H; [apply name_safe_ret|].
  apply andb_prop in H as [H1 H2].
  apply name_safe_bind with D; [now apply He|]. intro v.
  apply name_safe_bind with D; [now apply IH|]. intro vs. apply name_safe_ret.
Qed.

Lemma name_safe_eval_kwargs D kws :
  Forall (fun kv => eval_safe lib (snd kv)) kws ->
  forallb (fun kv => Names.expr_ok D (snd kv)) kws = true ->
  name_safe D D (list (string * Val)) (eval_kwargs lib kws).
Proof.
  induction 1 as [|[k e] kws He _ IH]; simpl; intro H; [apply name_safe_ret|].
  apply andb_prop in H as [H1 H2].
  apply name_safe_bind with D; [now apply He|]. intro v.
  apply name_safe_bind with D; [now apply IH|]. intro vs. apply name_safe_ret.
Qed.

Lemma name_safe_eval_items D items :
  Forall (fun kv => eval_safe lib (fst kv) /\ eval_safe lib (snd kv)) items ->
  forallb (fun kv => Names.expr_ok D (fst kv) && Names.expr_ok D (snd kv)) items = true ->
  name_safe D D (list (string * Val)) (eval_items lib items).
Proof.
  induction 1 as [|[ke ve] items [Hk Hv] _ IH]; simpl; intro H; [apply name_safe_ret|].
  apply andb_prop in H as [H1 H2]. apply andb_prop in H1 as [H1 H1'].
  simpl in Hk, Hv.
  apply name_safe_bind with D; [now apply Hk|]. intro kv.
  apply name_safe_bind with D; [destruct kv; step|]. intro k.
  apply name_safe_bind with D; [now apply Hv|]. intro v.
  apply name_safe_bind with D; [now apply IH|]. intro d. apply name_safe_ret.
Qed.

Lemma name_safe_name D x :
  mem x D = true ->
  name_safe (L := L) D D Val
    (o <- lookup_name x ;;
     match o with Some v => ret v | None => raise (NameError x) end).
Proof.
  intros Hx s Hs. unfold bind, lookup_name. simpl.
  destruct (Py.lookup x (globals s)) eqn:E; simpl.
  - split; [discriminate|]. split; [apply keeps_refl | auto].
  - now elim (Hs x Hx).
Qed.

Lemma eval_safe_strong e :
  eval_safe lib e /\ (forall r m, e = EAttr r m -> eval_safe lib r).
Proof.
  induction e using Expr_nested_ind;
    (split; [intros D HD | intros r0 m0 Heq; try discriminate]).
  - apply name_safe_ret.
  - apply name_safe_ret.
  - apply name_safe_ret.
  - apply name_safe_ret.
  - apply name_safe_ret.
  - apply name_safe_ret.
  - now apply name_safe_name.
  - simpl. apply name_safe_bind with D; [now apply IHe|].
    intro v. apply name_safe_getattr.
  - injection Heq as -> ->. apply IHe.
  - simpl in HD. apply andb_prop in HD as [H1 H2]. simpl.
    apply name_safe_bind with D; [now apply IHe1|]. intro v.
    apply name_safe_bind with D; [now apply IHe2|]. intro i.
    apply name_safe_subscript.
  - rewrite eval_call. cbn [Names.expr_ok] in HD.
    apply andb_prop in HD as [HD Hkw]. apply andb_prop in HD as [Hf Ha].
    assert (Hargs : name_safe D D (list Val) (eval_list lib args)).
    { apply name_safe_eval_list; [|exact Ha].
      eapply Forall_impl; [|exact H]. now intros ? [? _]. }
    assert (Hkws : name_safe D D (list (string * Val)) (eval_kwargs lib kwargs)).
    { apply name_safe_eval_kwargs; [|exact Hkw].
      eapply Forall_impl; [|exact H0]. now intros ? [? _]. }
    assert (Hgen : Names.expr_ok D e = true ->
                   name_safe D D Val (fv <- eval lib e ;;
                                      avs <- eval_list lib args ;;
                                      kvs <- eval_kwargs lib kwargs ;;
                                      call_value lib fv avs kvs)).
    { intro He. apply name_safe_bind with D; [now apply IHe|]. intro fv.
      apply name_safe_bind with D; [exact Hargs|]. intro avs.
      apply name_safe_bind with D; [exact Hkws|]. intro kvs.
      apply name_safe_call_value. }
    destruct e; try (apply Hgen; exact Hf).
    + intros s Hs.
      rewrite (bind_ok _ _ (lookup_name x) _ s (Py.lookup x (globals s)) s eq_refl).
      destruct (Py.lookup x (globals s)) eqn:E.
      * assert (Hv : name_safe D D Val (avs <- eval_list lib args ;;
                                        kvs <- eval_kwargs lib kwargs ;;
                                        call_value lib v avs kvs)).
        { apply name_safe_bind with D; [exact Hargs|]. intro avs.
          apply name_safe_bind with D; [exact Hkws|]. intro kvs.
          apply name_safe_call_value. }
        exact (Hv s Hs).
      * destruct (mem x pure_builtins || mem x runtime_builtins) eqn:Eb.
        -- assert (Hb : name_safe D D Val (avs <- eval_list lib args ;;
                                           kvs <- eval_kwargs lib kwargs ;;
                                           call_builtin lib x avs kvs)).
           { apply name_safe_bind with D; [exact Hargs|]. intro avs.
             apply name_safe_bind with D; [exact Hkws|]. intro kvs.
             now apply name_safe_call_builtin. }
           exact (Hb s Hs).
        -- rewrite orb_false_r in Hf. now elim (Hs x Hf E).
    + apply name_safe_bind with D.
      * destruct IHe as [_ IHr]. now apply (IHr e a eq_refl).
      * intro rv. apply name_safe_bind with D; [exact Hargs|]. intro avs.
        apply name_safe_bind with D; [exact Hkws|]. intro kvs.
        apply name_safe_call_method.
  - simpl in HD. apply andb_prop in HD as [H1 H2]. simpl.
    apply name_safe_bind with D; [now apply IHe1|]. intro a.
    apply name_safe_bind with D; [now apply IHe2|]. intro b.
    apply name_safe_binop.
  - simpl. apply name_safe_bind with D; [now apply IHe|].
    intro v. apply name_safe_neg.
  - rewrite eval_list_display.
    apply name_safe_bind with D; [|intro; apply name_safe_ret].
    apply name_safe_eval_list; [|exact HD].
    eapply Forall_impl; [|exact H]. now intros a [Ha _].
  - rewrite eval_dict.
    apply name_safe_bind with D; [|intro; apply name_safe_ret].
    apply name_safe_eval_items; [|exact HD].
    eapply Forall_impl; [|exact H]. now intros a [[Ha _] [Hb _]].
  - simpl in HD. apply andb_prop in HD as [H1 H2].
    apply (name_safe_comprehension D targets (eval lib e2) (eval lib e1)).
    + now apply IHe2.
    + now apply IHe1.
Qed.

Lemma name_safe_eval D e :
  Names.expr_ok D e = true -> name_safe D D Val (eval lib e).
Proof. apply eval_safe_strong. Qed.

Lemma name_safe_assign_all (g : string -> Val) names : forall D,
  name_safe (L := L) D (names ++ D) (list unit) (map_m (fun n => assign n (g n)) names).
Proof.
  induction names as [|x xs IH]; intro D; simpl; [apply name_safe_ret|].
  apply name_safe_bind with ([x] ++ D)%list; [apply name_safe_assign|]. intro.
  apply name_safe_bind with (xs ++ [x] ++ D)%list; [apply IH|]. intro us.
  apply name_safe_sub with (D := (xs ++ [x] ++ D)%list) (D' := (xs ++ [x] ++ D)%list);
    [auto | | apply name_safe_ret].
  intros y Hy. change (x :: xs ++ D)%list with ([x] ++ xs ++ D)%list in Hy.
  rewrite !mem_app in *.
  destruct (mem y [x]), (mem y xs), (mem y D); auto.
Qed.

Lemma stmt_ok_for D targets iter body :
  Names.stmt_ok D (SFor targets iter body)
  = Names.expr_ok D iter && Names.block_ok (targets ++ D) body.
Proof. reflexivity. Qed.

Lemma stmt_ok_try D body handler :
  Names.stmt_ok D (STry body handler)
  = Names.block_ok D body && Names.block_ok D handler.
Proof. reflexivity. Qed.

Lemma name_safe_exec_block b :
  Forall (exec_safe lib) b ->
  forall D, Names.block_ok D b = true ->
            name_safe D (Names.block_defines D b) unit (exec_block lib b).
Proof.
  induction 1 as [|st b Hst _ IH]; intros D HD; simpl; [apply name_safe_ret|].
  simpl in HD. apply andb_prop in HD as [H1 H2].
  apply name_safe_bind with (Names.defines st ++ D)%list; [now apply Hst|].
  intro. now apply IH.
Qed.

Lemma exec_safe_all st : exec_safe lib st.
Proof.
  induction st using Stmt_nested_ind; intros D HD.
  - simpl. apply name_safe_bind with D; [apply name_safe_call|]. intro.
    apply name_safe_assign.
  - simpl. apply name_safe_bind with D; [apply name_safe_call|]. intro.
    apply name_safe_bind with (ns ++ D)%list;
      [apply name_safe_assign_all with (g := fun n => VRef (m ++ "." ++ n))|].
    intro. apply name_safe_ret.
  - simpl. apply name_safe_bind with D; [now apply name_safe_eval|]. intro v.
    apply name_safe_bind_targets.
  - simpl. apply name_safe_bind with D; [now apply name_safe_eval|]. intro v.
    apply name_safe_ret.
  - rewrite exec_for. rewrite stmt_ok_for in HD. apply andb_prop in HD as [H1 H2].
    simpl.
    apply name_safe_bind with D; [now apply name_safe_eval|]. intro it.
    apply name_safe_bind with D; [apply name_safe_iterate|]. intro vs.
    apply name_safe_bind with D; [|intro; apply name_safe_ret].
    apply name_safe_map_m. intro v.
    apply name_safe_forget with (Names.block_defines (ts ++ D) body).
    apply name_safe_bind with (ts ++ D)%list; [apply name_safe_bind_targets|].
    intro. now apply name_safe_exec_block.
  - rewrite exec_try. rewrite stmt_ok_try in HD. apply andb_prop in HD as [H1 H2].
    simpl.
    apply name_safe_catch with (Names.block_defines D body)
                               (Names.block_defines D handler);
      now apply name_safe_exec_block.
Qed.

Lemma name_safe_exec_cell (c : Cell) : forall D,
  Names.block_ok D c = true ->
  name_safe D (Names.block_defines D c) unit (exec_cell lib c).
Proof.
  induction c as [|st c IH]; intros D HD; [apply name_safe_ret|].
  simpl in HD. apply andb_prop in HD as [H1 H2].
  assert (Hgen : name_safe D (Names.block_defines D (st :: c)) unit
                   (exec lib st ;; exec_cell lib c)).
  { simpl. apply name_safe_bind with (Names.defines st ++ D)%list;
      [now apply exec_safe_all | intro; now apply IH]. }
  destruct st; try exact Hgen.
  destruct c; [|exact Hgen].
  simpl. apply name_safe_bind with D; [now apply name_safe_eval|].
  intro v. destruct v; first [apply name_safe_ret | apply name_safe_emit].
Qed.

Lemma name_safe_run_cells (nb : Notebook) : forall D,
  Names.notebook_ok D nb = true -> name_safe D [] unit (run_cells lib nb).
Proof.
  induction nb as [|c nb IH]; intros D HD; simpl.
  - apply name_safe_sub with (D := D) (D' := D); [auto | discriminate | apply name_safe_ret].
  - simpl in HD. apply andb_prop in HD as [H1 H2].
    apply name_safe_bind with (Names.block_defines D c);
      [now apply name_safe_exec_cell|].
    intro. now apply IH.
Qed.

End NameSafety.

(** X1. The notebooks bind every name before they read it: whatever
    the libraries do, a run of one of the three notebooks ends in a
    [NameError] only when a library call raised it, and that call is
    the last event of the log. *)
Theorem names_are_bound_before_use :
  forall (L : Type) (lib : Library L) (nb : Notebook) (st : L) (x : string),
    In nb notebooks ->
    fst (run lib nb st) = Raise (NameError x) ->
    raised_by_library (NameError x) (log (world (snd (run lib nb st)))).
Proof.
  intros L lib nb st x Hnb Hx.
  assert (Hok : Names.notebook_ok [] nb = true).
  { destruct Hnb as [<-|[<-|[<-|[]]]]; vm_compute; reflexivity. }
  destruct (name_safe_run_cells lib nb [] Hok (fresh st) (covers_nil _)) as (Hn & _).
  now apply Hn.
Qed.

(** The QSE notebook against a library whose chemistry driver reports
    an unbound name of its own. *)
Lemma names_are_bound_before_use_witness :
  In QSE.notebook notebooks
  /\ fst (run unbound_in_driver QSE.notebook Demo.init) = Raise (NameError "gto")
  /\ raised_by_library (NameError "gto")
       (log (world (snd (run unbound_in_driver QSE.notebook Demo.init)))).
Proof.
  split; [now left|]. split; [vm_compute; reflexivity|].
  apply (names_are_bound_before_use _ unbound_in_driver QSE.notebook Demo.init "gto").
  - now left.
  - vm_compute. reflexivity.
Defined.

(** ** The configuration of the QSE experiment is set once *)

Section Frames.

Context {L : Type}.
Variable lib : Library L.
Variable X : list string.

Lemma preserves_silent (A : Type) (m : M L A) :
  (forall s, globals (snd (m s)) = globals s) -> preserves X A m.
Proof. intros H s x _. now rewrite H. Qed.

Lemma preserves_closed : Closed lib (outside X) true true (preserves (L := L) X).
Proof.
  constructor.
  - intros A a. now apply preserves_silent.
  - intros A e. now apply preserves_silent.
  - intros A B m k Hm Hk s x Hx. unfold bind.
    specialize (Hm s x Hx). destruct (m s) as [[a|e] s1]; simpl in *.
    + now rewrite (Hk a s1 x Hx).
    + exact Hm.
  - intros c args kwargs _. apply preserves_silent. intro s. unfold lib_call.
    now destruct (lib _ c args kwargs).
  - intros ev _. now apply preserves_silent.
  - intro x. now apply preserves_silent.
  - now apply preserves_silent.
  - intros y v Hy s x Hx. simpl. apply lookup_update_neq.
    destruct (String.eqb x y) eqn:E; [|reflexivity].
    apply String.eqb_eq in E. subst y. unfold outside in Hy. now rewrite Hx in Hy.
  - intros old y Hy s x Hx. simpl.
    assert (E : String.eqb x y = false).
    { destruct (String.eqb x y) eqn:E; [|reflexivity].
      apply String.eqb_eq in E. subst y. unfold outside in Hy. now rewrite Hx in Hy. }
    destruct (Py.lookup y old); [now apply lookup_update_neq | now apply lookup_remove_neq].
  - intros _ A m h Hm Hh s x Hx. unfold catch.
    specialize (Hm s x Hx). destruct (m s) as [[a|e] s1]; simpl in *.
    + exact Hm.
    + now rewrite (Hh s1 x Hx).
Qed.

(** Cells that rebind no name of [X] leave the bindings of [X] alone,
    whatever the libraries do and wherever the run ends. *)
Lemma run_cells_preserves (nb : Notebook) :
  forallb (forallb (Syntax.within (outside X) true true)) nb = true ->
  preserves X unit (run_cells lib nb).
Proof. apply (inherit_run_cells lib _ _ _ _ preserves_closed). Qed.

End Frames.

(** X2. The configuration of the experiment is set once: in every run
    of the QSE notebook that gets past the imports of its first cell,
    [bond_length], [base_molecule_str], [charge], [spin] and [basis]
    are bound at the end of the run, wherever it ends, to the values
    the second cell gave them; no later cell rebinds them. *)
Theorem configuration_is_never_rebound :
  forall (L : Type) (lib : Library L) (st : L) (x : string) (v : Val),
    fst (exec_cell lib QSE.cell1 (fresh st)) = Ok tt ->
    In (x, v) qse_configuration ->
    Py.lookup x (globals (snd (run lib QSE.notebook st))) = Some v.
Proof.
  intros L lib st x v H1 Hin. unfold run.
  change (run_cells lib QSE.notebook)
    with (exec_cell lib QSE.cell1 ;; exec_cell lib QSE.cell2 ;;
          run_cells lib (skipn 2 QSE.notebook)).
  unfold bind at 1.
  destruct (exec_cell lib QSE.cell1 (fresh st)) as [[[]|e] s1]; [|discriminate H1].
  unfold bind.
  change (exec_cell lib QSE.cell2 s1)
    with (Ok tt,
          mkState (update "basis" (VStr "sto3g")
                    (update "spin" (VInt 0)
                      (update "charge" (VInt 0)
                        (update "base_molecule_str" (VStr "H .0 .0 .0; H .0 .0 {}")
                          (update "bond_length" (VFloat (PyFloat.of_decimal 7 1))
                                  (globals s1))))))
                  (world s1)).
  cbv iota beta.
  rewrite (run_cells_preserves lib (map fst qse_configuration) (skipn 2 QSE.notebook)
             eq_refl _ x).
  - simpl globals.
    destruct Hin as [E|[E|[E|[E|[E|[]]]]]]; injection E as <- <-;
      repeat (rewrite lookup_update; simpl); reflexivity.
  - destruct Hin as [E|[E|[E|[E|[E|[]]]]]]; injection E as <- <-; reflexivity.
Qed.

(** The stand-in run: [bond_length] is still 0.7 at the end. *)
Lemma configuration_is_never_rebound_witness :
  Py.lookup "bond_length" (globals (snd (run Demo.lib QSE.notebook Demo.init)))
  = Some (VFloat (PyFloat.of_decimal 7 1)).
Proof.
  apply (configuration_is_never_rebound _ Demo.lib Demo.init).
  - vm_compute. reflexivity.
  - now left.
Defined.

(** ** Following values through a cell *)

Local Arguments PyRepr.float_repr : simpl never.
Local Arguments PyFloat.of_decimal : simpl never.
Local Arguments PyFloat.of_Z : simpl never.
Local Arguments PyFloat.div : simpl never.
Local Arguments PyFloat.add : simpl never.
Local Arguments Py.fill : simpl never.
Local Arguments format : simpl never.

(** What is known of a library's answer settles the case at hand. *)
Ltac settle E :=
  try match goal with
      | H : forall st0, fst (?lib st0 ?c ?a ?k) = _ |- _ =>
          match type of E with
          | lib ?st c a k = _ =>
              let X := fresh in
              pose proof (H st) as X; rewrite E in X; simpl in X;
              first [discriminate X | injection X as ->]
          end
      | H : returns_objects ?lib ?c |- _ =>
          match type of E with
          | lib ?st c ?a ?k = (Ok ?v, _) =>
              let X := fresh in
              pose proof (H st a k v) as X; rewrite E in X;
              specialize (X eq_refl); destruct v; try discriminate X; clear X
          end
      end.

Ltac lib_step lib :=
  match goal with
  | |- context [lib ?st ?c ?a ?k] =>
      let E := fresh "E" in
      destruct (lib st c a k) as [[?|?] ?] eqn:E; settle E; dead
  end.

Ltac shape_step lib :=
  match goal with
  | |- context [call_method lib ?v _ _ _ _] => is_var v; destruct v; dead
  | |- context [call_value lib ?v _ _] => is_var v; destruct v; dead
  | |- context [getattr lib ?v _] => is_var v; destruct v; dead
  end.

Ltac sym lib :=
  repeat first
    [ lookups
    | progress (unfold lib_call)
    | progress simpl
    | progress run
    | lib_step lib
    | shape_step lib ].

(** The events a cell added, but for the last [n]. *)
Ltac split_log n :=
  match goal with
  | |- context [(log (world ?s0) ++ ?l)%list] =>
      exists (firstn (List.length l - n) l)
  end.


(** X3. The sixth cell of the QSE notebook, started where [molecule]
    is a library object whose one-body integrals are an array with
    [n] rows and whose [num_alpha], [num_beta] and [molecular_charge]
    are the integers [a], [b] and [c]: when the cell runs to its end,
    the last two calls it made construct [HartreeFock] and [UCCSD],
    both with [n] as the number of qubits and of orbitals and with
    [a + b - c] particles, and [UCCSD] takes the [HartreeFock] object
    just made as its initial state. *)
Theorem variational_form_arguments :
  forall (L : Type) (lib : Library L) (s s' : State L) (h : N)
         (h1 : list Val) (a b c : Z),
    Py.lookup "molecule" (globals s) = Some (VObj h) ->
    (forall st, fst (lib st (GetAttr "one_body_integrals") [VObj h] []) = Ok (VArray h1)) ->
    (forall st, fst (lib st (GetAttr "num_alpha") [VObj h] []) = Ok (VInt a)) ->
    (forall st, fst (lib st (GetAttr "num_beta") [VObj h] []) = Ok (VInt b)) ->
    (forall st, fst (lib st (GetAttr "molecular_charge") [VObj h] []) = Ok (VInt c)) ->
    exec_cell lib QSE.cell6 s = (Ok tt, s') ->
    exists (pre : list Event) (hf vf : Val),
      log (world s')
      = (log (world s) ++ pre
           ++ [EvCall (Fn "qiskit_aqua_chemistry.aqua_extensions.components.initial_states.HartreeFock")
                 []
                 [("num_qubits", VInt (Z.of_nat (List.length h1)));
                  ("num_orbitals", VInt (Z.of_nat (List.length h1)));
                  ("qubit_mapping", VStr "jordan_wigner");
                  ("two_qubit_reduction", VBool false);
                  ("num_particles", VInt (a + b - c))]
                 (Ok hf);
               EvCall (Fn "qiskit_aqua_chemistry.aqua_extensions.components.variational_forms.UCCSD")
                 []
                 [("num_qubits", VInt (Z.of_nat (List.length h1)));
                  ("num_orbitals", VInt (Z.of_nat (List.length h1)));
                  ("num_particles", VInt (a + b - c));
                  ("depth", VInt 1);
                  ("initial_state", hf);
                  ("qubit_mapping", VStr "jordan_wigner")]
                 (Ok vf)])%list.
Proof.
  intros L lib s s' h h1 a b c Hm H1 Ha Hb Hc.
  simpl exec_cell. sym lib.
  all: intro X; injection X as <-; simpl.
  all: rewrite <- ?app_assoc; simpl.
  all: split_log 2%nat; simpl; do 2 eexists; reflexivity.
Qed.

(** The stand-in run: H2 has four spin orbitals and two electrons. *)
Lemma variational_form_arguments_witness :
  exists (pre : list Event) (hf vf : Val),
    log (world (snd (exec_cell Demo.lib QSE.cell6 qse_before_cell6)))
    = (log (world qse_before_cell6) ++ pre
         ++ [EvCall (Fn "qiskit_aqua_chemistry.aqua_extensions.components.initial_states.HartreeFock")
               []
               [("num_qubits", VInt 4);
                ("num_orbitals", VInt 4);
                ("qubit_mapping", VStr "jordan_wigner");
                ("two_qubit_reduction", VBool false);
                ("num_particles", VInt 2)]
               (Ok hf);
             EvCall (Fn "qiskit_aqua_chemistry.aqua_extensions.components.variational_forms.UCCSD")
               []
               [("num_qubits", VInt 4);
                ("num_orbitals", VInt 4);
                ("num_particles", VInt 2);
                ("depth", VInt 1);
                ("initial_state", hf);
                ("qubit_mapping", VStr "jordan_wigner")]
               (Ok vf)])%list.
Proof.
  apply (variational_form_arguments _ Demo.lib qse_before_cell6
           (snd (exec_cell Demo.lib QSE.cell6 qse_before_cell6))
           6%N (repeat (VArray (repeat (Demo.f 0 0) 4)) 4) 1 1 0).
  - vm_compute. reflexivity.
  - intro st. reflexivity.
  - intro st. reflexivity.
  - intro st. reflexivity.
  - intro st. reflexivity.
  - vm_compute. reflexivity.
Defined.

(** X4. The third and fourth cell of the QSE notebook, started where
    [qiskit] is the imported module and run to their end: the backend
    is asked for by the name ['statevector_simulator']; [TketPass] is
    constructed from that backend and appended to the pass manager
    just made; and [QuantumInstance] is constructed from the same
    backend and, as [pass_manager], the same pass manager.  Nothing
    else is called, and [quantum_instance] is bound to the result. *)
Theorem tket_pass_is_installed :
  forall (L : Type) (lib : Library L) (s s' : State L),
    Py.lookup "qiskit" (globals s) = Some (VRef "qiskit") ->
    returns_objects lib (Fn "qiskit.transpiler.PassManager") ->
    run_cells lib [QSE.cell3; QSE.cell4] s = (Ok tt, s') ->
    exists (be tp qi : Val) (pm : N) (i1 i2 i3 r : Val),
      log (world s')
      = (log (world s)
           ++ [EvCall (Fn "qiskit.Aer.get_backend") [VStr "statevector_simulator"] []
                 (Ok be);
               EvCall (Import "qiskit_aqua" ["QuantumInstance"]) [] [] (Ok i1);
               EvCall (Import "qiskit.transpiler" ["PassManager"]) [] [] (Ok i2);
               EvCall (Import "pytket.qiskit" ["TketPass"]) [] [] (Ok i3);
               EvCall (Fn "qiskit.transpiler.PassManager") [] [] (Ok (VObj pm));
               EvCall (Fn "pytket.qiskit.TketPass") [be] [] (Ok tp);
               EvCall (Method "append") [VObj pm; tp] [] (Ok r);
               EvCall (Fn "qiskit_aqua.QuantumInstance") [be]
                 [("pass_manager", VObj pm)] (Ok qi)])%list
      /\ Py.lookup "quantum_instance" (globals s') = Some qi.
Proof.
  intros L lib s s' Hq Hpm.
  simpl run_cells. simpl exec_cell. sym lib.
  all: intro X; injection X as <-; simpl.
  all: rewrite <- ?app_assoc; simpl.
  all: do 8 eexists; split; [reflexivity|]; simpl; look; reflexivity.
Qed.

(** The stand-in run after the second cell. *)
Lemma tket_pass_is_installed_witness :
  exists (be tp qi : Val) (pm : N) (i1 i2 i3 r : Val),
    log (world (snd (run_cells Demo.lib [QSE.cell3; QSE.cell4] qse_before_cell3)))
    = (log (world qse_before_cell3)
         ++ [EvCall (Fn "qiskit.Aer.get_backend") [VStr "statevector_simulator"] []
               (Ok be);
             EvCall (Import "qiskit_aqua" ["QuantumInstance"]) [] [] (Ok i1);
             EvCall (Import "qiskit.transpiler" ["PassManager"]) [] [] (Ok i2);
             EvCall (Import "pytket.qiskit" ["TketPass"]) [] [] (Ok i3);
             EvCall (Fn "qiskit.transpiler.PassManager") [] [] (Ok (VObj pm));
             EvCall (Fn "pytket.qiskit.TketPass") [be] [] (Ok tp);
             EvCall (Method "append") [VObj pm; tp] [] (Ok r);
             EvCall (Fn "qiskit_aqua.QuantumInstance") [be]
               [("pass_manager", VObj pm)] (Ok qi)])%list
    /\ Py.lookup "quantum_instance"
         (globals (snd (run_cells Demo.lib [QSE.cell3; QSE.cell4] qse_before_cell3)))
       = Some qi.
Proof.
  apply (tket_pass_is_installed _ Demo.lib qse_before_cell3
           (snd (run_cells Demo.lib [QSE.cell3; QSE.cell4] qse_before_cell3))).
  - vm_compute. reflexivity.
  - intros st args kwargs v H. vm_compute in H. injection H as <-. reflexivity.
  - vm_compute. reflexivity.
Defined.

(** X5. The seventh cell of the QSE notebook, started as for the
    initial point of VQE, with [qubitOp] bound to [q] and
    [quantum_instance] to [qi], and run up to [results = ...]: the last
    four calls construct the optimizer, set its options to
    [maxfun=1000, factr=10, iprint=10], construct [VQE] from [q], the
    variational form, that same optimizer and the initial point, and
    run it on [qi]; [results] is bound to what that run returned. *)
Theorem vqe_is_run_on_the_quantum_instance :
  forall (L : Type) (lib : Library L) (s s' : State L) (h : N)
         (v1 v2 : list Val) (q qi : Val),
    Py.lookup "var_form" (globals s) = Some (VObj h) ->
    Py.lookup "qubitOp" (globals s) = Some q ->
    Py.lookup "quantum_instance" (globals s) = Some qi ->
    Py.lookup "len" (globals s) = None ->
    Py.lookup "range" (globals s) = None ->
    (forall st, fst (lib st (GetAttr "_single_excitations") [VObj h] []) = Ok (VList v1)) ->
    (forall st, fst (lib st (GetAttr "_double_excitations") [VObj h] []) = Ok (VList v2)) ->
    returns_objects lib (Fn "qiskit_aqua.components.optimizers.L_BFGS_B") ->
    returns_objects lib (Fn "qiskit_aqua.algorithms.VQE") ->
    exec_block lib (firstn 9 QSE.cell7) s = (Ok tt, s') ->
    exists (pre : list Event) (opt vqe : N) (r res : Val),
      log (world s')
      = (log (world s) ++ pre
           ++ [EvCall (Fn "qiskit_aqua.components.optimizers.L_BFGS_B") [] []
                 (Ok (VObj opt));
               EvCall (Method "set_options") [VObj opt]
                 [("maxfun", VInt 1000); ("factr", VInt 10); ("iprint", VInt 10)]
                 (Ok r);
               EvCall (Fn "qiskit_aqua.algorithms.VQE") []
                 [("operator", q);
                  ("operator_mode", VStr "matrix");
                  ("var_form", VObj h);
                  ("optimizer", VObj opt);
                  ("initial_point",
                   VList (repeat (VFloat (PyFloat.of_decimal 1 5))
                                 (List.length v1 + List.length v2)))]
                 (Ok (VObj vqe));
               EvCall (Method "run") [VObj vqe; qi] [] (Ok res)])%list
      /\ Py.lookup "results" (globals s') = Some res.
Proof.
  intros L lib s s' h v1 v2 q qi Hvf Hq Hqi Hlen Hrange H1 H2 Ho Hv.
  simpl firstn. simpl exec_block. run.
  repeat first
    [ lookups
    | progress (unfold lib_call)
    | progress simpl
    | lib_step lib ].
  match goal with
  | |- context [map_m ?f ?l ?s0] =>
      change f with (append_body lib);
      destruct (append_loop lib l s0 []) as (Hr & Ha & Hw & Hp); [simpl; now look|];
      destruct (map_m (append_body lib) l s0) as [r s2]
  end.
  simpl in Hr, Ha, Hw, Hp. subst r.
  destruct s2 as [g2 w2]. simpl in Ha, Hw, Hp. subst w2.
  rewrite <- Nat2Z.inj_add, range_list_length in Ha.
  repeat first
    [ lookups
    | progress (unfold lib_call)
    | rewrite Ha
    | rewrite Hp by reflexivity
    | progress simpl
    | lib_step lib ].
  all: intro X; injection X as <-; simpl.
  all: rewrite <- ?app_assoc; simpl.
  all: split_log 4%nat; simpl; do 4 eexists; split; [reflexivity|];
       simpl; look; reflexivity.
Qed.

(** The stand-in run at the start of the seventh cell. *)
Lemma vqe_is_run_on_the_quantum_instance_witness :
  exists (pre : list Event) (opt vqe : N) (r res : Val),
    log (world (snd (exec_block Demo.lib (firstn 9 QSE.cell7) qse_before_cell7)))
    = (log (world qse_before_cell7) ++ pre
         ++ [EvCall (Fn "qiskit_aqua.components.optimizers.L_BFGS_B") [] []
               (Ok (VObj opt));
             EvCall (Method "set_options") [VObj opt]
               [("maxfun", VInt 1000); ("factr", VInt 10); ("iprint", VInt 10)]
               (Ok r);
             EvCall (Fn "qiskit_aqua.algorithms.VQE") []
               [("operator", VObj 8);
                ("operator_mode", VStr "matrix");
                ("var_form", VObj 10);
                ("optimizer", VObj opt);
                ("initial_point",
                 VList (repeat (VFloat (PyFloat.of_decimal 1 5)) 3))]
               (Ok (VObj vqe));
             EvCall (Method "run") [VObj vqe; VObj 3] [] (Ok res)])%list
    /\ Py.lookup "results"
         (globals (snd (exec_block Demo.lib (firstn 9 QSE.cell7) qse_before_cell7)))
       = Some res.
Proof.
  apply (vqe_is_run_on_the_quantum_instance _ Demo.lib qse_before_cell7
           (snd (exec_block Demo.lib (firstn 9 QSE.cell7) qse_before_cell7))
           10%N
           [Demo.ints [0; 1]; Demo.ints [2; 3]] [Demo.ints [0; 1; 2; 3]]
           (VObj 8) (VObj 3)).
  - vm_compute. reflexivity.
  - vm_compute. reflexivity.
  - vm_compute. reflexivity.
  - vm_compute. reflexivity.
  - vm_compute. reflexivity.
  - intro st. reflexivity.
  - intro st. reflexivity.
  - intros st args kwargs v H. vm_compute in H. injection H as <-. reflexivity.
  - intros st args kwargs v H. vm_compute in H. injection H as <-. reflexivity.
  - vm_compute. reflexivity.
Defined.

(** X6. The eighth cell of the QSE notebook up to the construction of
    [QSE], started where [ferOp] is a library object and [var_form]
    and [opti_amplitudes] are bound to [vf] and [oa], with [mapping]
    returning library objects: the qubit operator is mapped anew;
    [QseMatrices] receives that new operator and the [num_qubits] the
    library reports of it, not the [n_qubits] of the sixth cell; and
    [QSE] receives the matrices just made, ['matrix'], [vf], and [oa]
    as [opt_init_point]. *)
Theorem qse_is_built_from_the_optimum :
  forall (L : Type) (lib : Library L) (s s' : State L) (fer : N) (vf oa : Val),
    Py.lookup "ferOp" (globals s) = Some (VObj fer) ->
    Py.lookup "var_form" (globals s) = Some vf ->
    Py.lookup "opti_amplitudes" (globals s) = Some oa ->
    returns_objects lib (Method "mapping") ->
    exec_block lib (firstn 6 QSE.cell8) s = (Ok tt, s') ->
    exists (i r mt qse n : Val) (q : N) (x : PyFloat.t),
      log (world s')
      = (log (world s)
           ++ [EvCall (Import "pytket.chemistry" ["QseMatrices"; "QSE"]) [] [] (Ok i);
               EvCall (Method "mapping") [VObj fer]
                 [("map_type", VStr "JORDAN_WIGNER");
                  ("threshold", VFloat (PyFloat.of_decimal 1 8))]
                 (Ok (VObj q));
               EvCall (GetAttr "num_qubits") [VObj q] [] (Ok n);
               EvCall (Method "chop") [VObj q; VFloat x] [] (Ok r);
               EvCall (Fn "pytket.chemistry.QseMatrices") [VObj q; n] [] (Ok mt);
               EvCall (Fn "pytket.chemistry.QSE") [mt; VStr "matrix"; vf]
                 [("opt_init_point", oa)] (Ok qse)])%list
      /\ Py.lookup "qse_algorithm" (globals s') = Some qse.
Proof.
  intros L lib s s' fer vf oa Hf Hv Ho Hm.
  simpl firstn. simpl exec_block. sym lib.
  all: intro X; injection X as <-; simpl.
  all: rewrite <- ?app_assoc; simpl.
  all: do 7 eexists; split; [reflexivity|]; simpl; look; reflexivity.
Qed.

(** The stand-in run at the start of the eighth cell. *)
Lemma qse_is_built_from_the_optimum_witness :
  exists (i r mt qse n : Val) (q : N) (x : PyFloat.t),
    log (world (snd (exec_block Demo.lib (firstn 6 QSE.cell8) qse_before_cell8)))
    = (log (world qse_before_cell8)
         ++ [EvCall (Import "pytket.chemistry" ["QseMatrices"; "QSE"]) [] [] (Ok i);
             EvCall (Method "mapping") [VObj 7]
               [("map_type", VStr "JORDAN_WIGNER");
                ("threshold", VFloat (PyFloat.of_decimal 1 8))]
               (Ok (VObj q));
             EvCall (GetAttr "num_qubits") [VObj q] [] (Ok n);
             EvCall (Method "chop") [VObj q; VFloat x] [] (Ok r);
             EvCall (Fn "pytket.chemistry.QseMatrices") [VObj q; n] [] (Ok mt);
             EvCall (Fn "pytket.chemistry.QSE") [mt; VStr "matrix"; VObj 10]
               [("opt_init_point", VArray [Demo.f 0 0; Demo.f 0 0; Demo.f (-1050) 4])]
               (Ok qse)])%list
    /\ Py.lookup "qse_algorithm"
         (globals (snd (exec_block Demo.lib (firstn 6 QSE.cell8) qse_before_cell8)))
       = Some qse.
Proof.
  apply (qse_is_built_from_the_optimum _ Demo.lib qse_before_cell8
           (snd (exec_block Demo.lib (firstn 6 QSE.cell8) qse_before_cell8))
           7%N (VObj 10) (VArray [Demo.f 0 0; Demo.f 0 0; Demo.f (-1050) 4])).
  - vm_compute. reflexivity.
  - vm_compute. reflexivity.
  - vm_compute. reflexivity.
  - intros st args kwargs v H. vm_compute in H. injection H as <-. reflexivity.
  - vm_compute. reflexivity.
Defined.

(** X7. The report of the nuclear repulsion energy, started where
    [molecule] is a library object whose [nuclear_repulsion_energy]
    the library reports as the float [x]: the cell reads the attribute
    once and prints one line, the label, two spaces ([print] separates
    its two arguments by one, after the one that ends the label) and
    the shortest decimal that reads back as [x]; nothing is
    displayed. *)
Theorem repulsion_energy_is_reported :
  forall (L : Type) (lib : Library L) (s : State L) (h : N) (x : PyFloat.t),
    Py.lookup "molecule" (globals s) = Some (VObj h) ->
    Py.lookup "print" (globals s) = None ->
    fst (lib (libst (world s)) (GetAttr "nuclear_repulsion_energy") [VObj h] [])
    = Ok (VFloat x) ->
    fst (exec_cell lib repulsion_report s) = Ok tt
    /\ log (world (snd (exec_cell lib repulsion_report s)))
       = (log (world s)
            ++ [EvCall (GetAttr "nuclear_repulsion_energy") [VObj h] [] (Ok (VFloat x));
                EvPrint ("Molecular repulsion energy: " ++ " " ++ PyRepr.float_repr x)])%list.
Proof.
  intros L lib s h x Hm Hp Hx.
  unfold repulsion_report. simpl skipn. simpl exec_cell. run.
  rewrite Hp. simpl. run. rewrite Hm. simpl. unfold lib_call.
  destruct (lib (libst (world s)) (GetAttr "nuclear_repulsion_energy") [VObj h] [])
    as [r l]. simpl in Hx. subst r. simpl. run. simpl.
  split; [reflexivity|]. now rewrite <- app_assoc.
Qed.

(** The stand-in run, whose molecule has the repulsion energy of H2 at
    0.7 Angstrom: the line is the one recorded in the notebook. *)
Lemma repulsion_energy_is_reported_witness :
  fst (exec_cell Demo.lib repulsion_report qse_before_repulsion_report) = Ok tt
  /\ log (world (snd (exec_cell Demo.lib repulsion_report qse_before_repulsion_report)))
     = (log (world qse_before_repulsion_report)
          ++ [EvCall (GetAttr "nuclear_repulsion_energy") [VObj 6] []
                (Ok (VFloat (PyFloat.of_decimal 7559674441714287 16)));
              EvPrint "Molecular repulsion energy:  0.7559674441714287"])%list.
Proof.
  assert (E : "Molecular repulsion energy:  0.7559674441714287"
              = "Molecular repulsion energy: " ++ " "
                ++ PyRepr.float_repr (PyFloat.of_decimal 7559674441714287 16)).
  { vm_compute. reflexivity. }
  rewrite E.
  apply (repulsion_energy_is_reported _ Demo.lib qse_before_repulsion_report 6%N
           (PyFloat.of_decimal 7559674441714287 16)).
  - vm_compute. reflexivity.
  - vm_compute. reflexivity.
  - reflexivity.
Defined.

Ltac str_step lib :=
  match goal with
  | |- context [Py.str ?v] => is_var v; destruct (Py.str v)
  | |- context [match ?v with VStr _ => _ | _ => _ end] => is_var v; destruct v; dead
  end.

Ltac sym_print lib :=
  repeat first
    [ lookups
    | progress (unfold lib_call, call_builtin, print, to_str)
    | progress simpl
    | progress run
    | lib_step lib
    | shape_step lib
    | str_step lib ].

(** ** The pyQuil notebook: one circuit through three libraries *)

Section Composition.

Context {L : Type}.
Variable lib : Library L.

Lemma run_cells_app (nb1 nb2 : Notebook) (s : State L) :
  run_cells lib (nb1 ++ nb2)%list s
  = match run_cells lib nb1 s with
    | (Ok _, s1) => run_cells lib nb2 s1
    | (Raise e, s1) => (Raise e, s1)
    end.
Proof.
  revert s. induction nb1 as [|c nb1 IH]; intro s; simpl; [reflexivity|].
  unfold bind. destruct (exec_cell lib c s) as [[[]|e] s1]; [apply IH | reflexivity].
Qed.

Lemma pyquil_conversion (st : L) (s3 : State L) :
  returns_objects lib
    (Fn "grove.alpha.arbitrary_state.arbitrary_state.create_arbitrary_state") ->
  returns_objects lib (Fn "pytket.pyquil.pyquil_to_tk") ->
  run_cells lib (firstn 3 PyQuil.notebook) (fresh st) = (Ok tt, s3) ->
  exists (i1 i2 i3 i4 ts r1 r2 : Val) (qc tk : N) (t : string),
    log (world s3)
    = ([EvCall (Import "grove.alpha.arbitrary_state.arbitrary_state"
                  ["create_arbitrary_state"]) [] [] (Ok i1);
        EvCall (Import "numpy" []) [] [] (Ok i2);
        EvCall (Fn "numpy.array") [target_amplitudes] [] (Ok ts);
        EvCall (Fn "grove.alpha.arbitrary_state.arbitrary_state.create_arbitrary_state")
          [ts] [] (Ok (VObj qc));
        EvCall (Method "__str__") [VObj qc] [] (Ok (VStr t));
        EvPrint t;
        EvCall (Import "pytket.pyquil" ["pyquil_to_tk"]) [] [] (Ok i3);
        EvCall (Fn "pytket.pyquil.pyquil_to_tk") [VObj qc] [] (Ok (VObj tk));
        EvCall (Import "pytket._circuit" ["optimise_pre_routing"]) [] [] (Ok i4);
        EvCall (Fn "pytket._circuit.optimise_pre_routing") [VObj tk] [] (Ok r1);
        EvCall (Method "apply_boundary_map") [VObj tk; VList [VInt 1; VInt 0]] []
          (Ok r2)]
       ++ displayed r2)%list
    /\ Py.lookup "tk_circ" (globals s3) = Some (VObj tk)
    /\ Py.lookup "print" (globals s3) = None.
Proof.
  intros Hc Ht.
  unfold fresh, PyQuil.notebook. simpl firstn. simpl run_cells. simpl exec_cell.
  repeat first
    [ progress (unfold lib_call, call_builtin, print, to_str)
    | progress simpl
    | progress run
    | match goal with
      | |- context [VList [VFloat (PyFloat.of_decimal 5 1); ?a; ?b; ?c]] =>
          let E := fresh in
          assert (E : VList [VFloat (PyFloat.of_decimal 5 1); a; b; c]
                      = target_amplitudes) by (vm_compute; reflexivity);
          rewrite E; clear E
      end
    | lib_step lib
    | shape_step lib
    | str_step lib ].
  all: intro X; injection X as <-; simpl.
  all: do 10 eexists; split; [|split; reflexivity].
  all: do 11 (apply (f_equal2 (@cons Event)); [reflexivity|]).
  all: reflexivity.
Qed.

Lemma pyquil_simulation (s s' : State L) (tk : N) :
  Py.lookup "tk_circ" (globals s) = Some (VObj tk) ->
  Py.lookup "print" (globals s) = None ->
  returns_objects lib (Fn "qiskit.execute") ->
  returns_objects lib (Method "result") ->
  exec_cell lib PyQuil.cell4 s = (Ok tt, s') ->
  exists (i5 i6 i7 dag qis be m : Val) (job res : N) (t' : string),
    log (world s')
    = (log (world s)
         ++ [EvCall (Import "pytket.qiskit" ["tk_to_dagcircuit"]) [] [] (Ok i5);
             EvCall (Fn "pytket.qiskit.tk_to_dagcircuit") [VObj tk] [] (Ok dag);
             EvCall (Import "qiskit.converters" ["dag_to_circuit"]) [] [] (Ok i6);
             EvCall (Fn "qiskit.converters.dag_to_circuit") [dag] [] (Ok qis);
             EvCall (Import "qiskit" ["BasicAer"; "execute"]) [] [] (Ok i7);
             EvCall (Fn "qiskit.BasicAer.get_backend") [VStr "unitary_simulator"] []
               (Ok be);
             EvCall (Fn "qiskit.execute") [qis; be] [] (Ok (VObj job));
             EvCall (Method "result") [VObj job] [] (Ok (VObj res));
             EvCall (Method "get_unitary") [VObj res; qis] [] (Ok m)]
         ++ text_events m t' ++ [EvPrint t'])%list
    /\ (forall u, Py.str m = Some u -> u = t').
Proof.
  intros Htk Hp He Hr.
  simpl exec_cell. unfold text_events.
  repeat first
    [ lookups
    | progress (unfold lib_call, call_builtin, print, to_str)
    | progress simpl
    | progress run
    | lib_step lib
    | shape_step lib
    | match goal with
      | |- context [Py.str ?v] =>
          is_var v; let Es := fresh "Es" in destruct (Py.str v) eqn:Es
      | |- context [match ?v with VStr _ => _ | _ => _ end] =>
          is_var v; destruct v; dead
      end ].
  all: intro X; injection X as <-; simpl.
  all: rewrite <- ?app_assoc; simpl.
  all: do 10 eexists; split;
       [ apply (f_equal (app _));
         do 9 (apply (f_equal2 (@cons Event)); [reflexivity|]);
         match goal with
         | H : Py.str _ = _ |- _ => rewrite H
         end; reflexivity
       | ].
  all: intros u Hu; congruence.
Qed.

End Composition.

(** X8. A run of the pyQuil notebook that reaches its end, where the
    state preparation, [pyquil_to_tk], [execute] and [result] return
    library objects, makes these calls in this order and no others: the
    circuit grove prepares for the amplitudes [0.5, 0.5j, -0.5j, 0.5j]
    is printed and converted by [pyquil_to_tk]; the object that
    conversion returned is the one [optimise_pre_routing] and
    [apply_boundary_map([1, 0])] act on and the one
    [tk_to_dagcircuit] then receives; the DAG goes through
    [dag_to_circuit], and the Qiskit circuit it gives is both executed
    on the ['unitary_simulator'] backend and passed to [get_unitary]
    of that job's result; the matrix [get_unitary] returned is
    rendered, by its owner's [__str__] unless it is data with a text
    of Python's own, and that text is the last line printed. *)
Theorem pyquil_circuit_is_retargeted :
  forall (L : Type) (lib : Library L) (st : L) (s' : State L),
    returns_objects lib
      (Fn "grove.alpha.arbitrary_state.arbitrary_state.create_arbitrary_state") ->
    returns_objects lib (Fn "pytket.pyquil.pyquil_to_tk") ->
    returns_objects lib (Fn "qiskit.execute") ->
    returns_objects lib (Method "result") ->
    run lib PyQuil.notebook st = (Ok tt, s') ->
    exists (i1 i2 i3 i4 i5 i6 i7 ts r1 r2 dag qis be m : Val)
           (qc tk job res : N) (t t' : string),
      log (world s')
      = ([EvCall (Import "grove.alpha.arbitrary_state.arbitrary_state"
                    ["create_arbitrary_state"]) [] [] (Ok i1);
          EvCall (Import "numpy" []) [] [] (Ok i2);
          EvCall (Fn "numpy.array") [target_amplitudes] [] (Ok ts);
          EvCall (Fn "grove.alpha.arbitrary_state.arbitrary_state.create_arbitrary_state")
            [ts] [] (Ok (VObj qc));
          EvCall (Method "__str__") [VObj qc] [] (Ok (VStr t));
          EvPrint t;
          EvCall (Import "pytket.pyquil" ["pyquil_to_tk"]) [] [] (Ok i3);
          EvCall (Fn "pytket.pyquil.pyquil_to_tk") [VObj qc] [] (Ok (VObj tk));
          EvCall (Import "pytket._circuit" ["optimise_pre_routing"]) [] [] (Ok i4);
          EvCall (Fn "pytket._circuit.optimise_pre_routing") [VObj tk] [] (Ok r1);
          EvCall (Method "apply_boundary_map") [VObj tk; VList [VInt 1; VInt 0]] []
            (Ok r2)]
         ++ displayed r2
         ++ [EvCall (Import "pytket.qiskit" ["tk_to_dagcircuit"]) [] [] (Ok i5);
             EvCall (Fn "pytket.qiskit.tk_to_dagcircuit") [VObj tk] [] (Ok dag);
             EvCall (Import "qiskit.converters" ["dag_to_circuit"]) [] [] (Ok i6);
             EvCall (Fn "qiskit.converters.dag_to_circuit") [dag] [] (Ok qis);
             EvCall (Import "qiskit" ["BasicAer"; "execute"]) [] [] (Ok i7);
             EvCall (Fn "qiskit.BasicAer.get_backend") [VStr "unitary_simulator"] []
               (Ok be);
             EvCall (Fn "qiskit.execute") [qis; be] [] (Ok (VObj job));
             EvCall (Method "result") [VObj job] [] (Ok (VObj res));
             EvCall (Method "get_unitary") [VObj res; qis] [] (Ok m)]
         ++ text_events m t' ++ [EvPrint t'])%list
      /\ (forall u, Py.str m = Some u -> u = t').
Proof.
  intros L lib st s' Hc Ht He Hr. unfold run.
  change PyQuil.notebook with (firstn 3 PyQuil.notebook ++ [PyQuil.cell4])%list.
  rewrite run_cells_app.
  destruct (run_cells lib (firstn 3 PyQuil.notebook) (fresh st)) as [[[]|e] s3] eqn:E3;
    [|discriminate].
  destruct (pyquil_conversion lib st s3 Hc Ht E3)
    as (i1 & i2 & i3 & i4 & ts & r1 & r2 & qc & tk & t & Hlog & Htk & Hp).
  cbn [run_cells]. unfold bind at 1.
  destruct (exec_cell lib PyQuil.cell4 s3) as [[[]|e] s4] eqn:E4; [|discriminate].
  destruct (pyquil_simulation lib s3 s4 tk Htk Hp He Hr E4)
    as (i5 & i6 & i7 & dag & qis & be & m & job & res & t' & Hlog4 & Htext).
  intro X. injection X as <-.
  exists i1, i2, i3, i4, i5, i6, i7, ts, r1, r2, dag, qis, be, m, qc, tk, job, res, t, t'.
  split; [|exact Htext].
  rewrite Hlog4, Hlog. rewrite <- !app_assoc. reflexivity.
Qed.

(** The stand-in run of the whole notebook. *)
Lemma pyquil_circuit_is_retargeted_witness :
  exists (i1 i2 i3 i4 i5 i6 i7 ts r1 r2 dag qis be m : Val)
         (qc tk job res : N) (t t' : string),
    log (world (snd (run Demo.lib PyQuil.notebook Demo.init)))
    = ([EvCall (Import "grove.alpha.arbitrary_state.arbitrary_state"
                  ["create_arbitrary_state"]) [] [] (Ok i1);
        EvCall (Import "numpy" []) [] [] (Ok i2);
        EvCall (Fn "numpy.array") [target_amplitudes] [] (Ok ts);
        EvCall (Fn "grove.alpha.arbitrary_state.arbitrary_state.create_arbitrary_state")
          [ts] [] (Ok (VObj qc));
        EvCall (Method "__str__") [VObj qc] [] (Ok (VStr t));
        EvPrint t;
        EvCall (Import "pytket.pyquil" ["pyquil_to_tk"]) [] [] (Ok i3);
        EvCall (Fn "pytket.pyquil.pyquil_to_tk") [VObj qc] [] (Ok (VObj tk));
        EvCall (Import "pytket._circuit" ["optimise_pre_routing"]) [] [] (Ok i4);
        EvCall (Fn "pytket._circuit.optimise_pre_routing") [VObj tk] [] (Ok r1);
        EvCall (Method "apply_boundary_map") [VObj tk; VList [VInt 1; VInt 0]] []
          (Ok r2)]
       ++ displayed r2
       ++ [EvCall (Import "pytket.qiskit" ["tk_to_dagcircuit"]) [] [] (Ok i5);
           EvCall (Fn "pytket.qiskit.tk_to_dagcircuit") [VObj tk] [] (Ok dag);
           EvCall (Import "qiskit.converters" ["dag_to_circuit"]) [] [] (Ok i6);
           EvCall (Fn "qiskit.converters.dag_to_circuit") [dag] [] (Ok qis);
           EvCall (Import "qiskit" ["BasicAer"; "execute"]) [] [] (Ok i7);
           EvCall (Fn "qiskit.BasicAer.get_backend") [VStr "unitary_simulator"] []
             (Ok be);
           EvCall (Fn "qiskit.execute") [qis; be] [] (Ok (VObj job));
           EvCall (Method "result") [VObj job] [] (Ok (VObj res));
           EvCall (Method "get_unitary") [VObj res; qis] [] (Ok m)]
       ++ text_events m t' ++ [EvPrint t'])%list
    /\ (forall u, Py.str m = Some u -> u = t').
Proof.
  apply (pyquil_circuit_is_retargeted _ Demo.lib Demo.init
           (snd (run Demo.lib PyQuil.notebook Demo.init))).
  - intros st args kwargs v H. vm_compute in H. injection H as <-. reflexivity.
  - intros st args kwargs v H. vm_compute in H. injection H as <-. reflexivity.
  - intros st args kwargs v H. vm_compute in H. injection H as <-. reflexivity.
  - intros st args kwargs v H. vm_compute in H. injection H as <-. reflexivity.
  - vm_compute. reflexivity.
Defined.

(** ** The Cirq notebook: the grid *)

(** X15. The first two cells of the Cirq notebook, run from an empty
    namespace to their end: after the three imports, [SquareGrid] is
    called with 3 and 3 and [get_grid_qubits] with that grid and
    [range(9)], and nothing else; the namespace then holds the module
    [cirq], the five imported pytket functions, each bound to the
    function of that name in the module it was imported from, the
    grid as [arc] and what [get_grid_qubits] returned as [qubits]. *)
Theorem grid_is_three_by_three :
  forall (L : Type) (lib : Library L) (st : L) (s' : State L),
    run lib (firstn 2 Cirq.notebook) st = (Ok tt, s') ->
    exists (i1 i2 i3 arc qs : Val),
      log (world s')
      = [EvCall (Import "cirq" []) [] [] (Ok i1);
         EvCall (Import "pytket._routing" ["SquareGrid"; "route"]) [] [] (Ok i2);
         EvCall (Import "pytket.cirq" ["get_grid_qubits"; "cirq_to_tk"; "tk_to_cirq"])
           [] [] (Ok i3);
         EvCall (Fn "pytket._routing.SquareGrid") [VInt 3; VInt 3] [] (Ok arc);
         EvCall (Fn "pytket.cirq.get_grid_qubits") [arc; VRange 9] [] (Ok qs)]
      /\ globals s'
         = [("cirq", VRef "cirq");
            ("SquareGrid", VRef "pytket._routing.SquareGrid");
            ("route", VRef "pytket._routing.route");
            ("get_grid_qubits", VRef "pytket.cirq.get_grid_qubits");
            ("cirq_to_tk", VRef "pytket.cirq.cirq_to_tk");
            ("tk_to_cirq", VRef "pytket.cirq.tk_to_cirq");
            ("arc", arc);
            ("qubits", qs)].
Proof.
  intros L lib st s'.
  unfold run, fresh. simpl firstn. simpl run_cells. simpl exec_cell.
  repeat first
    [ progress (unfold lib_call, call_builtin)
    | progress simpl
    | progress run
    | lib_step lib ].
  intro X. injection X as <-. simpl.
  do 5 eexists. split; reflexivity.
Qed.

(** The stand-in run of the first two cells. *)
Lemma grid_is_three_by_three_witness :
  exists (i1 i2 i3 arc qs : Val),
    log (world (snd (run Demo.lib (firstn 2 Cirq.notebook) Demo.init)))
    = [EvCall (Import "cirq" []) [] [] (Ok i1);
       EvCall (Import "pytket._routing" ["SquareGrid"; "route"]) [] [] (Ok i2);
       EvCall (Import "pytket.cirq" ["get_grid_qubits"; "cirq_to_tk"; "tk_to_cirq"])
         [] [] (Ok i3);
       EvCall (Fn "pytket._routing.SquareGrid") [VInt 3; VInt 3] [] (Ok arc);
       EvCall (Fn "pytket.cirq.get_grid_qubits") [arc; VRange 9] [] (Ok qs)]
    /\ globals (snd (run Demo.lib (firstn 2 Cirq.notebook) Demo.init))
       = [("cirq", VRef "cirq");
          ("SquareGrid", VRef "pytket._routing.SquareGrid");
          ("route", VRef "pytket._routing.route");
          ("get_grid_qubits", VRef "pytket.cirq.get_grid_qubits");
          ("cirq_to_tk", VRef "pytket.cirq.cirq_to_tk");
          ("tk_to_cirq", VRef "pytket.cirq.tk_to_cirq");
          ("arc", arc);
          ("qubits", qs)].
Proof.
  apply (grid_is_three_by_three _ Demo.lib Demo.init
           (snd (run Demo.lib (firstn 2 Cirq.notebook) Demo.init))).
  vm_compute. reflexivity.
Defined.
(** ** The Cirq notebook: the sample circuit *)

Lemma index_at (l : list Val) (z : Z) (v : Val) :
  (0 <= z)%Z -> nth_error l (Z.to_nat z) = Some v -> Py.index l z = Ok v.
Proof.
  intros Hz Hn. unfold Py.index.
  assert (Hlt : (Z.to_nat z < List.length l)%nat).
  { apply nth_error_Some. now rewrite Hn. }
  assert (E1 : (z <? 0)%Z = false) by (apply Z.ltb_ge; lia).
  assert (E2 : (0 <=? z)%Z = true) by (apply Z.leb_le; lia).
  assert (E3 : (z <? Z.of_nat (List.length l))%Z = true) by (apply Z.ltb_lt; lia).
  now rewrite E1, E2, E3, Hn.
Qed.

Ltac index_step :=
  match goal with
  | |- context [Py.index ?l ?z] =>
      erewrite (index_at l z)
        by (first [reflexivity | (let X := fresh in intro X; discriminate X)])
  end.

Section Circuit.

Local Arguments Py.index : simpl never.

Lemma circuit_events :
  forall (L : Type) (lib : Library L) (s s' : State L)
         (q0 q1 q2 q3 q4 q5 : Val) (rest : list Val),
    Py.lookup "cirq" (globals s) = Some (VRef "cirq") ->
    Py.lookup "qubits" (globals s)
    = Some (VList (q0 :: q1 :: q2 :: q3 :: q4 :: q5 :: rest)) ->
    exec_cell lib Cirq.cell3 s = (Ok tt, s') ->
    exists (g1 g2 g3 g4 g5 g6 g7 g8 g9 c : Val),
      log (world s')
      = (log (world s)
           ++ [EvCall (Fn "cirq.H") [q0] [] (Ok g1);
               EvCall (Fn "cirq.X") [q1] [] (Ok g2);
               EvCall (Fn "cirq.CNOT") [q0; q4] [] (Ok g3);
               EvCall (Fn "cirq.Y") [q2] [] (Ok g4);
               EvCall (Fn "cirq.CNOT") [q2; q4] [] (Ok g5);
               EvCall (Fn "cirq.CNOT") [q3; q4] [] (Ok g6);
               EvCall (Fn "cirq.Y") [q3] [] (Ok g7);
               EvCall (Fn "cirq.CNOT") [q3; q5] [] (Ok g8);
               EvCall (Fn "cirq.Z") [q4] [] (Ok g9);
               EvCall (Fn "cirq.Circuit.from_ops") [g1; g2; g3; g4; g5; g6; g7; g8; g9] []
                 (Ok c)]
           ++ displayed c)%list
      /\ globals s' = update "circuit" c (globals s).
Proof.
  intros L lib s s' q0 q1 q2 q3 q4 q5 rest Hc Hq.
  simpl exec_cell.
  repeat first
    [ lookups
    | index_step
    | progress (unfold lib_call)
    | progress simpl
    | progress run
    | lib_step lib ].
  match goal with
  | |- context [match ?v with VNone => _ | _ => _ end] => destruct v
  end.
  all: simpl; intro X; injection X as <-; simpl.
  all: rewrite <- ?app_assoc; simpl.
  all: do 10 eexists; split; [|reflexivity].
  all: apply (f_equal (app _)).
  all: do 10 (apply (f_equal2 (@cons Event)); [reflexivity|]); reflexivity.
Qed.


End Circuit.

(** X9. The third cell of the Cirq notebook, started where [cirq] is
    the imported module and [qubits] is a list of at least six
    elements: when the cell runs to its end it has called, in this
    order and with these qubits, H on 0, X on 1, CNOT on 0 and 4, Y on
    2, CNOT on 2 and 4, CNOT on 3 and 4, Y on 3, CNOT on 3 and 5 and Z
    on 4, then [Circuit.from_ops] on the nine results in the same
    order; the circuit is bound to [circuit] and is what the cell
    displays. Qubits 6, 7 and 8 of the grid are not used. *)
Theorem sample_circuit_is_built_in_order :
  forall (L : Type) (lib : Library L) (s s' : State L)
         (q0 q1 q2 q3 q4 q5 : Val) (rest : list Val),
    Py.lookup "cirq" (globals s) = Some (VRef "cirq") ->
    Py.lookup "qubits" (globals s)
    = Some (VList (q0 :: q1 :: q2 :: q3 :: q4 :: q5 :: rest)) ->
    exec_cell lib Cirq.cell3 s = (Ok tt, s') ->
    exists (g1 g2 g3 g4 g5 g6 g7 g8 g9 c : Val),
      log (world s')
      = (log (world s)
           ++ [EvCall (Fn "cirq.H") [q0] [] (Ok g1);
               EvCall (Fn "cirq.X") [q1] [] (Ok g2);
               EvCall (Fn "cirq.CNOT") [q0; q4] [] (Ok g3);
               EvCall (Fn "cirq.Y") [q2] [] (Ok g4);
               EvCall (Fn "cirq.CNOT") [q2; q4] [] (Ok g5);
               EvCall (Fn "cirq.CNOT") [q3; q4] [] (Ok g6);
               EvCall (Fn "cirq.Y") [q3] [] (Ok g7);
               EvCall (Fn "cirq.CNOT") [q3; q5] [] (Ok g8);
               EvCall (Fn "cirq.Z") [q4] [] (Ok g9);
               EvCall (Fn "cirq.Circuit.from_ops") [g1; g2; g3; g4; g5; g6; g7; g8; g9] []
                 (Ok c)]
           ++ displayed c)%list
      /\ Py.lookup "circuit" (globals s') = Some c.
Proof.
  intros L lib s s' q0 q1 q2 q3 q4 q5 rest Hc Hq Hrun.
  destruct (circuit_events L lib s s' q0 q1 q2 q3 q4 q5 rest Hc Hq Hrun)
    as (g1 & g2 & g3 & g4 & g5 & g6 & g7 & g8 & g9 & c & Hlog & Hg).
  exists g1, g2, g3, g4, g5, g6, g7, g8, g9, c.
  split; [exact Hlog|].
  rewrite Hg. apply lookup_update_eq.
Qed.


(** The stand-in run after the second cell: nine grid qubits. *)
Lemma sample_circuit_is_built_in_order_witness :
  exists (g1 g2 g3 g4 g5 g6 g7 g8 g9 c : Val),
    log (world (snd (exec_cell Demo.lib Cirq.cell3 cirq_before_cell3)))
    = (log (world cirq_before_cell3)
         ++ [EvCall (Fn "cirq.H") [VObj 1] [] (Ok g1);
             EvCall (Fn "cirq.X") [VObj 2] [] (Ok g2);
             EvCall (Fn "cirq.CNOT") [VObj 1; VObj 5] [] (Ok g3);
             EvCall (Fn "cirq.Y") [VObj 3] [] (Ok g4);
             EvCall (Fn "cirq.CNOT") [VObj 3; VObj 5] [] (Ok g5);
             EvCall (Fn "cirq.CNOT") [VObj 4; VObj 5] [] (Ok g6);
             EvCall (Fn "cirq.Y") [VObj 4] [] (Ok g7);
             EvCall (Fn "cirq.CNOT") [VObj 4; VObj 6] [] (Ok g8);
             EvCall (Fn "cirq.Z") [VObj 5] [] (Ok g9);
             EvCall (Fn "cirq.Circuit.from_ops") [g1; g2; g3; g4; g5; g6; g7; g8; g9] []
               (Ok c)]
         ++ displayed c)%list
    /\ Py.lookup "circuit" (globals (snd (exec_cell Demo.lib Cirq.cell3 cirq_before_cell3)))
       = Some c.
Proof.
  apply (sample_circuit_is_built_in_order _ Demo.lib cirq_before_cell3
           (snd (exec_cell Demo.lib Cirq.cell3 cirq_before_cell3))
           (VObj 1) (VObj 2) (VObj 3) (VObj 4) (VObj 5) (VObj 6)
           [VObj 7; VObj 8; VObj 9]).
  - vm_compute. reflexivity.
  - vm_compute. reflexivity.
  - vm_compute. reflexivity.
Defined.

(** X10. The same cell on a grid that is too small: with fewer than
    six qubits the cell does not run to its end, whatever the gate
    constructors return, and [Circuit.from_ops] is never called. *)
Theorem sample_circuit_needs_six_qubits :
  forall (L : Type) (lib : Library L) (s s' : State L) (r : Result unit)
         (qs : list Val),
    Py.lookup "cirq" (globals s) = Some (VRef "cirq") ->
    Py.lookup "qubits" (globals s) = Some (VList qs) ->
    (List.length qs < 6)%nat ->
    exec_cell lib Cirq.cell3 s = (r, s') ->
    exists (e : Exn) (evs : list Event),
      r = Raise e
      /\ log (world s') = (log (world s) ++ evs)%list
      /\ existsb (is_call_to "cirq.Circuit.from_ops") evs = false
      /\ Py.lookup "circuit" (globals s') = Py.lookup "circuit" (globals s).
Proof.
  intros L lib s s' r qs Hc Hq Hlen.
  destruct qs as [|q0 [|q1 [|q2 [|q3 [|q4 [|q5 rest]]]]]];
    simpl in Hlen; try lia; clear Hlen;
    simpl exec_cell;
    repeat first
      [ lookups
      | progress (unfold lib_call)
      | progress simpl
      | progress run
      | match goal with
        | |- context [lib ?st ?c ?a ?k] =>
            let E := fresh "E" in
            destruct (lib st c a k) as [[?|?] ?] eqn:E
        end ].
  all: intro X; injection X as <- <-; simpl.
  all: do 2 eexists; split; [reflexivity|].
  all: split; [rewrite <- ?app_assoc; simpl;
               first [reflexivity | (symmetry; apply app_nil_r)]|].
  all: split; reflexivity.
Qed.

(** The stand-in grid cut down to four qubits: the third gate asks for
    [qubits[4]]. *)
Lemma sample_circuit_needs_six_qubits_witness :
  exists (e : Exn) (evs : list Event),
    fst (exec_cell Demo.lib Cirq.cell3 cirq_with_four_qubits) = Raise e
    /\ log (world (snd (exec_cell Demo.lib Cirq.cell3 cirq_with_four_qubits)))
       = (log (world cirq_with_four_qubits) ++ evs)%list
    /\ existsb (is_call_to "cirq.Circuit.from_ops") evs = false
    /\ Py.lookup "circuit"
         (globals (snd (exec_cell Demo.lib Cirq.cell3 cirq_with_four_qubits)))
       = Py.lookup "circuit" (globals cirq_with_four_qubits).
Proof.
  apply (sample_circuit_needs_six_qubits _ Demo.lib cirq_with_four_qubits
           (snd (exec_cell Demo.lib Cirq.cell3 cirq_with_four_qubits))
           (fst (exec_cell Demo.lib Cirq.cell3 cirq_with_four_qubits))
           (map VObj [1; 2; 3; 4]%N)).
  - vm_compute. reflexivity.
  - vm_compute. reflexivity.
  - simpl. lia.
  - vm_compute. reflexivity.
Defined.

(** ** The Cirq notebook: routing and back *)

Lemma repr_ints (m : list Z) :
  Py.all_some (map Py.repr (map VInt m)) = Some (map PyRepr.Z_to_string m).
Proof.
  induction m as [|z m IH]; simpl; [reflexivity|].
  simpl in IH. now rewrite IH.
Qed.

Lemma repr_int_list (m : list Z) :
  Py.repr (VList (map VInt m)) = Some (ints_text m).
Proof.
  change (Py.repr (VList (map VInt m)))
    with (option_map (fun rs => "[" ++ Py.join ", " rs ++ "]")
                     (Py.all_some (map Py.repr (map VInt m)))).
  now rewrite repr_ints.
Qed.

Lemma str_routing_maps (m m' : list Z) :
  Py.str (routing_maps m m') = Some (routing_maps_text m m').
Proof.
  unfold routing_maps, Py.str.
  change (Py.repr (VTuple [VList (map VInt m); VList (map VInt m')]))
    with (option_map
            (fun rs => match rs with
                       | [r] => "(" ++ r ++ ",)"
                       | _ => "(" ++ Py.join ", " rs ++ ")"
                       end)
            (Py.all_some [Py.repr (VList (map VInt m)); Py.repr (VList (map VInt m'))])).
  rewrite !repr_int_list. reflexivity.
Qed.

Section Routing.

Context {L : Type}.
Variable lib : Library L.

(** The comprehension leaves every name but its own two as it was. *)
Lemma final_qubits_frame (y : string) (s : State L) :
  Syntax.expr_within (outside [y]) true Cirq.final_qubits = true ->
  Py.lookup y (globals (snd (eval lib Cirq.final_qubits s))) = Py.lookup y (globals s).
Proof.
  intro H.
  apply (inherit_eval lib _ _ _ _ (preserves_closed lib [y]) Cirq.final_qubits H s y).
  simpl. now rewrite String.eqb_refl.
Qed.

End Routing.

Section Conversion.

Local Arguments Py.str : simpl never.

Lemma routed_circuit_events :
  forall (L : Type) (lib : Library L) (s s' : State L) (c a : Val)
         (qs : list Val) (m m' : list Z),
    Py.lookup "circuit" (globals s) = Some c ->
    Py.lookup "arc" (globals s) = Some a ->
    Py.lookup "qubits" (globals s) = Some (VList qs) ->
    List.length qs = 9%nat ->
    Py.lookup "cirq_to_tk" (globals s) = Some (VRef "pytket.cirq.cirq_to_tk") ->
    Py.lookup "route" (globals s) = Some (VRef "pytket._routing.route") ->
    Py.lookup "tk_to_cirq" (globals s) = Some (VRef "pytket.cirq.tk_to_cirq") ->
    Py.lookup "print" (globals s) = None ->
    Py.lookup "enumerate" (globals s) = None ->
    routes_to lib m m' ->
    Forall (fun j => 0 <= j <= 8)%Z m ->
    exec_cell lib Cirq.cell4 s = (Ok tt, s') ->
    exists (tk routed res : Val),
      log (world s')
      = (log (world s)
           ++ [EvCall (Fn "pytket.cirq.cirq_to_tk") [c] [] (Ok tk);
               EvCall (Fn "pytket._routing.route") [tk; a] []
                 (Ok (VTuple [routed; routing_maps m m']));
               EvPrint (routing_maps_text m m');
               EvCall (Fn "pytket.cirq.tk_to_cirq")
                 [routed; VList (map (fun j => nth (Z.to_nat j) qs VNone) m)] []
                 (Ok res)]
           ++ displayed res)%list
      /\ Py.lookup "tk_routed" (globals s') = Some routed.
Proof.
  intros L lib s s' c a qs m m' Hc Ha Hq Hlen H1 H2 H3 Hp He Hroute Hb.
  change (exec_cell lib Cirq.cell4)
    with (exec lib (nth 0 Cirq.cell4 (SExpr ENone)) ;;
          exec lib (nth 1 Cirq.cell4 (SExpr ENone)) ;;
          exec lib (nth 2 Cirq.cell4 (SExpr ENone)) ;;
          (v <- eval lib Cirq.final_qubits ;; bind_targets lib ["final_qubits"] v) ;;
          (r <- eval lib (ECall (EName "tk_to_cirq")
                            [EName "tk_routed"; EName "final_qubits"] []) ;;
           match r with
           | VNone => ret tt
           | _ => emit (EvDisplay r)
           end)).
  remember (eval lib Cirq.final_qubits) as F eqn:HF.
  simpl nth. simpl exec.
  repeat first
    [ lookups
    | progress (unfold lib_call, call_builtin, print, to_str)
    | progress simpl
    | progress run
    | match goal with
      | |- context [Py.str (VTuple [VList (map VInt m); VList (map VInt m')])] =>
          change (Py.str (VTuple [VList (map VInt m); VList (map VInt m')]))
            with (Py.str (routing_maps m m'));
          rewrite str_routing_maps
      end
    | match goal with
      | |- context [lib ?st (Fn "pytket._routing.route") ?a ?k] =>
          let E := fresh "E" in
          destruct (lib st (Fn "pytket._routing.route") a k) as [[v|?] ?] eqn:E; dead;
          let X := fresh in
          pose proof (Hroute st a k v) as X; rewrite E in X;
          destruct (X eq_refl) as [routed ->]; clear X;
          unfold routing_maps
      end
    | lib_step lib ].
  subst F.
  match goal with
  | |- context [eval lib Cirq.final_qubits ?s1] =>
      destruct (final_qubits_value L lib s1 qs m [VList (map VInt m')])
        as [Hv Hw];
        [ simpl; look; exact Hq | exact Hlen | simpl; look; reflexivity
        | simpl; look; exact He | exact Hb | ];
      pose proof (final_qubits_frame lib "tk_to_cirq" s1 eq_refl) as Hf1;
      pose proof (final_qubits_frame lib "tk_routed" s1 eq_refl) as Hf2;
      destruct (eval lib Cirq.final_qubits s1) as [r2 [g2 w2]]
  end.
  simpl in Hv, Hw, Hf1, Hf2. subst r2 w2.
  repeat rewrite lookup_update in Hf1, Hf2. simpl in Hf1, Hf2. rewrite H3 in Hf1.
  repeat first
    [ progress look
    | rewrite Hf1
    | rewrite Hf2
    | progress (unfold lib_call)
    | progress simpl
    | progress run
    | lib_step lib ].
  match goal with
  | |- context [match ?v with VNone => _ | _ => _ end] => destruct v
  end.
  all: simpl; intro X; injection X as <-; simpl.
  all: rewrite <- ?app_assoc; simpl.
  all: do 3 eexists; split.
  all: first [ apply (f_equal (app _));
               do 4 (apply (f_equal2 (@cons Event)); [reflexivity|]); reflexivity
             | simpl; look; assumption ].
Qed.


End Conversion.

(** X11. The fourth cell of the Cirq notebook, started after the first
    three (the three pytket functions imported, [circuit], [arc] and
    nine [qubits] bound) with a [route] that returns a circuit and two
    maps of integers, the entries of the first between 0 and 8: when
    the cell runs to its end it has converted [circuit] with
    [cirq_to_tk], routed the result on [arc], printed the two maps as
    Python prints a tuple of two lists, and called [tk_to_cirq] on the
    routed circuit and the list whose [i]-th element is
    [qubits[qmap[0][i]]]; what [tk_to_cirq] returns is displayed.  The
    second map is only printed. *)
Theorem routed_circuit_is_converted_back :
  forall (L : Type) (lib : Library L) (s s' : State L) (c a : Val)
         (qs : list Val) (m m' : list Z),
    Py.lookup "circuit" (globals s) = Some c ->
    Py.lookup "arc" (globals s) = Some a ->
    Py.lookup "qubits" (globals s) = Some (VList qs) ->
    List.length qs = 9%nat ->
    Py.lookup "cirq_to_tk" (globals s) = Some (VRef "pytket.cirq.cirq_to_tk") ->
    Py.lookup "route" (globals s) = Some (VRef "pytket._routing.route") ->
    Py.lookup "tk_to_cirq" (globals s) = Some (VRef "pytket.cirq.tk_to_cirq") ->
    Py.lookup "print" (globals s) = None ->
    Py.lookup "enumerate" (globals s) = None ->
    routes_to lib m m' ->
    Forall (fun j => 0 <= j <= 8)%Z m ->
    exec_cell lib Cirq.cell4 s = (Ok tt, s') ->
    exists (tk routed res : Val),
      log (world s')
      = (log (world s)
           ++ [EvCall (Fn "pytket.cirq.cirq_to_tk") [c] [] (Ok tk);
               EvCall (Fn "pytket._routing.route") [tk; a] []
                 (Ok (VTuple [routed; routing_maps m m']));
               EvPrint (routing_maps_text m m');
               EvCall (Fn "pytket.cirq.tk_to_cirq")
                 [routed; VList (map (fun j => nth (Z.to_nat j) qs VNone) m)] []
                 (Ok res)]
           ++ displayed res)%list.
Proof.
  intros L lib s s' c a qs m m' Hc Ha Hq Hlen H1 H2 H3 Hp He Hroute Hb Hrun.
  destruct (routed_circuit_events L lib s s' c a qs m m'
              Hc Ha Hq Hlen H1 H2 H3 Hp He Hroute Hb Hrun)
    as (tk & routed & res & Hlog & _).
  now exists tk, routed, res.
Qed.


(** The stand-in run after the third cell, whose [route] returns the
    maps recorded in the notebook: the printed line is the recorded
    one. *)
Lemma routed_circuit_is_converted_back_witness :
  exists (tk routed res : Val),
    log (world (snd (exec_cell Demo.lib Cirq.cell4 cirq_before_cell4)))
    = (log (world cirq_before_cell4)
         ++ [EvCall (Fn "pytket.cirq.cirq_to_tk") [VObj 19] [] (Ok tk);
             EvCall (Fn "pytket._routing.route") [tk; VObj 0] []
               (Ok (VTuple [routed;
                            routing_maps [8; 3; 4; 6; 5; 7; 2; 1; 0]
                                         [8; 3; 5; 7; 4; 6; 2; 1; 0]]));
             EvPrint "([8, 3, 4, 6, 5, 7, 2, 1, 0], [8, 3, 5, 7, 4, 6, 2, 1, 0])";
             EvCall (Fn "pytket.cirq.tk_to_cirq")
               [routed;
                VList (map (fun j => nth (Z.to_nat j) (map VObj [1; 2; 3; 4; 5; 6; 7; 8; 9]%N)
                                         VNone)
                           [8; 3; 4; 6; 5; 7; 2; 1; 0])] []
               (Ok res)]
         ++ displayed res)%list.
Proof.
  assert (E : "([8, 3, 4, 6, 5, 7, 2, 1, 0], [8, 3, 5, 7, 4, 6, 2, 1, 0])"
              = routing_maps_text [8; 3; 4; 6; 5; 7; 2; 1; 0] [8; 3; 5; 7; 4; 6; 2; 1; 0]).
  { vm_compute. reflexivity. }
  rewrite E.
  apply (routed_circuit_is_converted_back _ Demo.lib cirq_before_cell4
           (snd (exec_cell Demo.lib Cirq.cell4 cirq_before_cell4))
           (VObj 19) (VObj 0) (map VObj [1; 2; 3; 4; 5; 6; 7; 8; 9]%N)
           [8; 3; 4; 6; 5; 7; 2; 1; 0] [8; 3; 5; 7; 4; 6; 2; 1; 0]).
  - vm_compute. reflexivity.
  - vm_compute. reflexivity.
  - vm_compute. reflexivity.
  - reflexivity.
  - vm_compute. reflexivity.
  - vm_compute. reflexivity.
  - vm_compute. reflexivity.
  - vm_compute. reflexivity.
  - vm_compute. reflexivity.
  - intros st args kwargs v H. vm_compute in H. injection H as <-.
    eexists. reflexivity.
  - repeat constructor; lia.
  - vm_compute. reflexivity.
Defined.
(** X12. The same cell when [route] returns something that is not a
    pair: with [route] returning a sequence [v] of Python's own whose
    length is not two, the cell stops at
    [tk_routed, qmap = route(tk_circ, arc)]; nothing is printed and
    [tk_to_cirq] is never called, neither [tk_routed] nor [qmap] is
    bound anew, and unless [cirq_to_tk] failed first the exception is
    a [ValueError]. *)
Theorem routing_result_must_be_a_pair :
  forall (L : Type) (lib : Library L) (s s' : State L) (r : Result unit)
         (c a v : Val) (vs : list Val),
    Py.lookup "circuit" (globals s) = Some c ->
    Py.lookup "arc" (globals s) = Some a ->
    Py.lookup "cirq_to_tk" (globals s) = Some (VRef "pytket.cirq.cirq_to_tk") ->
    Py.lookup "route" (globals s) = Some (VRef "pytket._routing.route") ->
    (forall st args, fst (lib st (Fn "pytket._routing.route") args []) = Ok v) ->
    is_obj v = false ->
    Py.iterate v = Ok vs ->
    List.length vs <> 2%nat ->
    exec_cell lib Cirq.cell4 s = (r, s') ->
    exists (e : Exn) (evs : list Event),
      r = Raise e
      /\ log (world s') = (log (world s) ++ evs)%list
      /\ existsb (is_call_to "pytket.cirq.tk_to_cirq") evs = false
      /\ forallb (fun ev => negb (is_output ev)) evs = true
      /\ (forallb succeeded evs = true -> e = ValueError)
      /\ Py.lookup "tk_routed" (globals s') = Py.lookup "tk_routed" (globals s)
      /\ Py.lookup "qmap" (globals s') = Py.lookup "qmap" (globals s).
Proof.
  intros L lib s s' r c a v vs Hc Ha H1 H2 Hroute Hobj Hit Hlen.
  change (exec_cell lib Cirq.cell4)
    with (exec lib (nth 0 Cirq.cell4 (SExpr ENone)) ;;
          (x <- eval lib (ECall (EName "route") [EName "tk_circ"; EName "arc"] []) ;;
           bind_targets lib ["tk_routed"; "qmap"] x) ;;
          exec_cell lib (skipn 2 Cirq.cell4)).
  remember (exec_cell lib (skipn 2 Cirq.cell4)) as rest eqn:Hrest.
  simpl nth. simpl exec. simpl eval. run. rewrite H1. simpl. run. rewrite Hc. simpl.
  unfold lib_call.
  destruct (lib (libst (world s)) (Fn "pytket.cirq.cirq_to_tk") [c] []) as [[tk|e] l1].
  - simpl. look. rewrite H2. simpl. look. rewrite Ha. simpl. unfold lib_call.
    match goal with
    | |- context [lib ?st (Fn "pytket._routing.route") ?args []] =>
        pose proof (Hroute st args) as Hr;
        destruct (lib st (Fn "pytket._routing.route") args []) as [rv l2]
    end.
    simpl in Hr. subst rv. simpl.
    unfold iterate. rewrite Hobj. unfold lift. rewrite Hit.
    destruct vs as [|x [|y [|z vs]]]; simpl; try (now elim Hlen).
    all: intro X; injection X as <- <-; simpl.
    all: do 2 eexists; split; [reflexivity|].
    all: split; [rewrite <- app_assoc; reflexivity|].
    all: repeat split; look; reflexivity.
  - simpl. intro X. injection X as <- <-. simpl.
    do 2 eexists. split; [reflexivity|].
    split; [reflexivity|].
    repeat split. intro X. discriminate X.
Qed.

(** The stand-in library with a [route] that returns the circuit
    alone. *)
Lemma routing_result_must_be_a_pair_witness :
  exists (e : Exn) (evs : list Event),
    fst (exec_cell route_without_maps Cirq.cell4 cirq_before_cell4) = Raise e
    /\ log (world (snd (exec_cell route_without_maps Cirq.cell4 cirq_before_cell4)))
       = (log (world cirq_before_cell4) ++ evs)%list
    /\ existsb (is_call_to "pytket.cirq.tk_to_cirq") evs = false
    /\ forallb (fun ev => negb (is_output ev)) evs = true
    /\ (forallb succeeded evs = true -> e = ValueError)
    /\ Py.lookup "tk_routed"
         (globals (snd (exec_cell route_without_maps Cirq.cell4 cirq_before_cell4)))
       = Py.lookup "tk_routed" (globals cirq_before_cell4)
    /\ Py.lookup "qmap"
         (globals (snd (exec_cell route_without_maps Cirq.cell4 cirq_before_cell4)))
       = Py.lookup "qmap" (globals cirq_before_cell4).
Proof.
  apply (routing_result_must_be_a_pair _ route_without_maps cirq_before_cell4
           (snd (exec_cell route_without_maps Cirq.cell4 cirq_before_cell4))
           (fst (exec_cell route_without_maps Cirq.cell4 cirq_before_cell4))
           (VObj 19) (VObj 0) (VTuple [VNone]) [VNone]).
  - vm_compute. reflexivity.
  - vm_compute. reflexivity.
  - vm_compute. reflexivity.
  - vm_compute. reflexivity.
  - intros st args. reflexivity.
  - reflexivity.
  - reflexivity.
  - simpl. lia.
  - vm_compute. reflexivity.
Defined.
(** ** The Cirq notebook: a whole run *)

Section WholeRun.

Context {L : Type}.
Variable lib : Library L.

Lemma grid_setup (st : L) (s2 : State L) :
  returns_qubits lib 9 ->
  run_cells lib (firstn 2 Cirq.notebook) (fresh st) = (Ok tt, s2) ->
  exists (i1 i2 i3 arc : Val) (qs : list Val),
    List.length qs = 9%nat
    /\ log (world s2)
       = [EvCall (Import "cirq" []) [] [] (Ok i1);
          EvCall (Import "pytket._routing" ["SquareGrid"; "route"]) [] [] (Ok i2);
          EvCall (Import "pytket.cirq" ["get_grid_qubits"; "cirq_to_tk"; "tk_to_cirq"])
            [] [] (Ok i3);
          EvCall (Fn "pytket._routing.SquareGrid") [VInt 3; VInt 3] [] (Ok arc);
          EvCall (Fn "pytket.cirq.get_grid_qubits") [arc; VRange 9] [] (Ok (VList qs))]
    /\ globals s2
       = [("cirq", VRef "cirq");
          ("SquareGrid", VRef "pytket._routing.SquareGrid");
          ("route", VRef "pytket._routing.route");
          ("get_grid_qubits", VRef "pytket.cirq.get_grid_qubits");
          ("cirq_to_tk", VRef "pytket.cirq.cirq_to_tk");
          ("tk_to_cirq", VRef "pytket.cirq.tk_to_cirq");
          ("arc", arc);
          ("qubits", VList qs)].
Proof.
  intros Hqs.
  unfold fresh. simpl firstn. simpl run_cells. simpl exec_cell.
  repeat first
    [ progress (unfold lib_call, call_builtin)
    | progress simpl
    | progress run
    | match goal with
      | |- context [lib ?st0 (Fn "pytket.cirq.get_grid_qubits") [?a; VRange 9] ?k] =>
          let E := fresh "E" in
          destruct (lib st0 (Fn "pytket.cirq.get_grid_qubits") [a; VRange 9] k)
            as [[v|?] ?] eqn:E;
          dead;
          let X := fresh in
          pose proof (Hqs st0 a k v) as X; simpl in X; rewrite E in X;
          destruct (X eq_refl) as (qs & -> & Hlen); clear X
      end
    | lib_step lib ].
  intro X. injection X as <-. simpl.
  do 4 eexists. exists qs. split; [exact Hlen|]. split; reflexivity.
Qed.

End WholeRun.

(** X16. A run of the Cirq notebook that reaches its end, where
    [get_grid_qubits] returns nine qubits for [range(9)] and [route]
    returns a circuit and two maps of integers, the entries of the
    first between 0 and 8, makes exactly these calls in this order:
    the three imports; [SquareGrid(3, 3)] and [get_grid_qubits] on
    that grid; the nine gates of the sample circuit on qubits 0 to 5
    of the grid and [Circuit.from_ops] on the nine gates, whose result
    is displayed; [cirq_to_tk] on that circuit, [route] on the
    converted circuit and the same grid, the print of the two maps, and
    [tk_to_cirq] on the routed circuit and the grid's qubits reordered
    by the first map, whose result is displayed.  The fifth cell is
    empty and adds nothing. *)
Theorem cirq_circuit_is_routed :
  forall (L : Type) (lib : Library L) (st : L) (s' : State L) (m m' : list Z),
    returns_qubits lib 9 ->
    routes_to lib m m' ->
    Forall (fun j => 0 <= j <= 8)%Z m ->
    run lib Cirq.notebook st = (Ok tt, s') ->
    exists (i1 i2 i3 arc g1 g2 g3 g4 g5 g6 g7 g8 g9 c tk routed res : Val)
           (qs : list Val),
      List.length qs = 9%nat
      /\ log (world s')
         = ([EvCall (Import "cirq" []) [] [] (Ok i1);
             EvCall (Import "pytket._routing" ["SquareGrid"; "route"]) [] [] (Ok i2);
             EvCall (Import "pytket.cirq" ["get_grid_qubits"; "cirq_to_tk"; "tk_to_cirq"])
               [] [] (Ok i3);
             EvCall (Fn "pytket._routing.SquareGrid") [VInt 3; VInt 3] [] (Ok arc);
             EvCall (Fn "pytket.cirq.get_grid_qubits") [arc; VRange 9] [] (Ok (VList qs));
             EvCall (Fn "cirq.H") [nth 0 qs VNone] [] (Ok g1);
             EvCall (Fn "cirq.X") [nth 1 qs VNone] [] (Ok g2);
             EvCall (Fn "cirq.CNOT") [nth 0 qs VNone; nth 4 qs VNone] [] (Ok g3);
             EvCall (Fn "cirq.Y") [nth 2 qs VNone] [] (Ok g4);
             EvCall (Fn "cirq.CNOT") [nth 2 qs VNone; nth 4 qs VNone] [] (Ok g5);
             EvCall (Fn "cirq.CNOT") [nth 3 qs VNone; nth 4 qs VNone] [] (Ok g6);
             EvCall (Fn "cirq.Y") [nth 3 qs VNone] [] (Ok g7);
             EvCall (Fn "cirq.CNOT") [nth 3 qs VNone; nth 5 qs VNone] [] (Ok g8);
             EvCall (Fn "cirq.Z") [nth 4 qs VNone] [] (Ok g9);
             EvCall (Fn "cirq.Circuit.from_ops") [g1; g2; g3; g4; g5; g6; g7; g8; g9] []
               (Ok c)]
            ++ displayed c
            ++ [EvCall (Fn "pytket.cirq.cirq_to_tk") [c] [] (Ok tk);
                EvCall (Fn "pytket._routing.route") [tk; arc] []
                  (Ok (VTuple [routed; routing_maps m m']));
                EvPrint (routing_maps_text m m');
                EvCall (Fn "pytket.cirq.tk_to_cirq")
                  [routed; VList (map (fun j => nth (Z.to_nat j) qs VNone) m)] []
                  (Ok res)]
            ++ displayed res)%list.
Proof.
  intros L lib st s' m m' Hqs Hroute Hb. unfold run.
  change Cirq.notebook
    with (firstn 2 Cirq.notebook ++ [Cirq.cell3; Cirq.cell4; Cirq.cell5])%list.
  rewrite run_cells_app.
  destruct (run_cells lib (firstn 2 Cirq.notebook) (fresh st)) as [[[]|e] s2] eqn:E2;
    [|discriminate].
  destruct (grid_setup lib st s2 Hqs E2)
    as (i1 & i2 & i3 & arc & qs & Hlen & Hlog2 & Hg2).
  cbn [run_cells]. unfold bind at 1.
  destruct (exec_cell lib Cirq.cell3 s2) as [[[]|e] s3] eqn:E3; [|discriminate].
  destruct qs as [|q0 [|q1 [|q2 [|q3 [|q4 [|q5 [|q6 [|q7 [|q8 [|q9 qs]]]]]]]]]];
    try discriminate Hlen.
  destruct (circuit_events L lib s2 s3 q0 q1 q2 q3 q4 q5 [q6; q7; q8])
    as (g1 & g2 & g3 & g4 & g5 & g6 & g7 & g8 & g9 & c & Hlog3 & Hg3);
    [now rewrite Hg2 | now rewrite Hg2 | exact E3 |].
  unfold bind at 1.
  destruct (exec_cell lib Cirq.cell4 s3) as [[[]|e] s4] eqn:E4; [|discriminate].
  destruct (routed_circuit_events L lib s3 s4 c arc
              [q0; q1; q2; q3; q4; q5; q6; q7; q8] m m')
    as (tk & routed & res & Hlog4 & _);
    try (rewrite Hg3, Hg2; reflexivity); try assumption; try reflexivity.
  simpl. intro X. injection X as <-.
  exists i1, i2, i3, arc, g1, g2, g3, g4, g5, g6, g7, g8, g9, c, tk, routed, res,
         [q0; q1; q2; q3; q4; q5; q6; q7; q8].
  split; [reflexivity|].
  rewrite Hlog4, Hlog3, Hlog2. simpl. rewrite <- ?app_assoc. reflexivity.
Qed.

(** The stand-in run of the whole notebook. *)
Lemma cirq_circuit_is_routed_witness :
  exists (i1 i2 i3 arc g1 g2 g3 g4 g5 g6 g7 g8 g9 c tk routed res : Val)
         (qs : list Val),
    List.length qs = 9%nat
    /\ log (world (snd (run Demo.lib Cirq.notebook Demo.init)))
       = ([EvCall (Import "cirq" []) [] [] (Ok i1);
           EvCall (Import "pytket._routing" ["SquareGrid"; "route"]) [] [] (Ok i2);
           EvCall (Import "pytket.cirq" ["get_grid_qubits"; "cirq_to_tk"; "tk_to_cirq"])
             [] [] (Ok i3);
           EvCall (Fn "pytket._routing.SquareGrid") [VInt 3; VInt 3] [] (Ok arc);
           EvCall (Fn "pytket.cirq.get_grid_qubits") [arc; VRange 9] [] (Ok (VList qs));
           EvCall (Fn "cirq.H") [nth 0 qs VNone] [] (Ok g1);
           EvCall (Fn "cirq.X") [nth 1 qs VNone] [] (Ok g2);
           EvCall (Fn "cirq.CNOT") [nth 0 qs VNone; nth 4 qs VNone] [] (Ok g3);
           EvCall (Fn "cirq.Y") [nth 2 qs VNone] [] (Ok g4);
           EvCall (Fn "cirq.CNOT") [nth 2 qs VNone; nth 4 qs VNone] [] (Ok g5);
           EvCall (Fn "cirq.CNOT") [nth 3 qs VNone; nth 4 qs VNone] [] (Ok g6);
           EvCall (Fn "cirq.Y") [nth 3 qs VNone] [] (Ok g7);
           EvCall (Fn "cirq.CNOT") [nth 3 qs VNone; nth 5 qs VNone] [] (Ok g8);
           EvCall (Fn "cirq.Z") [nth 4 qs VNone] [] (Ok g9);
           EvCall (Fn "cirq.Circuit.from_ops") [g1; g2; g3; g4; g5; g6; g7; g8; g9] []
             (Ok c)]
          ++ displayed c
          ++ [EvCall (Fn "pytket.cirq.cirq_to_tk") [c] [] (Ok tk);
              EvCall (Fn "pytket._routing.route") [tk; arc] []
                (Ok (VTuple [routed;
                             routing_maps [8; 3; 4; 6; 5; 7; 2; 1; 0]
                                          [8; 3; 5; 7; 4; 6; 2; 1; 0]]));
              EvPrint (routing_maps_text [8; 3; 4; 6; 5; 7; 2; 1; 0]
                                         [8; 3; 5; 7; 4; 6; 2; 1; 0]);
              EvCall (Fn "pytket.cirq.tk_to_cirq")
                [routed;
                 VList (map (fun j => nth (Z.to_nat j) qs VNone)
                            [8; 3; 4; 6; 5; 7; 2; 1; 0])] []
                (Ok res)]
          ++ displayed res)%list.
Proof.
  apply (cirq_circuit_is_routed _ Demo.lib Demo.init
           (snd (run Demo.lib Cirq.notebook Demo.init))
           [8; 3; 4; 6; 5; 7; 2; 1; 0] [8; 3; 5; 7; 4; 6; 2; 1; 0]).
  - intros st arc kwargs v H. vm_compute in H. injection H as <-.
    eexists. split; reflexivity.
  - intros st args kwargs v H. vm_compute in H. injection H as <-.
    eexists. reflexivity.
  - repeat constructor; lia.
  - vm_compute. reflexivity.
Defined.

(** ** The QSE notebook: the optimum found by VQE *)

(** X13. The report of the ground state when VQE returned no
    eigenvalue: if [results] is a dict without the key ['eigvals'],
    [eigval = results['eigvals'][0]] raises [KeyError('eigvals')]; if
    the eigenvalues are an empty sequence, it raises [IndexError].
    Either way no library is called, nothing is printed and no name is
    bound: the state is left as it was. *)
Theorem ground_state_needs_an_eigenvalue :
  forall (L : Type) (lib : Library L) (s : State L) (d : list (string * Val))
         (e : Exn),
    Py.lookup "results" (globals s) = Some (VDict d) ->
    eigvals_error (Py.lookup "eigvals" d) = Some e ->
    exec_block lib ground_state_report s = (Raise e, s).
Proof.
  intros L lib s d e Hr He.
  unfold ground_state_report. simpl firstn. simpl exec_block. run.
  rewrite Hr. simpl.
  destruct (Py.lookup "eigvals" d) as [v|]; simpl in He.
  - destruct v as [| | | | | |l|l| | |l| |]; try discriminate He;
      destruct l; try discriminate He; injection He as <-; reflexivity.
  - injection He as <-. reflexivity.
Qed.

(** The stand-in state with the eigenvalues taken out of [results]. *)
Lemma ground_state_needs_an_eigenvalue_witness :
  exec_block Demo.lib ground_state_report qse_without_eigvals
  = (Raise (KeyError "eigvals"), qse_without_eigvals).
Proof.
  apply (ground_state_needs_an_eigenvalue _ Demo.lib qse_without_eigvals
           [("opt_params", VArray [])] (KeyError "eigvals")).
  - vm_compute. reflexivity.
  - reflexivity.
Defined.

Section Parameters.

Local Arguments Py.str : simpl never.

(** X14. The end of the seventh cell, started where [results] is a
    dict whose ['opt_params'] is [p]: [opti_amplitudes] is bound to
    [p] itself, the value QSE later takes as its starting point; the
    line printed before is ["GS Parameters: "] followed by the text of
    [p], Python's own when it has one and otherwise what the owner's
    [__str__] returns; no other library call is made. *)
Theorem optimal_parameters_are_kept :
  forall (L : Type) (lib : Library L) (s s' : State L)
         (d : list (string * Val)) (p : Val),
    Py.lookup "results" (globals s) = Some (VDict d) ->
    Py.lookup "opt_params" d = Some p ->
    Py.lookup "print" (globals s) = None ->
    exec_block lib parameters_report s = (Ok tt, s') ->
    exists (t : string),
      Py.lookup "opti_amplitudes" (globals s') = Some p
      /\ log (world s')
         = (log (world s) ++ text_events p t ++ [EvPrint ("GS Parameters: " ++ t)])%list
      /\ (forall t', Py.str p = Some t' -> t' = t).
Proof.
  intros L lib s s' d p Hr Hp Hprint.
  unfold parameters_report, text_events. simpl skipn. simpl exec_block.
  repeat first
    [ lookups
    | rewrite Hp
    | progress (unfold lib_call, call_builtin, print, format, to_str, Py.fill)
    | progress simpl
    | progress run
    | lib_step lib
    | match goal with
      | |- context [Py.str p] => destruct (Py.str p) as [t|] eqn:Es
      | |- context [match ?v with VStr _ => _ | _ => _ end] =>
          is_var v; destruct v; dead
      end ].
  all: intro X; injection X as <-; simpl.
  all: eexists; rewrite append_empty, <- ?app_assoc.
  all: repeat split; [now look|].
  - intros t' Ht. now injection Ht.
  - intros t' Ht. discriminate Ht.
Qed.

End Parameters.

(** The stand-in run before the parameters are reported. *)
Lemma optimal_parameters_are_kept_witness :
  exists (t : string),
    Py.lookup "opti_amplitudes"
      (globals (snd (exec_block Demo.lib parameters_report qse_before_parameters_report)))
    = Some (VArray [Demo.f 0 0; Demo.f 0 0; Demo.f (-1050) 4])
    /\ log (world (snd (exec_block Demo.lib parameters_report
                          qse_before_parameters_report)))
       = (log (world qse_before_parameters_report)
            ++ text_events (VArray [Demo.f 0 0; Demo.f 0 0; Demo.f (-1050) 4]) t
            ++ [EvPrint ("GS Parameters: " ++ t)])%list
    /\ (forall t', Py.str (VArray [Demo.f 0 0; Demo.f 0 0; Demo.f (-1050) 4]) = Some t'
                   -> t' = t).
Proof.
  apply (optimal_parameters_are_kept _ Demo.lib qse_before_parameters_report
           (snd (exec_block Demo.lib parameters_report qse_before_parameters_report))
           [("eigvals", VArray [VComplex (PyFloat.of_decimal (-18921568982) 10)
                                         (S754_zero false)]);
            ("opt_params", VArray [Demo.f 0 0; Demo.f 0 0; Demo.f (-1050) 4])]
           (VArray [Demo.f 0 0; Demo.f 0 0; Demo.f (-1050) 4])).
  - vm_compute. reflexivity.
  - reflexivity.
  - vm_compute. reflexivity.
  - vm_compute. reflexivity.
Defined.

(** ** The QSE notebook: the qubit operator *)

(** X17. The sixth cell of the QSE notebook up to [qubitOp.chop],
    started as for the variational form, with [FermionicOperator] and
    [mapping] returning library objects: the one-body integrals are
    read twice, once for their shape and once for the operator; the
    fermionic operator is constructed from the molecule's one-body
    integrals as [h1] and its two-body integrals as [h2]; it is mapped
    with [map_type='JORDAN_WIGNER'] and [threshold=0.00000001]; and
    [chop] is called on the operator that mapping returned.  These and
    the three imports are all the calls made, and [n_qubits],
    [n_electrons], [ferOp] and [qubitOp] are bound to the number of
    rows of the integrals, to [a + b - c], and to the two objects. *)
Theorem qubit_operator_is_mapped :
  forall (L : Type) (lib : Library L) (s s' : State L) (h : N)
         (h1 : list Val) (a b c : Z),
    Py.lookup "molecule" (globals s) = Some (VObj h) ->
    (forall st, fst (lib st (GetAttr "one_body_integrals") [VObj h] []) = Ok (VArray h1)) ->
    (forall st, fst (lib st (GetAttr "num_alpha") [VObj h] []) = Ok (VInt a)) ->
    (forall st, fst (lib st (GetAttr "num_beta") [VObj h] []) = Ok (VInt b)) ->
    (forall st, fst (lib st (GetAttr "molecular_charge") [VObj h] []) = Ok (VInt c)) ->
    returns_objects lib (Fn "qiskit_aqua_chemistry.FermionicOperator") ->
    returns_objects lib (Method "mapping") ->
    exec_block lib (firstn 8 QSE.cell6) s = (Ok tt, s') ->
    exists (i1 i2 i3 h2 r : Val) (fer q : N) (x : PyFloat.t),
      log (world s')
      = (log (world s)
           ++ [EvCall (Import "qiskit_aqua_chemistry" ["FermionicOperator"]) [] [] (Ok i1);
               EvCall (Import "qiskit_aqua_chemistry.aqua_extensions.components.initial_states"
                         ["HartreeFock"]) [] [] (Ok i2);
               EvCall (Import "qiskit_aqua_chemistry.aqua_extensions.components.variational_forms"
                         ["UCCSD"]) [] [] (Ok i3);
               EvCall (GetAttr "one_body_integrals") [VObj h] [] (Ok (VArray h1));
               EvCall (GetAttr "num_alpha") [VObj h] [] (Ok (VInt a));
               EvCall (GetAttr "num_beta") [VObj h] [] (Ok (VInt b));
               EvCall (GetAttr "molecular_charge") [VObj h] [] (Ok (VInt c));
               EvCall (GetAttr "one_body_integrals") [VObj h] [] (Ok (VArray h1));
               EvCall (GetAttr "two_body_integrals") [VObj h] [] (Ok h2);
               EvCall (Fn "qiskit_aqua_chemistry.FermionicOperator") []
                 [("h1", VArray h1); ("h2", h2)] (Ok (VObj fer));
               EvCall (Method "mapping") [VObj fer]
                 [("map_type", VStr "JORDAN_WIGNER");
                  ("threshold", VFloat (PyFloat.of_decimal 1 8))]
                 (Ok (VObj q));
               EvCall (Method "chop") [VObj q; VFloat x] [] (Ok r)])%list
      /\ Py.lookup "n_qubits" (globals s') = Some (VInt (Z.of_nat (List.length h1)))
      /\ Py.lookup "n_electrons" (globals s') = Some (VInt (a + b - c))
      /\ Py.lookup "ferOp" (globals s') = Some (VObj fer)
      /\ Py.lookup "qubitOp" (globals s') = Some (VObj q).
Proof.
  intros L lib s s' h h1 a b c Hm H1 Ha Hb Hc Hf Hq.
  simpl firstn. simpl exec_block. sym lib.
  all: intro X; injection X as <-; simpl.
  all: rewrite <- ?app_assoc; simpl.
  all: do 8 eexists; split; [reflexivity|]; simpl; look; repeat split.
Qed.

(** The stand-in run at the start of the sixth cell. *)
Lemma qubit_operator_is_mapped_witness :
  exists (i1 i2 i3 h2 r : Val) (fer q : N) (x : PyFloat.t),
    log (world (snd (exec_block Demo.lib (firstn 8 QSE.cell6) qse_before_cell6)))
    = (log (world qse_before_cell6)
         ++ [EvCall (Import "qiskit_aqua_chemistry" ["FermionicOperator"]) [] [] (Ok i1);
             EvCall (Import "qiskit_aqua_chemistry.aqua_extensions.components.initial_states"
                       ["HartreeFock"]) [] [] (Ok i2);
             EvCall (Import "qiskit_aqua_chemistry.aqua_extensions.components.variational_forms"
                       ["UCCSD"]) [] [] (Ok i3);
             EvCall (GetAttr "one_body_integrals") [VObj 6] []
               (Ok (Demo.square 4 (Demo.f 0 0)));
             EvCall (GetAttr "num_alpha") [VObj 6] [] (Ok (VInt 1));
             EvCall (GetAttr "num_beta") [VObj 6] [] (Ok (VInt 1));
             EvCall (GetAttr "molecular_charge") [VObj 6] [] (Ok (VInt 0));
             EvCall (GetAttr "one_body_integrals") [VObj 6] []
               (Ok (Demo.square 4 (Demo.f 0 0)));
             EvCall (GetAttr "two_body_integrals") [VObj 6] [] (Ok h2);
             EvCall (Fn "qiskit_aqua_chemistry.FermionicOperator") []
               [("h1", Demo.square 4 (Demo.f 0 0)); ("h2", h2)] (Ok (VObj fer));
             EvCall (Method "mapping") [VObj fer]
               [("map_type", VStr "JORDAN_WIGNER");
                ("threshold", VFloat (PyFloat.of_decimal 1 8))]
               (Ok (VObj q));
             EvCall (Method "chop") [VObj q; VFloat x] [] (Ok r)])%list
    /\ Py.lookup "n_qubits"
         (globals (snd (exec_block Demo.lib (firstn 8 QSE.cell6) qse_before_cell6)))
       = Some (VInt 4)
    /\ Py.lookup "n_electrons"
         (globals (snd (exec_block Demo.lib (firstn 8 QSE.cell6) qse_before_cell6)))
       = Some (VInt 2)
    /\ Py.lookup "ferOp"
         (globals (snd (exec_block Demo.lib (firstn 8 QSE.cell6) qse_before_cell6)))
       = Some (VObj fer)
    /\ Py.lookup "qubitOp"
         (globals (snd (exec_block Demo.lib (firstn 8 QSE.cell6) qse_before_cell6)))
       = Some (VObj q).
Proof.
  apply (qubit_operator_is_mapped _ Demo.lib qse_before_cell6
           (snd (exec_block Demo.lib (firstn 8 QSE.cell6) qse_before_cell6))
           6%N (repeat (VArray (repeat (Demo.f 0 0) 4)) 4) 1 1 0).
  - vm_compute. reflexivity.
  - intro st. reflexivity.
  - intro st. reflexivity.
  - intro st. reflexivity.
  - intro st. reflexivity.
  - intros st args kwargs v H. vm_compute in H. injection H as <-. reflexivity.
  - intros st args kwargs v H. vm_compute in H. injection H as <-. reflexivity.
  - vm_compute. reflexivity.
Defined.


(** ** Only the seven packages are called *)

Lemma top_package_attr (p a : string) :
  Py.top_package (p ++ "." ++ a) = Py.top_package p.
Proof.
  induction p as [|c p IH]; simpl; [reflexivity|].
  destruct (Ascii.eqb c ".") eqn:E.
  - apply Ascii.eqb_eq in E. subst c. reflexivity.
  - assert (Hc : c <> "."%char) by (intro; subst c; discriminate E).
    destruct c as [[] [] [] [] [] [] [] []]; try (now elim Hc);
      simpl; f_equal; exact IH.
Qed.

Lemma in_packages_attr (p a : string) :
  in_packages p = true -> in_packages (p ++ "." ++ a) = true.
Proof. unfold in_packages. now rewrite top_package_attr. Qed.

Lemma fine_all (l : list Val) :
  forallb within_packages l = true <-> Forall fine l.
Proof.
  rewrite forallb_forall, Forall_forall. reflexivity.
Qed.

Lemma fine_collect (rs : list (Result Val)) (l : list Val) :
  Forall (fun r => forall v, r = Ok v -> fine v) rs ->
  Py.collect rs = Ok l -> Forall fine l.
Proof.
  intro H. revert l. induction H as [|r rs Hr _ IH]; simpl; intros l E.
  - injection E as <-. constructor.
  - destruct r as [v|e]; [|discriminate E].
    destruct (Py.collect rs) as [l'|e]; [|discriminate E].
    injection E as <-. constructor; [now apply Hr | now apply IH].
Qed.

Lemma fine_num_binop op a b v : Py.num_binop op a b = Ok v -> fine v.
Proof.
  destruct op, a, b; simpl;
    repeat match goal with
           | |- context [if ?c then _ else _] => destruct c
           | |- context [let '(_, _) := ?p in _] => destruct p
           end;
    intro E; try discriminate E; injection E as <-; reflexivity.
Qed.

Lemma forallb_concat_repeat (l : list Val) (n : nat) :
  forallb within_packages l = true ->
  forallb within_packages (List.concat (repeat l n)) = true.
Proof.
  intro H. induction n as [|n IH]; simpl; [reflexivity|].
  now rewrite forallb_app, H, IH.
Qed.

Lemma fine_seq_binop op a b v :
  fine a -> fine b -> Py.seq_binop op a b = Ok v -> fine v.
Proof.
  unfold fine.
  destruct op, a, b; simpl; intros Ha Hb E; try discriminate E;
    injection E as <-; simpl;
    first [ reflexivity
          | now rewrite forallb_app, Ha, Hb
          | now apply forallb_concat_repeat ].
Qed.

Lemma fine_scalar_binop op a b v :
  fine a -> fine b -> Py.scalar_binop op a b = Ok v -> fine v.
Proof.
  unfold Py.scalar_binop. intros Ha Hb.
  destruct (Py.as_num a); [destruct (Py.as_num b)|];
    eauto using fine_num_binop, fine_seq_binop.
Qed.

Lemma fine_elem_scalar op swap a s v :
  fine a -> fine s -> Py.elem_scalar op swap a s = Ok v -> fine v.
Proof.
  revert v. induction a using Val_array_ind; intros v Ha Hs.
  - destruct a; try discriminate; simpl;
      destruct swap; eauto using fine_scalar_binop.
  - simpl.
    destruct (Py.collect _) as [l'|e] eqn:E; intro X; [|discriminate X].
    injection X as <-. unfold fine. simpl. apply fine_all.
    apply fine_collect in E; [exact E|].
    apply Forall_map. unfold fine in Ha. simpl in Ha. apply fine_all in Ha.
    rewrite Forall_forall in *. intros x Hx w. apply H; auto.
Qed.

Lemma fine_elem_elem op a : forall b v,
  fine a -> fine b -> Py.elem_elem op a b = Ok v -> fine v.
Proof.
  induction a using Val_array_ind; intros b v Ha Hb.
  - destruct a; try discriminate; destruct b;
      solve [ exact (fine_scalar_binop op _ _ v Ha Hb)
            | exact (fine_elem_scalar op true _ _ v Hb Ha) ].
  - destruct b; try exact (fine_elem_scalar op false _ _ v Ha Hb).
    simpl.
    assert (Hzip : forall l0 r,
               forallb within_packages l0 = true ->
               (fix zip (l1 l2 : list Val) {struct l1} : Result (list Val) :=
                  match l1 with
                  | [] => match l2 with
                          | [] => Ok []
                          | _ :: _ => Raise ValueError
                          end
                  | x :: l1' =>
                      match l2 with
                      | [] => Raise ValueError
                      | y :: l2' =>
                          match Py.elem_elem op x y with
                          | Ok v0 =>
                              match zip l1' l2' with
                              | Ok l3 => Ok (v0 :: l3)
                              | Raise e => Raise e
                              end
                          | Raise e => Raise e
                          end
                      end
                  end) l l0 = Ok r -> forallb within_packages r = true).
    { unfold fine in Ha. simpl in Ha. clear Hb.
      induction H as [|a l1 Hx _ IH]; intros [|y l2] r Hl2 E; try discriminate E.
      - injection E as <-. reflexivity.
      - simpl in Ha, Hl2. apply andb_prop in Ha as [Ha1 Ha2].
        apply andb_prop in Hl2 as [Hy Hl2].
        destruct (Py.elem_elem op a y) as [v0|e] eqn:E0; [|discriminate E].
        match type of E with
        | match ?t with _ => _ end = _ => destruct t as [l3|e] eqn:E3
        end; [|discriminate E].
        injection E as <-. simpl.
        rewrite (Hx y v0 Ha1 Hy E0). simpl. exact (IH Ha2 l2 l3 Hl2 E3). }
    match goal with
    | |- match ?t with _ => _ end = _ -> _ => destruct t as [l3|e] eqn:E3
    end; intro X; [|discriminate X].
    injection X as <-. unfold fine. simpl. exact (Hzip l0 l3 Hb E3).
Qed.

Lemma fine_binop op a b v : fine a -> fine b -> Py.binop op a b = Ok v -> fine v.
Proof.
  unfold Py.binop. destruct (_ || _)%bool;
    eauto using fine_elem_elem, fine_scalar_binop.
Qed.

Lemma fine_neg a v : fine a -> Py.neg a = Ok v -> fine v.
Proof.
  intro Ha.
  destruct a;
    try (simpl; intro E; first [discriminate E | injection E as <-; reflexivity]).
  intro E.
  exact (fine_elem_scalar Py.Mul false (VArray l) (VInt (-1)) v Ha
           (eq_refl : fine (VInt (-1))) E).
Qed.

Lemma fine_range_list n : Forall fine (Py.range_list n).
Proof. unfold Py.range_list. apply Forall_map, Forall_forall. reflexivity. Qed.

Lemma fine_chars s : Forall fine (Py.chars s).
Proof. unfold Py.chars. apply Forall_map, Forall_forall. reflexivity. Qed.

Lemma fine_iterate v l : fine v -> Py.iterate v = Ok l -> Forall fine l.
Proof.
  intro Hv. destruct v; simpl; intro E; try discriminate E; injection E as <-;
    try (now apply fine_all).
  - apply fine_chars.
  - apply Forall_map, Forall_forall. reflexivity.
  - apply fine_range_list.
Qed.

Lemma fine_len v n : Py.len v = Ok n -> fine n.
Proof. destruct v; simpl; intro E; try discriminate E; now injection E as <-. Qed.

Lemma fine_enumerate v r : fine v -> Py.enumerate v = Ok r -> fine r.
Proof.
  intro Hv. unfold Py.enumerate.
  destruct (Py.iterate v) as [l|e] eqn:E; intro X; [|discriminate X].
  injection X as <-. apply (fine_iterate _ _ Hv) in E.
  unfold fine. simpl. apply fine_all, Forall_map.
  apply Forall_forall. intros [i x] Hin. apply in_combine_r in Hin.
  unfold fine. simpl. rewrite Forall_forall in E. now rewrite (E x Hin).
Qed.

Lemma fine_index l i v : Forall fine l -> Py.index l i = Ok v -> fine v.
Proof.
  intro Hl. unfold Py.index.
  destruct (_ && _)%bool; [|discriminate].
  destruct (nth_error l _) as [x|] eqn:E; intro X; [|discriminate X].
  injection X as <-. rewrite Forall_forall in Hl. eapply Hl, nth_error_In, E.
Qed.

Lemma fine_lookup (k : string) (d : list (string * Val)) (v : Val) :
  Forall (fun kv => fine (snd kv)) d -> Py.lookup k d = Some v -> fine v.
Proof.
  induction 1 as [|[k' x] d Hx _ IH]; simpl; [discriminate|].
  destruct (String.eqb k k'); [|exact IH].
  intro E. now injection E as <-.
Qed.

Lemma fine_dict (d : list (string * Val)) :
  fine (VDict d) <-> Forall (fun kv => fine (snd kv)) d.
Proof.
  unfold fine. simpl. rewrite forallb_forall, Forall_forall. reflexivity.
Qed.

Lemma fine_subscript v i r : fine v -> Py.subscript v i = Ok r -> fine r.
Proof.
  intro Hv.
  destruct v; try discriminate; destruct i; simpl; try discriminate;
    try (apply fine_index; first [ now apply fine_all
                                 | apply fine_range_list
                                 | apply fine_chars ]).
  destruct (Py.lookup s d) as [x|] eqn:E; intro X; [|discriminate X].
  injection X as <-. apply fine_dict in Hv. exact (fine_lookup _ _ _ Hv E).
Qed.

Lemma fine_shape v : Forall fine (Py.shape v).
Proof.
  induction v using Val_array_ind.
  - destruct v; try discriminate; constructor.
  - simpl. constructor; [reflexivity|].
    destruct l as [|x l]; [constructor|]. now inversion H.
Qed.

Lemma fine_data_attr v a r : Py.data_attr v a = Ok r -> fine r.
Proof.
  destruct v; simpl;
    repeat match goal with
           | |- context [if ?c then _ else _] => destruct c
           end;
    intro E; try discriminate E; injection E as <-; try reflexivity.
  apply fine_all. apply (fine_shape (VArray l)).
Qed.

Lemma fine_update (x : string) (v : Val) (g : list (string * Val)) :
  fine v -> Forall (fun kv => fine (snd kv)) g ->
  Forall (fun kv => fine (snd kv)) (update x v g).
Proof.
  intros Hv. induction 1 as [|[y w] g Hw Hg IH]; simpl.
  - now repeat constructor.
  - destruct (String.eqb x y); constructor; auto.
Qed.

Lemma fine_remove (x : string) (g : list (string * Val)) :
  Forall (fun kv => fine (snd kv)) g ->
  Forall (fun kv => fine (snd kv)) (remove x g).
Proof.
  induction 1 as [|[y w] g Hw Hg IH]; simpl; [constructor|].
  destruct (String.eqb x y); [exact Hg | now constructor].
Qed.

Lemma fine_make_dict (kvs : list (string * Val)) :
  Forall (fun kv => fine (snd kv)) kvs -> fine (VDict (make_dict kvs)).
Proof.
  intro H. apply fine_dict. unfold make_dict.
  assert (Hgen : forall d, Forall (fun kv => fine (snd kv)) d ->
                           Forall (fun kv => fine (snd kv))
                                  (fold_left (fun d kv => update (fst kv) (snd kv) d) kvs d)).
  { induction H as [|kv kvs Hkv _ IH]; simpl; intros d Hd; [exact Hd|].
    apply IH. now apply fine_update. }
  apply Hgen. constructor.
Qed.

Section Tidy.

Context {L : Type}.
Variable lib : Library L.
Hypothesis Hlib : answers_within_packages lib.

Lemma tidy_ret (A : Type) (R : A -> Prop) (a : A) : R a -> tidy (L := L) A R (ret a).
Proof.
  intros Ha s Hs. simpl. split; [exact Hs|]. intros b E. now injection E as <-.
Qed.

Lemma tidy_raise (A : Type) (R : A -> Prop) (e : Exn) : tidy (L := L) A R (raise e).
Proof. intros s Hs. simpl. split; [exact Hs | discriminate]. Qed.

Lemma tidy_lift (A : Type) (R : A -> Prop) (r : Result A) :
  (forall a, r = Ok a -> R a) -> tidy (L := L) A R (lift r).
Proof. intros Hr s Hs. simpl. split; [exact Hs | exact Hr]. Qed.

Lemma tidy_bind (A B : Type) (R : A -> Prop) (R' : B -> Prop)
      (m : M L A) (k : A -> M L B) :
  tidy A R m -> (forall a, R a -> tidy B R' (k a)) -> tidy B R' (bind m k).
Proof.
  intros Hm Hk s Hs. destruct (Hm s Hs) as [Hs1 Ha].
  unfold bind. destruct (m s) as [[a|e] s1]; simpl in *.
  - exact (Hk a (Ha a eq_refl) s1 Hs1).
  - split; [exact Hs1 | discriminate].
Qed.

Lemma tidy_weaken (A : Type) (R R' : A -> Prop) (m : M L A) :
  (forall a, R a -> R' a) -> tidy A R m -> tidy A R' m.
Proof.
  intros HR Hm s Hs. destruct (Hm s Hs) as [Hs1 Ha].
  split; [exact Hs1|]. intros a E. apply HR, Ha, E.
Qed.

Lemma tidy_catch (A : Type) (R : A -> Prop) (m h : M L A) :
  tidy A R m -> tidy A R h -> tidy A R (catch m h).
Proof.
  intros Hm Hh s Hs. destruct (Hm s Hs) as [Hs1 Ha].
  unfold catch. destruct (m s) as [[a|e] s1]; simpl in *.
  - split; [exact Hs1|]. intros b E. injection E as <-. now apply Ha.
  - exact (Hh s1 Hs1).
Qed.

Lemma tidy_call c args kwargs :
  package_call c = true ->
  Forall fine args -> Forall (fun kv => fine (snd kv)) kwargs ->
  tidy Val fine (lib_call lib c args kwargs).
Proof.
  intros Hc Ha Hk s [Hg Hl]. unfold lib_call.
  pose proof (fun v => Hlib (libst (world s)) c args kwargs v Ha Hk) as Hv.
  destruct (lib (libst (world s)) c args kwargs) as [r st]. simpl in *.
  split; [split; [exact Hg|] | exact Hv].
  simpl. rewrite forallb_app, Hl. simpl. now rewrite Hc.
Qed.

Lemma tidy_emit (R : unit -> Prop) ev :
  package_event ev = true -> (forall u, R u) -> tidy (L := L) unit R (emit ev).
Proof.
  intros Hev HR s [Hg Hl]. simpl. split; [split; [exact Hg|] | auto].
  simpl. rewrite forallb_app, Hl. simpl. now rewrite Hev.
Qed.

Lemma tidy_lookup x :
  tidy (L := L) (option Val) (fun o => forall v, o = Some v -> fine v) (lookup_name x).
Proof.
  intros s Hs. simpl. split; [exact Hs|]. intros o E. injection E as <-.
  intros v Hv. destruct Hs as [Hg _]. exact (fine_lookup x (globals s) v Hg Hv).
Qed.

Lemma tidy_globals :
  tidy (L := L) (list (string * Val)) (Forall (fun kv => fine (snd kv))) get_globals.
Proof.
  intros s Hs. simpl. split; [exact Hs|]. intros g E. injection E as <-. apply Hs.
Qed.

Lemma tidy_assign (R : unit -> Prop) x v :
  fine v -> (forall u, R u) -> tidy (L := L) unit R (assign x v).
Proof.
  intros Hv HR s [Hg Hl]. simpl. split; [|auto].
  split; [now apply fine_update | exact Hl].
Qed.

Lemma tidy_restore (R : unit -> Prop) old x :
  Forall (fun kv => fine (snd kv)) old -> (forall u, R u) ->
  tidy (L := L) unit R (restore old x).
Proof.
  intros Hold HR s [Hg Hl]. simpl. split; [|auto]. split; [|exact Hl].
  simpl. destruct (Py.lookup x old) as [v|] eqn:E.
  - apply fine_update; [exact (fine_lookup x old v Hold E) | exact Hg].
  - now apply fine_remove.
Qed.

Lemma tidy_map_m (A B : Type) (P : A -> Prop) (R : B -> Prop)
      (f : A -> M L B) (l : list A) :
  (forall a, P a -> tidy B R (f a)) -> Forall P l ->
  tidy (list B) (Forall R) (map_m f l).
Proof.
  intros Hf. induction 1 as [|a l Ha _ IH]; simpl.
  - apply tidy_ret. constructor.
  - apply tidy_bind with R; [now apply Hf|]. intros b Hb.
    apply tidy_bind with (Forall R); [exact IH|]. intros bs Hbs.
    apply tidy_ret. now constructor.
Qed.

Local Ltac fines := repeat constructor; assumption.

Lemma tidy_getattr v a : fine v -> tidy Val fine (getattr lib v a).
Proof.
  intro Hv. destruct v; unfold getattr;
    try (apply tidy_lift; intros r E; exact (fine_data_attr _ _ _ E)).
  - apply tidy_ret. now apply in_packages_attr.
  - apply tidy_call; [reflexivity | fines | constructor].
Qed.

Lemma tidy_subscript v i : fine v -> fine i -> tidy Val fine (subscript lib v i).
Proof.
  intros Hv Hi. unfold subscript.
  destruct (is_obj v); [apply tidy_call; [reflexivity | fines | constructor]|].
  apply tidy_lift. intros r E. exact (fine_subscript _ _ _ Hv E).
Qed.

Lemma tidy_binop op a b : fine a -> fine b -> tidy Val fine (binop lib op a b).
Proof.
  intros Ha Hb. unfold binop.
  destruct (is_obj a); [apply tidy_call; [reflexivity | fines | constructor]|].
  destruct (is_obj b); [apply tidy_call; [reflexivity | fines | constructor]|].
  apply tidy_lift. intros r E. exact (fine_binop _ _ _ _ Ha Hb E).
Qed.

Lemma tidy_neg a : fine a -> tidy Val fine (neg lib a).
Proof.
  intro Ha. unfold neg.
  destruct (is_obj a); [apply tidy_call; [reflexivity | fines | constructor]|].
  apply tidy_lift. intros r E. exact (fine_neg _ _ Ha E).
Qed.

Lemma tidy_iterate v : fine v -> tidy (list Val) (Forall fine) (iterate lib v).
Proof.
  intro Hv. unfold iterate. destruct (is_obj v).
  - apply tidy_bind with fine; [apply tidy_call; [reflexivity | fines | constructor]|].
    intros r Hr. apply tidy_lift. intros l E. exact (fine_iterate _ _ Hr E).
  - apply tidy_lift. intros l E. exact (fine_iterate _ _ Hv E).
Qed.

Lemma tidy_len v : fine v -> tidy Val fine (len lib v).
Proof.
  intro Hv. unfold len.
  destruct (is_obj v); [apply tidy_call; [reflexivity | fines | constructor]|].
  apply tidy_lift. intros r E. exact (fine_len _ _ E).
Qed.

Lemma tidy_to_str v : fine v -> tidy string (fun _ => True) (to_str lib v).
Proof.
  intro Hv. unfold to_str. destruct (Py.str v); [now apply tidy_ret|].
  apply tidy_bind with fine; [apply tidy_call; [reflexivity | fines | constructor]|].
  intros r _. destruct r; first [now apply tidy_ret | apply tidy_raise].
Qed.

Lemma tidy_strings (args : list Val) :
  Forall fine args -> tidy (list string) (fun _ => True) (map_m (to_str lib) args).
Proof.
  intro Hargs. apply tidy_weaken with (Forall (fun _ : string => True)); [auto|].
  apply tidy_map_m with (P := fine); [intros; now apply tidy_to_str | exact Hargs].
Qed.

Lemma tidy_print args : Forall fine args -> tidy Val fine (print lib args).
Proof.
  intro Hargs. unfold print.
  apply tidy_bind with (fun _ => True); [now apply tidy_strings|].
  intros strs _. apply tidy_bind with (fun _ => True).
  - now apply tidy_emit.
  - intros _ _. now apply tidy_ret.
Qed.

Lemma tidy_format t args : Forall fine args -> tidy Val fine (format lib t args).
Proof.
  intro Hargs. unfold format.
  apply tidy_bind with (fun _ => True); [now apply tidy_strings|].
  intros strs _. apply tidy_bind with (fun _ => True).
  - now apply tidy_lift.
  - intros s _. now apply tidy_ret.
Qed.

Lemma tidy_assign_each xs : forall vs,
  Forall fine vs -> tidy (L := L) unit (fun _ => True) (assign_each xs vs).
Proof.
  induction xs as [|x xs IH]; intros [|v vs] Hvs; simpl;
    try apply tidy_raise.
  - now apply tidy_ret.
  - inversion Hvs as [|? ? Hv Hvs']. subst.
    apply tidy_bind with (fun _ => True); [now apply tidy_assign|].
    intros _ _. now apply IH.
Qed.

Lemma tidy_bind_targets xs v :
  fine v -> tidy unit (fun _ => True) (bind_targets lib xs v).
Proof.
  intro Hv. unfold bind_targets.
  assert (Hgen : tidy unit (fun _ => True)
                   (vs <- iterate lib v ;;
                    if (List.length xs =? List.length vs)%nat
                    then assign_each xs vs else raise ValueError)).
  { apply tidy_bind with (Forall fine); [now apply tidy_iterate|]. intros vs Hvs.
    destruct (_ =? _)%nat; [now apply tidy_assign_each | apply tidy_raise]. }
  destruct xs as [|x [|y xs]]; try exact Hgen.
  now apply tidy_assign.
Qed.

Lemma tidy_call_value v args kwargs :
  fine v -> Forall fine args -> Forall (fun kv => fine (snd kv)) kwargs ->
  tidy Val fine (call_value lib v args kwargs).
Proof.
  intros Hv Ha Hk. destruct v; simpl; try apply tidy_raise.
  - now apply tidy_call.
  - apply tidy_call; [reflexivity | now constructor | exact Hk].
Qed.

Lemma tidy_call_builtin f args kwargs :
  mem f runtime_builtins = false -> Forall fine args ->
  tidy Val fine (call_builtin lib f args kwargs).
Proof.
  intros Hf Hargs. unfold call_builtin. rewrite Hf.
  destruct kwargs; [|apply tidy_raise].
  destruct (String.eqb f "print"); [now apply tidy_print|].
  destruct args as [|v [|w args]];
    try (destruct (String.eqb f "range"); apply tidy_raise).
  inversion Hargs as [|? ? Hv _]. subst.
  destruct (String.eqb f "len"); [now apply tidy_len|].
  destruct (String.eqb f "range");
    [destruct v; first [now apply tidy_ret | apply tidy_raise]|].
  destruct (String.eqb f "enumerate"); [|apply tidy_raise].
  apply tidy_bind with (Forall fine); [now apply tidy_iterate|]. intros l Hl.
  apply tidy_lift. intros r E.
  apply (fine_enumerate (VList l)); [now apply fine_all | exact E].
Qed.

Lemma tidy_call_data_method r m var args kwargs :
  fine r -> Forall fine args ->
  tidy Val fine (call_data_method lib r m var args kwargs).
Proof.
  intros Hr Hargs. unfold call_data_method.
  assert (Hattr : forall v, tidy (L := L) Val fine
                              match Py.data_attr v m with
                              | Ok _ => raise TypeError
                              | Raise e => raise e
                              end).
  { intro v. destruct (Py.data_attr v m); apply tidy_raise. }
  destruct r; try apply Hattr.
  - destruct kwargs; [|apply Hattr].
    destruct (String.eqb m "format"); [now apply tidy_format | apply tidy_raise].
  - destruct kwargs; [|apply Hattr].
    destruct (String.eqb m "append"); [|apply tidy_raise].
    destruct var as [x|]; [|apply tidy_raise].
    destruct args as [|v [|w args]]; try apply tidy_raise.
    inversion Hargs as [|? ? Hv _]. subst.
    apply tidy_bind with (fun _ => True).
    + apply tidy_assign; [|auto]. unfold fine. simpl.
      unfold fine in Hr, Hv. simpl in Hr. now rewrite forallb_app, Hr; simpl; rewrite Hv.
    + intros _ _. now apply tidy_ret.
Qed.

Lemma tidy_call_method r m var args kwargs :
  fine r -> Forall fine args -> Forall (fun kv => fine (snd kv)) kwargs ->
  tidy Val fine (call_method lib r m var args kwargs).
Proof.
  intros Hr Hargs Hk.
  destruct r; try (now apply tidy_call_data_method); simpl.
  - apply tidy_call; [now apply in_packages_attr | exact Hargs | exact Hk].
  - apply tidy_call; [reflexivity | now constructor | exact Hk].
Qed.

End Tidy.

Lemma top_package_idempotent (m : string) :
  Py.top_package (Py.top_package m) = Py.top_package m.
Proof.
  induction m as [|c m IH]; simpl; [reflexivity|].
  destruct (Ascii.eqb c ".") eqn:E.
  - apply Ascii.eqb_eq in E. subst c. reflexivity.
  - assert (Hc : c <> "."%char) by (intro; subst c; discriminate E).
    destruct c as [[] [] [] [] [] [] [] []]; try (now elim Hc);
      simpl; f_equal; exact IH.
Qed.

Section TidyRuns.

Context {L : Type}.
Variable lib : Library L.
Hypothesis Hlib : answers_within_packages lib.

Lemma tidy_eval_list es :
  Forall (eval_tidy lib) es ->
  (forall x, In x (flat_map Syntax.called es) -> mem x runtime_builtins = false) ->
  tidy (list Val) (Forall fine) (eval_list lib es).
Proof.
  induction 1 as [|e es He _ IH]; intros Hc; simpl.
  - apply tidy_ret. constructor.
  - apply tidy_bind with fine.
    + apply He. intros x Hx. apply Hc. simpl. apply in_or_app. now left.
    + intros v Hv. apply tidy_bind with (Forall fine).
      * apply IH. intros x Hx. apply Hc. simpl. apply in_or_app. now right.
      * intros vs Hvs. apply tidy_ret. now constructor.
Qed.

Lemma tidy_eval_kwargs kws :
  Forall (fun kv => eval_tidy lib (snd kv)) kws ->
  (forall x, In x (flat_map (fun kv => Syntax.called (snd kv)) kws) ->
             mem x runtime_builtins = false) ->
  tidy (list (string * Val)) (Forall (fun kv => fine (snd kv))) (eval_kwargs lib kws).
Proof.
  induction 1 as [|[k e] kws He _ IH]; intros Hc; simpl.
  - apply tidy_ret. constructor.
  - apply tidy_bind with fine.
    + apply He. intros x Hx. apply Hc. simpl. apply in_or_app. now left.
    + intros v Hv. apply tidy_bind with (Forall (fun kv => fine (snd kv))).
      * apply IH. intros x Hx. apply Hc. simpl. apply in_or_app. now right.
      * intros vs Hvs. apply tidy_ret. now constructor.
Qed.

Lemma tidy_eval_items items :
  Forall (fun kv => eval_tidy lib (fst kv) /\ eval_tidy lib (snd kv)) items ->
  (forall x, In x (flat_map (fun kv => Syntax.called (fst kv) ++ Syntax.called (snd kv))%list
                            items) -> mem x runtime_builtins = false) ->
  tidy (list (string * Val)) (Forall (fun kv => fine (snd kv))) (eval_items lib items).
Proof.
  induction 1 as [|[ke ve] items [Hk Hv] _ IH]; intros Hc; simpl.
  - apply tidy_ret. constructor.
  - simpl in Hk, Hv. apply tidy_bind with fine.
    + apply Hk. intros x Hx. apply Hc. simpl.
      apply in_or_app; left; apply in_or_app; now left.
    + intros kv _. apply tidy_bind with (fun _ => True).
      * destruct kv; first [now apply tidy_ret | apply tidy_raise].
      * intros k _. apply tidy_bind with fine.
        -- apply Hv. intros x Hx. apply Hc. simpl.
           apply in_or_app; left; apply in_or_app; now right.
        -- intros v Hfv. apply tidy_bind with (Forall (fun kv => fine (snd kv))).
           ++ apply IH. intros x Hx. apply Hc. simpl. apply in_or_app. now right.
           ++ intros d Hd. apply tidy_ret. now constructor.
Qed.

Lemma tidy_name x :
  tidy (L := L) Val fine
    (o <- lookup_name x ;;
     match o with Some v => ret v | None => raise (NameError x) end).
Proof.
  apply tidy_bind with (fun o => forall v, o = Some v -> fine v); [apply tidy_lookup|].
  intros [v|] Ho; [apply tidy_ret; now apply Ho | apply tidy_raise].
Qed.

Lemma eval_tidy_strong e :
  eval_tidy lib e /\ (forall r m, e = EAttr r m -> eval_tidy lib r).
Proof.
  induction e using Expr_nested_ind;
    (split; [intros Hc | intros r0 m0 Heq; try discriminate]).
  - now apply tidy_ret.
  - now apply tidy_ret.
  - now apply tidy_ret.
  - now apply tidy_ret.
  - now apply tidy_ret.
  - now apply tidy_ret.
  - apply tidy_name.
  - simpl. apply tidy_bind with fine; [now apply IHe|].
    intros v Hv. now apply tidy_getattr.
  - injection Heq as -> ->. apply IHe.
  - simpl. apply tidy_bind with fine.
    + apply IHe1. intros x Hx. apply Hc. simpl. apply in_or_app. now left.
    + intros v Hv. apply tidy_bind with fine.
      * apply IHe2. intros x Hx. apply Hc. simpl. apply in_or_app. now right.
      * intros i Hi. now apply tidy_subscript.
  - rewrite eval_call.
    assert (Hargs : tidy (list Val) (Forall fine) (eval_list lib args)).
    { apply tidy_eval_list; [eapply Forall_impl; [|exact H]; now intros ? [? _]|].
      intros x Hx. apply Hc. simpl.
      apply in_or_app; right; apply in_or_app; now left. }
    assert (Hkws : tidy (list (string * Val)) (Forall (fun kv => fine (snd kv)))
                        (eval_kwargs lib kwargs)).
    { apply tidy_eval_kwargs; [eapply Forall_impl; [|exact H0]; now intros ? [? _]|].
      intros x Hx. apply Hc. simpl.
      apply in_or_app; right; apply in_or_app; now right. }
    assert (Hval : forall v, fine v ->
                     tidy Val fine (avs <- eval_list lib args ;;
                                    kvs <- eval_kwargs lib kwargs ;;
                                    call_value lib v avs kvs)).
    { intros v Hv. apply tidy_bind with (Forall fine); [exact Hargs|]. intros avs Ha.
      apply tidy_bind with (Forall (fun kv => fine (snd kv))); [exact Hkws|].
      intros kvs Hk. now apply tidy_call_value. }
    assert (Hf : (forall x, e <> EName x) ->
                 tidy Val fine (fv <- eval lib e ;;
                                avs <- eval_list lib args ;;
                                kvs <- eval_kwargs lib kwargs ;;
                                call_value lib fv avs kvs)).
    { intros Hn. apply tidy_bind with fine; [|exact Hval].
      apply IHe. intros x Hx. apply Hc. simpl. apply in_or_app. left.
      destruct e; try exact Hx. now elim (Hn x0). }
    destruct e; try (apply Hf; intros; discriminate).
    + apply tidy_bind with (fun o => forall v, o = Some v -> fine v);
        [apply tidy_lookup|].
      intros [v|] Ho; [apply Hval; now apply Ho|].
      destruct (mem x pure_builtins || mem x runtime_builtins); [|apply tidy_raise].
      apply tidy_bind with (Forall fine); [exact Hargs|]. intros avs Havs.
      apply tidy_bind with (Forall (fun kv => fine (snd kv))); [exact Hkws|].
      intros kvs _. apply tidy_call_builtin; [exact Hlib | | exact Havs].
      apply Hc. simpl. now left.
    + apply tidy_bind with fine.
      * destruct IHe as [_ IHr]. apply (IHr e a eq_refl).
        intros x Hx. apply Hc. simpl. apply in_or_app. now left.
      * intros rv Hrv. apply tidy_bind with (Forall fine); [exact Hargs|].
        intros avs Havs.
        apply tidy_bind with (Forall (fun kv => fine (snd kv))); [exact Hkws|].
        intros kvs Hk. now apply tidy_call_method.
  - simpl. apply tidy_bind with fine.
    + apply IHe1. intros x Hx. apply Hc. simpl. apply in_or_app. now left.
    + intros a Ha. apply tidy_bind with fine.
      * apply IHe2. intros x Hx. apply Hc. simpl. apply in_or_app. now right.
      * intros b Hb. now apply tidy_binop.
  - simpl. apply tidy_bind with fine; [now apply IHe|].
    intros v Hv. now apply tidy_neg.
  - rewrite eval_list_display. apply tidy_bind with (Forall fine).
    + apply tidy_eval_list; [|exact Hc].
      eapply Forall_impl; [|exact H]. now intros a [Ha _].
    + intros vs Hvs. apply tidy_ret. now apply fine_all.
  - rewrite eval_dict. apply tidy_bind with (Forall (fun kv => fine (snd kv))).
    + apply tidy_eval_items; [|exact Hc].
      eapply Forall_impl; [|exact H]. now intros a [[Ha _] [Hb _]].
    + intros kvs Hkvs. apply tidy_ret. now apply fine_make_dict.
  - simpl. apply tidy_bind with fine.
    { apply IHe2. intros x Hx. apply Hc. simpl. apply in_or_app. now right. }
    intros it Hit. apply tidy_bind with (Forall fine); [now apply tidy_iterate|].
    intros vs Hvs.
    apply tidy_bind with (Forall (fun kv => fine (snd kv))); [apply tidy_globals|].
    intros old Hold. apply tidy_bind with (Forall fine).
    { apply tidy_map_m with (P := fine); [|exact Hvs]. intros v Hv.
      apply tidy_bind with (fun _ => True); [now apply tidy_bind_targets|].
      intros _ _. apply IHe1. intros x Hx. apply Hc. simpl. apply in_or_app. now left. }
    intros rs Hrs. apply tidy_bind with (fun _ => True).
    { apply tidy_weaken with (Forall (fun _ : unit => True)); [auto|].
      apply tidy_map_m with (P := fun _ => True);
        [intros; now apply tidy_restore | apply Forall_forall; auto]. }
    intros _ _. apply tidy_ret. now apply fine_all.
Qed.

Lemma tidy_eval e : calls_no_runtime e -> tidy Val fine (eval lib e).
Proof. apply eval_tidy_strong. Qed.

Lemma tidy_exec_block b :
  Forall (exec_tidy lib) b ->
  (forall m, In m (flat_map Syntax.imports b) -> in_packages m = true) ->
  (forall x, In x (flat_map Syntax.calls b) -> mem x runtime_builtins = false) ->
  tidy unit (fun _ => True) (exec_block lib b).
Proof.
  induction 1 as [|st b Hst _ IH]; intros Hi Hc; simpl; [now apply tidy_ret|].
  apply tidy_bind with (fun _ => True).
  - apply Hst. split; intros x Hx; [apply Hi | apply Hc]; simpl;
      apply in_or_app; now left.
  - intros _ _. apply IH; intros x Hx; [apply Hi | apply Hc]; simpl;
      apply in_or_app; now right.
Qed.

Lemma exec_tidy_all st : exec_tidy lib st.
Proof.
  induction st using Stmt_nested_ind; intros [Hi Hc].
  - simpl. apply tidy_bind with fine.
    + apply tidy_call; [exact Hlib | | constructor | constructor].
      simpl. apply Hi. simpl. now left.
    + intros _ _. apply tidy_assign; [|auto].
      assert (Hm : in_packages m = true) by (apply Hi; simpl; now left).
      destruct a as [n|]; simpl; [exact Hm|].
      unfold fine. simpl. unfold in_packages in *.
      now rewrite top_package_idempotent.
  - simpl. assert (Hm : in_packages m = true) by (apply Hi; simpl; now left).
    apply tidy_bind with fine.
    { apply tidy_call; [exact Hlib | exact Hm | constructor | constructor]. }
    intros _ _.
    apply tidy_bind with (fun _ => True); [|intros; now apply tidy_ret].
    apply tidy_weaken with (Forall (fun _ : unit => True)); [auto|].
    apply tidy_map_m with (P := fun _ => True); [|apply Forall_forall; auto].
    intros n _. apply tidy_assign; [|auto]. unfold fine. simpl.
    now apply in_packages_attr.
  - simpl. apply tidy_bind with fine; [now apply tidy_eval|].
    intros v Hv. now apply tidy_bind_targets.
  - simpl. apply tidy_bind with fine; [now apply tidy_eval|].
    intros. now apply tidy_ret.
  - rewrite exec_for. apply tidy_bind with fine.
    { apply tidy_eval. intros x Hx. apply Hc. simpl. apply in_or_app. now left. }
    intros it Hit. apply tidy_bind with (Forall fine); [now apply tidy_iterate|].
    intros vs Hvs. apply tidy_bind with (fun _ => True); [|intros; now apply tidy_ret].
    apply tidy_weaken with (Forall (fun _ : unit => True)); [auto|].
    apply tidy_map_m with (P := fine); [|exact Hvs]. intros v Hv.
    apply tidy_bind with (fun _ => True); [now apply tidy_bind_targets|].
    intros _ _. apply tidy_exec_block; [exact H | exact Hi |].
    intros x Hx. apply Hc. simpl. apply in_or_app. now right.
  - rewrite exec_try. apply tidy_catch; apply tidy_exec_block; auto.
    + intros x Hx. apply Hi. simpl. apply in_or_app. now left.
    + intros x Hx. apply Hc. simpl. apply in_or_app. now left.
    + intros x Hx. apply Hi. simpl. apply in_or_app. now right.
    + intros x Hx. apply Hc. simpl. apply in_or_app. now right.
Qed.

Lemma tidy_exec_cell (c : Cell) :
  Forall stays_in_packages c -> tidy unit (fun _ => True) (exec_cell lib c).
Proof.
  induction 1 as [|st c Hst Hc IH]; [now apply tidy_ret|].
  assert (Hgen : tidy unit (fun _ => True) (exec lib st ;; exec_cell lib c)).
  { apply tidy_bind with (fun _ => True); [now apply exec_tidy_all|].
    intros _ _. exact IH. }
  destruct st; try exact Hgen.
  destruct c; [|exact Hgen].
  simpl. apply tidy_bind with fine.
  - apply tidy_eval. exact (proj2 Hst).
  - intros v _. destruct v; first [now apply tidy_ret | now apply tidy_emit].
Qed.

Lemma tidy_run_cells (nb : Notebook) :
  Forall (Forall stays_in_packages) nb -> tidy unit (fun _ => True) (run_cells lib nb).
Proof.
  induction 1 as [|c nb Hc _ IH]; simpl; [now apply tidy_ret|].
  apply tidy_bind with (fun _ => True); [now apply tidy_exec_cell|].
  intros _ _. exact IH.
Qed.

End TidyRuns.

Lemma notebook_stays_in_packages (nb : Notebook) :
  notebook_in_packages nb = true -> Forall (Forall stays_in_packages) nb.
Proof.
  unfold notebook_in_packages, imported, Syntax.statements. intro H.
  apply andb_prop in H as [Hi Hc].
  rewrite forallb_forall in Hi, Hc.
  apply Forall_forall. intros c Hcell. apply Forall_forall. intros st Hst.
  split.
  - intros m Hm. apply Hi. apply in_flat_map. exists st. split; [|exact Hm].
    apply in_concat. now exists c.
  - intros x Hx. apply negb_true_iff. apply Hc. apply in_flat_map. exists st.
    split; [|exact Hx]. apply in_concat. now exists c.
Qed.

Lemma fine_new_list kind n : forall st,
  Forall fine (fst (Demo.new_list kind n st)).
Proof.
  induction n as [|n IH]; intro st; simpl; [constructor|].
  specialize (IH (Demo.mkSt (Demo.next st + 1)
                            ((Demo.next st, kind) :: Demo.made st))).
  destruct (Demo.new_list kind n _) as [l st']. simpl in *.
  constructor; [reflexivity | exact IH].
Qed.

Lemma demo_answers_within_packages : answers_within_packages Demo.lib.
Proof.
  intros st c args kwargs v Ha _ E. destruct c as [m ns|p|m|a|f]; simpl in E.
  - now injection E as <-.
  - unfold Demo.call_fn in E.
    destruct (String.eqb p "numpy.array").
    { destruct args as [|[] [|]]; try discriminate E. injection E as <-.
      inversion Ha as [|? ? Hl _]. exact Hl. }
    destruct (String.eqb p "pytket._circuit.optimise_pre_routing");
      [now injection E as <-|].
    destruct (String.eqb p "pytket.cirq.get_grid_qubits").
    { destruct args as [|? [|[] [|]]]; try discriminate E.
      pose proof (fine_new_list "GridQubit" (Z.to_nat n) st) as Hn.
      destruct (Demo.new_list "GridQubit" (Z.to_nat n) st) as [l st'].
      injection E as <-. now apply fine_all. }
    destruct (String.eqb p "pytket._routing.route"); now injection E as <-.
  - unfold Demo.call_method in E.
    repeat match type of E with
           | fst (if ?b then _ else _) = _ => destruct b
           end; now injection E as <-.
  - unfold Demo.get_attr in E.
    repeat match type of E with
           | fst (if ?b then _ else _) = _ => destruct b
           end; first [discriminate E | now injection E as <-].
  - discriminate E.
Qed.

Lemma notebooks_in_packages (nb : Notebook) :
  In nb notebooks -> notebook_in_packages nb = true.
Proof. intros [<-|[<-|[<-|[]]]]; vm_compute; reflexivity. Qed.


